(** * TensorBoard plugin demo (demo_pytorch.py): a shallow embedding

    The demo script builds legacy triangle meshes, paints them, converts
    them to attribute dictionaries and hands these to a summary writer.
    Python objects live in a store of meshes addressed by references, so
    that in-place painting and [copy.deepcopy] keep their meaning; the
    summary writer is a recording sink whose log lists the [add_3d] calls
    in the order they were made.  Python floats are idealised as real
    numbers, with one exception: the two products that are truncated to
    the split counts of the Moebius strip are computed in binary64, as
    the interpreter computes them, since their rounding and their
    overflow decide an integer and an exception. *)

From Stdlib Require Import Reals ZArith List String Ascii Lia Lra.
From stdpp Require Import gmap strings list fin_maps.

Local Open Scope Z_scope.

(** ** Data *)

Definition vec3 : Type := R * R * R.
Definition tri : Type := Z * Z * Z.

(** o3d.geometry.TriangleMesh, the legacy mesh: the four arrays the
    demos touch. *)
Record TriangleMesh : Type := mkMesh {
  vertices : list vec3;
  vertex_normals : list vec3;
  vertex_colors : list vec3;
  triangles : list tri
}.

(** o3d.t.io.read_image gives a decoded image buffer. *)
Record Image : Type := mkImage {
  img_rows : nat;
  img_cols : nat;
  img_channels : nat;
  img_data : list Z
}.

Inductive tensor : Type :=
| FloatTensor (rows : list (list R))
| IntTensor (rows : list (list Z)).

(** o3d.t.geometry.TriangleMesh: attribute dictionaries [vertex] and
    [triangle]. *)
Record TMesh : Type := mkTMesh {
  vertex : gmap string tensor;
  triangle : gmap string tensor
}.

(** The [material] dict of [with_material]. *)
Record Material : Type := mkMaterial {
  name : string;
  scalar_properties : gmap string R;
  vector_properties : gmap string (list R);
  texture_maps : gmap string Image
}.

(** What a key of the dictionary given to [add_3d] may hold: a batch of
    per-instance arrays, a plain Python int, a tensor, a material. *)
Inductive value : Type :=
| Vec3Batch (b : list (list vec3))
| TriBatch (b : list (list tri))
| PyInt (z : Z)
| TensorV (t : tensor)
| MaterialV (m : Material).

(** One call [writer.add_3d(tag, data, step=..., max_outputs=...)] on the
    writer opened on [call_logdir]. *)
Record add_3d_call : Type := mkCall {
  call_logdir : string;
  call_tag : string;
  call_data : gmap string value;
  call_step : Z;
  call_max_outputs : option Z
}.

(** Exceptions.  [OverflowError] is what the interpreter raises for an
    int too large for a float and for [int] of an infinite float.
    [LibraryError kind] is an exception raised inside the geometry or I/O
    library, kept by kind.  [DanglingRef] is no Python exception: it
    marks a reference to no object, which the store discipline below
    never produces. *)
Inductive exn : Type :=
| IndexError
| ZeroDivisionError
| OverflowError
| KeyError (key : string)
| LibraryError (kind : string)
| DanglingRef.

Definition loc : Type := nat.

Record state : Type := mkState {
  heap : list TriangleMesh;
  log : list add_3d_call
}.

(** ** The monad of the script: state and exceptions

    A raising computation keeps the state it reached: what was written to
    the sink before the exception stays written. *)

Definition M (A : Type) : Type := state -> (exn + A) * state.

#[global] Instance M_ret : MRet M := fun A (a : A) st => (inr a, st).

#[global] Instance M_bind : MBind M := fun A B (k : A -> M B) (c : M A) st =>
  match c st with
  | (inr a, st') => k a st'
  | (inl e, st') => (inl e, st')
  end.

Definition raise {A : Type} (e : exn) : M A := fun st => (inl e, st).

Definition lift_lib {A : Type} (r : string + A) : M A :=
  match r with
  | inl kind => raise (LibraryError kind)
  | inr a => mret a
  end.

Definition lift_exn {A : Type} (r : exn + A) : M A :=
  match r with
  | inl e => raise e
  | inr a => mret a
  end.

(** [for x in xs: body(x)] *)
Fixpoint for_each {A : Type} (xs : list A) (body : A -> M unit) : M unit :=
  match xs with
  | [] => mret tt
  | x :: rest => body x ;; for_each rest body
  end.

(** [range(n)] *)
Definition py_range (n : Z) : list Z := Z.of_nat <$> seq 0 (Z.to_nat n).

(** [l[i]] for a Python list, negative indices counting from the end. *)
Definition py_index {A : Type} (l : list A) (i : Z) : M A :=
  let n := Z.of_nat (length l) in
  let j := if i <? 0 then i + n else i in
  if (0 <=? j) && (j <? n) then
    match l !! Z.to_nat j with
    | Some a => mret a
    | None => raise IndexError
    end
  else raise IndexError.

(** *** The object store *)

Definition alloc (m : TriangleMesh) : M loc := fun st =>
  (inr (length (heap st)), mkState (heap st ++ [m]) (log st)).

Definition deref (l : loc) : M TriangleMesh := fun st =>
  match heap st !! l with
  | Some m => (inr m, st)
  | None => (inl DanglingRef, st)
  end.

Definition update (l : loc) (f : TriangleMesh -> TriangleMesh) : M unit := fun st =>
  match heap st !! l with
  | Some m => (inr tt, mkState (<[l := f m]> (heap st)) (log st))
  | None => (inl DanglingRef, st)
  end.

(** [copy.deepcopy(obj)]: a new object with the same contents. *)
Definition deepcopy (l : loc) : M loc := m ← deref l; alloc m.

(** *** The geometry library, as far as the demos rely on it *)

(** Modelled from the spec: paint_uniform_color, a method of the geometry
    library whose code is not among the sources; it gives every vertex the
    colour [c] and mutates only the per-vertex colours of its target. *)
Definition paint (c : vec3) (m : TriangleMesh) : TriangleMesh :=
  mkMesh (vertices m) (vertex_normals m) ((fun _ => c) <$> vertices m) (triangles m).

Definition paint_uniform_color (l : loc) (c : vec3) : M unit := update l (paint c).

(** Modelled from the spec: to_dict_batch, a helper of the plugin whose
    code is not among the sources; it turns a sequence of meshes into the
    dictionary of batched arrays, one entry of each batch per mesh, under
    the keys the sink recognises. *)
Definition dict_of_batch (ms : list TriangleMesh) : gmap string value :=
  <["vertex_positions" := Vec3Batch (vertices <$> ms)]>
  (<["vertex_normals" := Vec3Batch (vertex_normals <$> ms)]>
  (<["vertex_colors" := Vec3Batch (vertex_colors <$> ms)]>
  (<["triangle_indices" := TriBatch (triangles <$> ms)]> ∅))).

Fixpoint deref_all (ls : list loc) : M (list TriangleMesh) :=
  match ls with
  | [] => mret []
  | l :: rest => m ← deref l; ms ← deref_all rest; mret (m :: ms)
  end.

Definition to_dict_batch (ls : list loc) : M (gmap string value) :=
  ms ← deref_all ls; mret (dict_of_batch ms).

(** *** The summary writer: a recording sink *)

Definition BASE_LOGDIR : string := "demo_logs/pytorch/".

Definition writer : Type := string.

Definition SummaryWriter (logdir : string) : M writer := mret logdir.

(** Modelled from the spec: add_3d, the method of the plugin's writer,
    whose code is not among the sources; the call is appended to the log
    of the sink.  This sink accepts every call: the write error that the
    specification lets a sink raise is not modelled, so what is proved of
    a run is proved of a run whose calls the sink accepts. *)
Definition add_3d (w : writer) (tag : string) (data : gmap string value)
    (step : Z) (max_outputs : option Z) : M unit := fun st =>
  (inr tt, mkState (heap st) (log st ++ [mkCall w tag data step max_outputs])).

(** [x / n] with a float [x] and an int [n]: Python raises on a zero
    divisor. *)
Definition py_truediv (x : R) (n : Z) : M R :=
  if n =? 0 then raise ZeroDivisionError else mret (x / IZR n)%R.

(** [for x in xs: ...] where the body rebinds local variables [s]. *)
Fixpoint for_fold {A S : Type} (xs : list A) (s : S) (body : S -> A -> M S) : M S :=
  match xs with
  | [] => mret s
  | x :: rest => s' ← body s x; for_fold rest s' body
  end.

(** Lines 96-97: the colour of batch element [k] out of [batch_size]. *)
Definition color_schedule (k batch_size : Z) : M vec3 :=
  t ← py_truediv (IZR k * PI)%R batch_size;
  mret ((1 + sin t) / 2, (1 + cos t) / 2, t / PI)%R.

(** Lines 94-97: the list [colors] of [large_scale]. *)
Definition build_colors (batch_size : Z) : M (list vec3) :=
  for_fold (py_range batch_size) [] (fun colors k =>
    c ← color_schedule k batch_size;
    mret (colors ++ [c])).

(** *** The floats that decide an integer

    [int(3.5 * resolution)] and [int(0.75 * resolution)] are computed in
    binary64: the int is converted to the nearest float, the product is
    rounded to the nearest float, and [int] truncates the result.  A
    finite float is kept as a pair [(m, e)] that stands for [m * 2^e]. *)

Definition binary64 : Type := Z * Z.

(** Rounding of [m * 2^e] to 53 significant bits, to the nearest and
    with ties to the even significand; the exponent is not limited
    here. *)
Definition round_53 (m e : Z) : binary64 :=
  let bits := Z.log2 (Z.abs m) + 1 in
  if bits <=? 53 then (m, e)
  else
    let s := bits - 53 in
    let q := Z.abs m / 2 ^ s in
    let r := Z.abs m mod 2 ^ s in
    let half := 2 ^ (s - 1) in
    let q := if (half <? r) || ((r =? half) && Z.odd q) then q + 1 else q in
    (Z.sgn m * q, e + s).

(** A rounded magnitude of 2^1024 or more is beyond the largest float. *)
Definition overflows (x : binary64) : bool :=
  2 ^ 1024 <=? Z.abs (fst x) * 2 ^ snd x.

(** The conversion of an int operand to a float: the interpreter raises
    when the int is too large. *)
Definition float_of_int (n : Z) : exn + binary64 :=
  let x := round_53 n 0 in
  if overflows x then inl OverflowError else inr x.

(** [x * y] for two floats: [None] is the infinity of an overflowing
    product, which raises nothing by itself.  Underflow is not modelled:
    the products of the script are zero or at least 0.75 in magnitude. *)
Definition float_mul (x y : binary64) : option binary64 :=
  let z := round_53 (fst x * fst y) (snd x + snd y) in
  if overflows z then None else Some z.

(** [int(x)] for a float: truncation towards zero, and an exception for
    an infinity. *)
Definition int_of_float (x : option binary64) : exn + Z :=
  match x with
  | None => inl OverflowError
  | Some (m, e) => inr (if 0 <=? e then m * 2 ^ e else Z.quot m (2 ^ (- e)))
  end.

(** [int(c * n)] for a float literal [c] and an int [n]. *)
Definition int_of_product (c : binary64) (n : Z) : exn + Z :=
  match float_of_int n with
  | inl e => inl e
  | inr x => int_of_float (float_mul c x)
  end.

(** The reuse marker: what a key may hold in place of a concrete array;
    the demo writes the int 0. *)
Definition reuse_marker : value := PyInt 0.

Definition palette : list vec3 := [(1, 0, 0); (0, 1, 0); (0, 0, 1)]%R.

Section Demos.

(** The mesh generators and the normal computation of the geometry
    library: their algorithms are not part of the script.  A generator
    either raises (the kind of the error is kept) or gives a mesh. *)
Variable create_box : R -> R -> R -> string + TriangleMesh.
Variable create_cylinder : R -> R -> Z -> Z -> string + TriangleMesh.
Variable create_moebius : Z -> Z -> Z -> R -> R -> R -> R -> string + TriangleMesh.
Variable compute_normals : TriangleMesh -> TriangleMesh.

Definition new_box (w h d : R) : M loc :=
  m ← lift_lib (create_box w h d); alloc m.

Definition new_cylinder (radius height : R) (resolution split : Z) : M loc :=
  m ← lift_lib (create_cylinder radius height resolution split); alloc m.

Definition new_moebius (length_split width_split twists : Z)
    (raidus flatness width scale : R) : M loc :=
  m ← lift_lib (create_moebius length_split width_split twists
                  raidus flatness width scale);
  alloc m.

Definition compute_vertex_normals (l : loc) : M unit := update l compute_normals.

(** Lines 51-54: the body of the loop of [small_scale]. *)
Definition small_scale_step (w : writer) (cube cylinder : loc)
    (colors : list vec3) (step : Z) : M unit :=
  c ← py_index colors step;
  paint_uniform_color cube c;;
  d ← to_dict_batch [cube];
  add_3d w "cube" d step None;;
  c ← py_index colors step;
  paint_uniform_color cylinder c;;
  d ← to_dict_batch [cylinder];
  add_3d w "cylinder" d step None.

Definition small_scale (run_name : string) : M unit :=
  w ← SummaryWriter (BASE_LOGDIR +:+ run_name);
  cube ← new_box 1 2 4;
  compute_vertex_normals cube;;
  cylinder ← new_cylinder 1 2 20 4;
  compute_vertex_normals cylinder;;
  let colors := palette in
  for_each (py_range 3) (small_scale_step w cube cylinder colors).

(** Lines 74-76 and 80-82: [if step > 0:] overwrite the two keys. *)
Definition mark_reused (step : Z) (summary : gmap string value) : gmap string value :=
  if 0 <? step then
    <["vertex_normals" := PyInt 0]> (<["vertex_positions" := PyInt 0]> summary)
  else summary.

(** Lines 72-83: the body of the loop of [property_reference]. *)
Definition property_reference_step (w : writer) (cube cylinder : loc)
    (colors : list vec3) (step : Z) : M unit :=
  c ← py_index colors step;
  paint_uniform_color cube c;;
  cube_summary ← to_dict_batch [cube];
  let cube_summary := mark_reused step cube_summary in
  add_3d w "cube" cube_summary step None;;
  c ← py_index colors step;
  paint_uniform_color cylinder c;;
  cylinder_summary ← to_dict_batch [cylinder];
  let cylinder_summary := mark_reused step cylinder_summary in
  add_3d w "cylinder" cylinder_summary step None.

Definition property_reference (run_name : string) : M unit :=
  w ← SummaryWriter (BASE_LOGDIR +:+ run_name);
  cube ← new_box 1 2 4;
  compute_vertex_normals cube;;
  cylinder ← new_cylinder 1 2 20 4;
  compute_vertex_normals cylinder;;
  let colors := palette in
  for_each (py_range 3) (property_reference_step w cube cylinder colors).

(** Lines 114-118: one round of the batch loop; the two lists are
    local to the step and are rebound as they grow. *)
Definition batch_round (cylinder moebius : loc) (colors : list vec3)
    (lists : list loc * list loc) (b : Z) : M (list loc * list loc) :=
  let '(cylinder_list, moebius_list) := lists in
  x ← deepcopy cylinder;
  let cylinder_list := cylinder_list ++ [x] in
  x ← py_index cylinder_list b;
  c ← py_index colors b;
  paint_uniform_color x c;;
  y ← deepcopy moebius;
  let moebius_list := moebius_list ++ [y] in
  y ← py_index moebius_list b;
  c ← py_index colors b;
  paint_uniform_color y c;;
  mret (cylinder_list, moebius_list).

(** Lines 106-107: [int(3.5 * resolution)] and [int(0.75 * resolution)];
    3.5 is the float 7 * 2^-1 and 0.75 is the float 3 * 2^-2. *)
Definition length_split_of (resolution : Z) : exn + Z :=
  int_of_product (7, -1) resolution.
Definition width_split_of (resolution : Z) : exn + Z :=
  int_of_product (3, -2) resolution.

(** Lines 99-126: the body of the step loop of [large_scale]. *)
Definition large_scale_step (w : writer) (batch_size base_resolution : Z)
    (colors : list vec3) (step : Z) : M unit :=
  let resolution := base_resolution * (step + 1) in
  cylinder ← new_cylinder 1 2 resolution 4;
  compute_vertex_normals cylinder;;
  length_split ← lift_exn (length_split_of resolution);
  width_split ← lift_exn (width_split_of resolution);
  moebius ← new_moebius length_split width_split 1 1 1 1 1;
  compute_vertex_normals moebius;;
  lists ← for_fold (py_range batch_size) ([], [])
            (batch_round cylinder moebius colors);
  let '(cylinder_list, moebius_list) := lists in
  d ← to_dict_batch cylinder_list;
  add_3d w "cylinder" d step (Some batch_size);;
  d ← to_dict_batch moebius_list;
  add_3d w "moebius" d step (Some batch_size).

Definition large_scale (n_steps batch_size base_resolution : Z)
    (run_name : string) : M unit :=
  w ← SummaryWriter (BASE_LOGDIR +:+ run_name);
  colors ← build_colors batch_size;
  for_each (py_range n_steps) (large_scale_step w batch_size base_resolution colors).

End Demos.

(** ** with_material *)

(** os.path on a POSIX system. *)
Fixpoint contains_slash (p : string) : bool :=
  match p with
  | EmptyString => false
  | String c rest => Ascii.eqb c "/" || contains_slash rest
  end.

(** [os.path.basename(p)]: what follows the last slash. *)
Fixpoint basename (p : string) : string :=
  match p with
  | EmptyString => EmptyString
  | String c rest =>
      if contains_slash rest then basename rest
      else if Ascii.eqb c "/" then rest else p
  end.

Fixpoint ends_with_slash (p : string) : bool :=
  match p with
  | EmptyString => false
  | String c EmptyString => Ascii.eqb c "/"
  | String _ rest => ends_with_slash rest
  end.

Definition starts_with_slash (p : string) : bool :=
  match p with
  | String c _ => Ascii.eqb c "/"
  | EmptyString => false
  end.

(** [os.path.join(a, b)] *)
Definition path_join (a b : string) : string :=
  if starts_with_slash b then b
  else if String.eqb a "" || ends_with_slash a then a +:+ b
  else a +:+ "/" +:+ b.

(** [d[k]] for a dict. *)
Definition py_getitem {A : Type} (d : gmap string A) (k : string) : M A :=
  match d !! k with
  | Some a => mret a
  | None => raise (KeyError k)
  end.

Definition texture_channels : list string :=
  ["albedo"; "normal"; "ao"; "metallic"; "roughness"].

Definition set_texture (material : Material) (texture : string) (img : Image) : Material :=
  mkMaterial (name material) (scalar_properties material)
    (vector_properties material) (<[texture := img]> (texture_maps material)).

Definition set_scalar (material : Material) (key : string) (x : R) : Material :=
  mkMaterial (name material) (<[key := x]> (scalar_properties material))
    (vector_properties material) (texture_maps material).

Section WithMaterial.

(** The file system and the I/O library. *)
Variable path_exists : string -> bool.
Variable read_image : string -> Image.
Variable read_triangle_mesh : string -> string + TriangleMesh.
Variable from_legacy : TriangleMesh -> TMesh.

(** Lines 145-148: the body of the loop over the texture names. *)
Definition add_texture (model_dir : string) (material : Material)
    (texture : string) : Material :=
  let texture_file := path_join model_dir (texture +:+ ".png") in
  if path_exists texture_file then
    set_texture material texture (read_image texture_file)
  else material.

(** Lines 137-151: the material dictionary. *)
Definition assemble_material (model_dir : string) : Material :=
  let material := mkMaterial "defaultLit" ∅ ∅ ∅ in
  let material := foldl (add_texture model_dir) material texture_channels in
  match texture_maps material !! "metallic" with
  | Some _ => set_scalar material "base_metallic" 1%R
  | None => material
  end.

Definition with_material (model_dir : string) : M unit :=
  let model_name := basename model_dir in
  let logdir := BASE_LOGDIR +:+ model_name in
  let model_path := path_join model_dir (model_name +:+ ".obj") in
  legacy ← lift_lib (read_triangle_mesh model_path);
  let model := from_legacy legacy in
  let material := assemble_material model_dir in
  w ← SummaryWriter logdir;
  positions ← py_getitem (vertex model) "positions";
  normals ← py_getitem (vertex model) "normals";
  texture_uvs ← py_getitem (vertex model) "texture_uvs";
  indices ← py_getitem (triangle model) "indices";
  add_3d w model_name
    (<["vertex_positions" := TensorV positions]>
    (<["vertex_normals" := TensorV normals]>
    (<["vertex_texture_uvs" := TensorV texture_uvs]>
    (<["triangle_indices" := TensorV indices]>
    (<["material" := MaterialV material]> ∅)))))
    0 None.

End WithMaterial.

(** ** Running a computation *)

Definition outcome {A : Type} (r : (exn + A) * state) : exn + A := fst r.
Definition final {A : Type} (r : (exn + A) * state) : state := snd r.

(** The calls a computation adds to the log of [st]. *)
Definition emitted {A : Type} (c : M A) (st : state) : list add_3d_call :=
  drop (length (log st)) (log (final (c st))).

Definition empty_state : state := mkState [] [].

(** ** What the claims speak of *)

(** The frame of one mesh: what [to_dict_batch([m])] hands to the sink. *)
Definition frame (w : writer) (tag : string) (m : TriangleMesh) (step : Z) : add_3d_call :=
  mkCall w tag (dict_of_batch [m]) step None.

(** The same frame after the substitution of [property_reference]. *)
Definition marked_frame (w : writer) (tag : string) (m : TriangleMesh) (step : Z) : add_3d_call :=
  mkCall w tag (mark_reused step (dict_of_batch [m])) step None.


(** The frame of a batch in [large_scale]: one painted copy of [m] per
    colour. *)
Definition batch_frame (w : writer) (tag : string) (m : TriangleMesh)
    (colors : list vec3) (step max_outputs : Z) : add_3d_call :=
  mkCall w tag (dict_of_batch ((fun c => paint c m) <$> colors)) step (Some max_outputs).

(** The number of geometry instances in a batched array, and in the
    batch of a call (read off its vertex positions). *)
Definition batch_length (v : value) : option nat :=
  match v with
  | Vec3Batch b => Some (length b)
  | TriBatch b => Some (length b)
  | _ => None
  end.

Definition instances (c : add_3d_call) : option nat :=
  call_data c !! "vertex_positions" ≫= batch_length.

(** Modelled from the spec: the cap of the sink, whose code is not among
    the sources; [max_outputs], when set, truncates the batch that is
    written. *)
Definition written_instances (c : add_3d_call) : option Z :=
  n ← instances c;
  match call_max_outputs c with
  | Some cap => Some (Z.min (Z.of_nat n) cap)
  | None => Some (Z.of_nat n)
  end.

(** The colour schedule in the words of the specification. *)
Definition spec_color_schedule (batch_index batch_size : Z) : vec3 :=
  let t := (IZR batch_index * PI / IZR batch_size)%R in
  ((1 + sin t) / 2, (1 + cos t) / 2, t / PI)%R.






(** The colours of [large_scale], element by element. *)
Definition colors_of (batch_size : Z) : list vec3 :=
  (fun k => spec_color_schedule k batch_size) <$> py_range batch_size.

(** The references the batch loop creates on a store of [n] objects. *)
Definition batch_refs (n r : nat) : list loc * list loc :=
  ((fun i => n + 2 * i)%nat <$> seq 0 r, (fun i => n + 2 * i + 1)%nat <$> seq 0 r).

Definition batch_objects (mc mm : TriangleMesh) (colors : list vec3) : list TriangleMesh :=
  flat_map (fun c => [paint c mc; paint c mm]) colors.

(** ** What the small demos are expected to hand over *)

Definition red : vec3 := (1, 0, 0)%R.
Definition green : vec3 := (0, 1, 0)%R.
Definition blue : vec3 := (0, 0, 1)%R.

(** The six frames of a run on the meshes [mc] (cube) and [my]
    (cylinder); [mk] builds one frame. *)
Definition demo_frames (mk : string -> TriangleMesh -> Z -> add_3d_call)
    (mc my : TriangleMesh) : list add_3d_call :=
  [mk "cube" (paint red mc) 0; mk "cylinder" (paint red my) 0;
   mk "cube" (paint green mc) 1; mk "cylinder" (paint green my) 1;
   mk "cube" (paint blue mc) 2; mk "cylinder" (paint blue my) 2].

Section Expected.

Variable create_box : R -> R -> R -> string + TriangleMesh.
Variable create_cylinder : R -> R -> Z -> Z -> string + TriangleMesh.
Variable compute_normals : TriangleMesh -> TriangleMesh.

(** The common prologue of the two small demos (lines 42-48 and 63-69):
    two meshes are made and given normals, then the loop [K] runs on
    their references.  Both demos are this prologue followed by their own
    loop. *)
Definition prologue (K : loc -> loc -> M unit) : M unit :=
  cube ← new_box create_box 1 2 4;
  compute_vertex_normals compute_normals cube;;
  cylinder ← new_cylinder create_cylinder 1 2 20 4;
  compute_vertex_normals compute_normals cylinder;;
  K cube cylinder.

(** How a small demo ends: with the error of the first generator that
    raises, or normally. *)
Definition small_demo_outcome : exn + unit :=
  match create_box 1 2 4 with
  | inl kind => inl (LibraryError kind)
  | inr _ =>
      match create_cylinder 1 2 20 4 with
      | inl kind => inl (LibraryError kind)
      | inr _ => inr tt
      end
  end.

(** What a small demo hands over: nothing if a generator raises, the six
    frames otherwise. *)
Definition small_demo_frames (mk : string -> TriangleMesh -> Z -> add_3d_call)
    : list add_3d_call :=
  match create_box 1 2 4, create_cylinder 1 2 20 4 with
  | inr cube0, inr cyl0 =>
      demo_frames mk (compute_normals cube0) (compute_normals cyl0)
  | _, _ => []
  end.

End Expected.

(** ** What large_scale is expected to hand over *)

Section ExpectedLarge.

Variable create_cylinder : R -> R -> Z -> Z -> string + TriangleMesh.
Variable create_moebius : Z -> Z -> Z -> R -> R -> R -> R -> string + TriangleMesh.
Variable compute_normals : TriangleMesh -> TriangleMesh.

(** The two generator calls of a step (lines 102-112). *)
Definition step_cylinder (base_resolution step : Z) : string + TriangleMesh :=
  create_cylinder 1 2 (base_resolution * (step + 1)) 4.

(** The two split counts of a step, the length split first. *)
Definition step_splits (base_resolution step : Z) : exn + Z * Z :=
  match length_split_of (base_resolution * (step + 1)) with
  | inl e => inl e
  | inr length_split =>
      match width_split_of (base_resolution * (step + 1)) with
      | inl e => inl e
      | inr width_split => inr (length_split, width_split)
      end
  end.

Definition step_moebius (base_resolution step : Z) : exn + TriangleMesh :=
  match step_splits base_resolution step with
  | inl e => inl e
  | inr (length_split, width_split) =>
      match create_moebius length_split width_split 1 1 1 1 1 with
      | inl kind => inl (LibraryError kind)
      | inr m => inr m
      end
  end.

(** The exception of a step, if it raises one: the cylinder comes
    first, then the split counts, then the Moebius strip. *)
Definition step_error (base_resolution step : Z) : option exn :=
  match step_cylinder base_resolution step with
  | inl kind => Some (LibraryError kind)
  | inr _ =>
      match step_moebius base_resolution step with
      | inl e => Some e
      | inr _ => None
      end
  end.

(** The two frames of a step whose generators succeed. *)
Definition step_frames (w : writer) (batch_size base_resolution : Z)
    (colors : list vec3) (step : Z) : list add_3d_call :=
  match step_cylinder base_resolution step, step_moebius base_resolution step with
  | inr c0, inr m0 =>
      [batch_frame w "cylinder" (compute_normals c0) colors step batch_size;
       batch_frame w "moebius" (compute_normals m0) colors step batch_size]
  | _, _ => []
  end.

(** Steps run in order until the first one that raises. *)
Fixpoint loop_outcome (base_resolution : Z) (steps : list Z) : exn + unit :=
  match steps with
  | [] => inr tt
  | s :: rest =>
      match step_error base_resolution s with
      | Some e => inl e
      | None => loop_outcome base_resolution rest
      end
  end.

Fixpoint loop_frames (w : writer) (batch_size base_resolution : Z)
    (colors : list vec3) (steps : list Z) : list add_3d_call :=
  match steps with
  | [] => []
  | s :: rest =>
      match step_error base_resolution s with
      | Some _ => []
      | None =>
          step_frames w batch_size base_resolution colors s
          ++ loop_frames w batch_size base_resolution colors rest
      end
  end.

End ExpectedLarge.

(** A call shows [color] on track [tag] at [step]: its single instance
    has one colour per vertex, and every one of them is [color]. *)
Definition shows (call : add_3d_call) (tag : string) (step : Z) (color : vec3) : Prop :=
  call_tag call = tag /\ call_step call = step /\
  exists verts cols,
    call_data call !! "vertex_positions" = Some (Vec3Batch [verts]) /\
    call_data call !! "vertex_colors" = Some (Vec3Batch [cols]) /\
    length cols = length verts /\ Forall (eq color) cols.

(** ** Stand-ins for the geometry library

    Small generators on which the demos can be run: a tetrahedron for the
    box, a triangle for the cylinder and for the strip, a constant normal.
    The cylinder refuses fewer than three segments, and [capped_cylinder]
    also refuses a resolution above [cap]. *)
Definition demo_box (w h d : R) : string + TriangleMesh :=
  inr (mkMesh [(0, 0, 0); (w, 0, 0); (0, h, 0); (0, 0, d)]%R [] []
         [(0, 1, 2); (0, 1, 3); (0, 2, 3); (1, 2, 3)]).

Definition demo_cylinder (radius height : R) (resolution split : Z)
    : string + TriangleMesh :=
  if resolution <? 3 then inl "GeometryConstructionError"
  else inr (mkMesh [(0, 0, 0); (radius, 0, 0); (0, 0, height)]%R [] [] [(0, 1, 2)]).

Definition capped_cylinder (cap : Z) (radius height : R) (resolution split : Z)
    : string + TriangleMesh :=
  if cap <? resolution then inl "GeometryConstructionError"
  else demo_cylinder radius height resolution split.

Definition demo_moebius (length_split width_split twists : Z)
    (raidus flatness width scale : R) : string + TriangleMesh :=
  if (length_split <? 1) || (width_split <? 1) then inl "GeometryConstructionError"
  else inr (mkMesh [(raidus, 0, 0); (0, raidus, 0); (0, 0, width)]%R [] [] [(0, 1, 2)]).

Definition demo_normals (m : TriangleMesh) : TriangleMesh :=
  mkMesh (vertices m) ((fun _ => (0, 0, 1)%R) <$> vertices m)
    (vertex_colors m) (triangles m).

(** A concrete mesh for running a single step. *)
Definition unit_triangle : TriangleMesh :=
  mkMesh [(0, 0, 0); (1, 0, 0); (0, 1, 0)]%R [(0, 0, 1); (0, 0, 1); (0, 0, 1)]%R []
    [(0, 1, 2)].

(** Two triples agree within [tol], component by component. *)
Definition within (tol : R) (u v : vec3) : Prop :=
  (Rabs (u.1.1 - v.1.1) <= tol /\ Rabs (u.1.2 - v.1.2) <= tol
   /\ Rabs (u.2 - v.2) <= tol)%R.

(** A model directory for running with_material: the mesh file and two of
    the five textures are there. *)
Definition monkey_dir_exists (path : string) : bool :=
  String.eqb path "test_data/monkey/monkey.obj"
  || String.eqb path "test_data/monkey/albedo.png"
  || String.eqb path "test_data/monkey/metallic.png".

(** The image stand-in records which file it was read from, by the length
    of its path. *)
Definition demo_read_image (path : string) : Image :=
  mkImage 1 1 3 [Z.of_nat (String.length path); 0; 0].

(** ** The colour schedule under rounding

    The schedule once more, over arithmetic that need not be exact: the
    operations, the sine, the cosine and the constant pi are those of some
    floating-point implementation, seen as functions on the reals. *)

Section RoundedArithmetic.

Variable pi_f : R.
Variables mul_f div_f add_f : R -> R -> R.
Variables sin_f cos_f : R -> R.

Definition rounded_color_schedule (k batch_size : Z) : vec3 :=
  let t := div_f (mul_f (IZR k) pi_f) (IZR batch_size) in
  (div_f (add_f 1 (sin_f t)) 2, div_f (add_f 1 (cos_f t)) 2, div_f t pi_f)%R.

End RoundedArithmetic.

(** The standard model of floating-point arithmetic with unit roundoff at
    most [u]: products, quotients and sums are exact up to a relative
    error [u]; the sine, the cosine and the constant pi are exact up to
    an absolute error [u]. *)
Definition standard_model (u pi_f : R) (mul_f div_f add_f : R -> R -> R)
    (sin_f cos_f : R -> R) : Prop :=
  (0 <= u <= 1 / 100000)%R
  /\ (Rabs (pi_f - PI) <= u)%R
  /\ (forall x y, Rabs (mul_f x y - x * y) <= u * Rabs (x * y))%R
  /\ (forall x y, y <> 0%R -> Rabs (div_f x y - x / y) <= u * Rabs (x / y))%R
  /\ (forall x y, Rabs (add_f x y - (x + y)) <= u * Rabs (x + y))%R
  /\ (forall x, Rabs (sin_f x - sin x) <= u)%R
  /\ (forall x, Rabs (cos_f x - cos x) <= u)%R.

(** ** The entry point

    More of os.path, for the model directory of the [__main__] block. *)

(** [p[:i]] with [i = p.rfind('/') + 1]: [p] up to its last slash. *)
Fixpoint head_of (p : string) : string :=
  match p with
  | EmptyString => EmptyString
  | String c rest =>
      if contains_slash rest then String c (head_of rest)
      else if Ascii.eqb c "/" then String c EmptyString else EmptyString
  end.

Fixpoint all_slashes (p : string) : bool :=
  match p with
  | EmptyString => true
  | String c rest => Ascii.eqb c "/" && all_slashes rest
  end.

(** [p.rstrip('/')] *)
Fixpoint rstrip_slashes (p : string) : string :=
  match p with
  | EmptyString => EmptyString
  | String c rest =>
      match rstrip_slashes rest with
      | EmptyString => if Ascii.eqb c "/" then EmptyString else String c EmptyString
      | r => String c r
      end
  end.

(** [os.path.dirname(p)] *)
Definition dirname (p : string) : string :=
  let head := head_of p in
  if negb (String.eqb head "") && negb (all_slashes head)
  then rstrip_slashes head else head.

(** [os.path.join(a, *ps)] *)
Definition path_join_all (a : string) (ps : list string) : string :=
  foldl path_join a ps.

(** What [os.path.join(a, b)] puts in front of a relative [b]. *)
Definition join_prefix (a : string) : string :=
  if String.eqb a "" || ends_with_slash a then a else a +:+ "/".

Section Main.

Variable create_box : R -> R -> R -> string + TriangleMesh.
Variable create_cylinder : R -> R -> Z -> Z -> string + TriangleMesh.
Variable compute_normals : TriangleMesh -> TriangleMesh.
Variable path_exists : string -> bool.
Variable read_image : string -> Image.
Variable read_triangle_mesh : string -> string + TriangleMesh.
Variable from_legacy : TriangleMesh -> TMesh.

(** [__file__] and [os.path.realpath], which depends on the file system. *)
Variable script_file : string.
Variable realpath : string -> string.

(** Line 168: the directory of the monkey model, relative to the script. *)
Definition main_model_dir : string :=
  path_join_all (dirname (realpath script_file))
    [".."; ".."; ".."; "test_data"; "monkey"].

(** Lines 164-170: the [__main__] block; [property_reference] runs with
    its default run name. *)
Definition main : M unit :=
  property_reference create_box create_cylinder compute_normals "property_reference";;
  let model_dir := main_model_dir in
  with_material path_exists read_image read_triangle_mesh from_legacy model_dir.

End Main.

(** ** What with_material looks at and hands over *)

(** The paths of lines 134 and 145. *)
Definition model_file (model_dir : string) : string :=
  path_join model_dir (basename model_dir +:+ ".obj").

Definition texture_file (model_dir texture : string) : string :=
  path_join model_dir (texture +:+ ".png").

(** The first of the four attributes that the mesh lacks, in the order of
    the dictionary literal of lines 154-160. *)
Definition first_missing (model : TMesh) : option string :=
  match vertex model !! "positions" with
  | None => Some "positions"
  | Some _ =>
      match vertex model !! "normals" with
      | None => Some "normals"
      | Some _ =>
          match vertex model !! "texture_uvs" with
          | None => Some "texture_uvs"
          | Some _ =>
              match triangle model !! "indices" with
              | None => Some "indices"
              | Some _ => None
              end
          end
      end
  end.

(** The dictionary of lines 154-160, for a mesh that has the four
    attributes. *)
Definition material_data (model : TMesh) (material : Material) : gmap string value :=
  match vertex model !! "positions", vertex model !! "normals",
        vertex model !! "texture_uvs", triangle model !! "indices" with
  | Some p, Some n, Some uv, Some i =>
      <["vertex_positions" := TensorV p]>
      (<["vertex_normals" := TensorV n]>
      (<["vertex_texture_uvs" := TensorV uv]>
      (<["triangle_indices" := TensorV i]>
      (<["material" := MaterialV material]> ∅))))
  | _, _, _, _ => ∅
  end.

(** A colour the painter accepts: three components between 0 and 1. *)
Definition valid_rgb (c : vec3) : Prop :=
  (0 <= c.1.1 <= 1 /\ 0 <= c.1.2 <= 1 /\ 0 <= c.2 <= 1)%R.

(** ** Stand-ins for the I/O library

    A mesh reader that knows one file, and a conversion that gives the
    four attributes with_material asks for. *)
Definition demo_read_triangle_mesh (known path : string) : string + TriangleMesh :=
  if String.eqb path known then inr unit_triangle else inl "MissingAssetError".

Definition demo_from_legacy (m : TriangleMesh) : TMesh :=
  let rows (vs : list vec3) : list (list R) := (fun v => [v.1.1; v.1.2; v.2]) <$> vs in
  mkTMesh
    (<["positions" := FloatTensor (rows (vertices m))]>
     (<["normals" := FloatTensor (rows (vertex_normals m))]>
      (<["texture_uvs" := FloatTensor ((fun _ => [0; 0]%R) <$> vertices m)]> ∅)))
    {["indices" := IntTensor ((fun t => [t.1.1; t.1.2; t.2]) <$> triangles m)]}.

Definition demo_script : string :=
  "/repo/examples/python/visualization/tensorboard_plugin/demo_pytorch.py".

Definition demo_monkey_obj : string :=
  "/repo/examples/python/visualization/tensorboard_plugin/../../../test_data/monkey/monkey.obj".

(** ** The steps a run of large_scale completes *)

Section Completed.

Variable create_cylinder : R -> R -> Z -> Z -> string + TriangleMesh.
Variable create_moebius : Z -> Z -> Z -> R -> R -> R -> R -> string + TriangleMesh.

(** The number of steps at the head of [steps] that raise nothing. *)
Fixpoint completed_steps (base_resolution : Z) (steps : list Z) : nat :=
  match steps with
  | [] => 0
  | s :: rest =>
      match step_error create_cylinder create_moebius base_resolution s with
      | Some _ => 0
      | None => S (completed_steps base_resolution rest)
      end
  end.

End Completed.

(** ** The model on small inputs *)

Example basename_monkey : basename "../../test_data/monkey" = "monkey".
Proof. reflexivity. Qed.

Example basename_trailing_slash : basename "test_data/monkey/" = "".
Proof. reflexivity. Qed.

Example path_join_plain : path_join "test_data/monkey" "albedo.png"
                          = "test_data/monkey/albedo.png".
Proof. reflexivity. Qed.

Example path_join_slash : path_join "test_data/monkey/" "albedo.png"
                          = "test_data/monkey/albedo.png".
Proof. reflexivity. Qed.

Example py_range_3 : py_range 3 = [0; 1; 2].
Proof. reflexivity. Qed.

Example py_range_negative : py_range (-2) = [].
Proof. reflexivity. Qed.

Example py_index_last : py_index [10; 20; 30] (-1) empty_state = (inr 30, empty_state).
Proof. reflexivity. Qed.

Example py_index_out_of_range :
  py_index [10; 20; 30] 3 empty_state = (inl IndexError, empty_state).
Proof. reflexivity. Qed.

Example split_counts_at_200 :
  length_split_of 200 = inr 700 /\ width_split_of 200 = inr 150.
Proof. split; reflexivity. Qed.

Example split_counts_truncate :
  length_split_of 3 = inr 10 /\ width_split_of 3 = inr 2
  /\ length_split_of (-3) = inr (-10) /\ width_split_of (-3) = inr (-2).
Proof. repeat split; reflexivity. Qed.

(** Beyond 53 bits the conversion of the int rounds: 2^53 + 1 becomes
    2^53, and the count is not the truncation of the exact product,
    which would be 31525197391593475. *)
Example split_counts_rounded :
  length_split_of (2 ^ 53 + 1) = inr 31525197391593472
  /\ Z.quot (7 * (2 ^ 53 + 1)) 2 = 31525197391593475.
Proof. split; reflexivity. Qed.

(** 2^1024 is too large for a float; 2^1023 is a float, 3.5 times it is
    infinite and 0.75 times it is not. *)
Example split_counts_overflow :
  length_split_of (2 ^ 1024) = inl OverflowError
  /\ length_split_of (2 ^ 1023) = inl OverflowError
  /\ width_split_of (2 ^ 1023) = inr (3 * 2 ^ 1021).
Proof. repeat split; vm_compute; reflexivity. Qed.

Example color_schedule_zero_batch :
  color_schedule 0 0 empty_state = (inl ZeroDivisionError, empty_state).
Proof. reflexivity. Qed.

Example mark_reused_step_0 (d : gmap string value) : mark_reused 0 d = d.
Proof. reflexivity. Qed.

Example mark_reused_step_2 (m : TriangleMesh) :
  mark_reused 2 (dict_of_batch [m]) !! "vertex_normals" = Some reuse_marker
  /\ mark_reused 2 (dict_of_batch [m]) !! "vertex_colors"
     = Some (Vec3Batch [vertex_colors m]).
Proof. split; reflexivity. Qed.

Example deepcopy_then_paint :
  (x ← deepcopy 0%nat; paint_uniform_color x red) (mkState [unit_triangle] [])
  = (inr tt, mkState [unit_triangle; paint red unit_triangle] []).
Proof. reflexivity. Qed.

(** ** Running the primitives *)

Lemma bind_run {A B : Type} (c : M A) (k : A -> M B) (st : state) :
  (c ≫= k) st =
  match c st with
  | (inr a, st') => k a st'
  | (inl e, st') => (inl e, st')
  end.
Proof. reflexivity. Qed.

Lemma bind_inr {A B : Type} (c : M A) (k : A -> M B) st a st' :
  c st = (inr a, st') -> (c ≫= k) st = k a st'.
Proof. intros H. rewrite bind_run, H. reflexivity. Qed.

Lemma py_index_run {A : Type} (l : list A) (i : Z) (x : A) st :
  0 <= i -> l !! Z.to_nat i = Some x -> py_index l i st = (inr x, st).
Proof.
  intros Hi Hx. unfold py_index.
  pose proof (lookup_lt_Some _ _ _ Hx) as Hlt.
  destruct (i <? 0) eqn:Hneg; [lia|].
  replace (0 <=? i) with true by (symmetry; apply Z.leb_le; lia).
  replace (i <? Z.of_nat (length l)) with true by (symmetry; apply Z.ltb_lt; lia).
  simpl. rewrite Hx. reflexivity.
Qed.

Lemma update_run (l : loc) f h lg m :
  h !! l = Some m ->
  update l f (mkState h lg) = (inr tt, mkState (<[l := f m]> h) lg).
Proof. intros H. unfold update. simpl. rewrite H. reflexivity. Qed.

Lemma deref_run (l : loc) h lg m :
  h !! l = Some m -> deref l (mkState h lg) = (inr m, mkState h lg).
Proof. intros H. unfold deref. simpl. rewrite H. reflexivity. Qed.

Lemma deref_all_run (ls : list loc) (ms : list TriangleMesh) h lg :
  Forall2 (fun l m => h !! l = Some m) ls ms ->
  deref_all ls (mkState h lg) = (inr ms, mkState h lg).
Proof.
  induction 1 as [|l m ls ms Hl _ IH]; [reflexivity|].
  simpl. rewrite (bind_inr _ _ _ _ _ (deref_run _ _ _ _ Hl)).
  rewrite (bind_inr _ _ _ _ _ IH). reflexivity.
Qed.

Lemma to_dict_batch_run (ls : list loc) (ms : list TriangleMesh) h lg :
  Forall2 (fun l m => h !! l = Some m) ls ms ->
  to_dict_batch ls (mkState h lg) = (inr (dict_of_batch ms), mkState h lg).
Proof.
  intros H. unfold to_dict_batch.
  rewrite (bind_inr _ _ _ _ _ (deref_all_run _ _ _ _ H)). reflexivity.
Qed.

Lemma paint_uniform_color_run (l : loc) c h lg m :
  h !! l = Some m ->
  paint_uniform_color l c (mkState h lg) = (inr tt, mkState (<[l := paint c m]> h) lg).
Proof. apply update_run. Qed.

(** Painting forgets the colour that was there: the frame of a step
    shows the colour of that step alone. *)
Lemma paint_paint c c' m : paint c (paint c' m) = paint c m.
Proof. reflexivity. Qed.

Lemma emitted_app {A : Type} (c : M A) st r st' calls :
  c st = (r, st') -> log st' = log st ++ calls -> emitted c st = calls.
Proof.
  intros Hc Hl. unfold emitted, final. rewrite Hc. simpl. rewrite Hl.
  apply drop_app_length.
Qed.

(** ** The loops of small_scale and property_reference *)

(** One track inside a step: paint, convert, hand over.  [post] is the
    identity in [small_scale] and the marker substitution in
    [property_reference]. *)
Lemma track_run (post : gmap string value -> gmap string value)
    (w : writer) (tag : string) (l : loc) (step : Z) (c : vec3) h lg m
    {B : Type} (k : M B) :
  h !! l = Some m -> 0 <= step -> palette !! Z.to_nat step = Some c ->
  (c ← py_index palette step;
   paint_uniform_color l c;;
   d ← to_dict_batch [l];
   add_3d w tag (post d) step None;; k) (mkState h lg) =
  k (mkState (<[l := paint c m]> h)
       (lg ++ [mkCall w tag (post (dict_of_batch [paint c m])) step None])).
Proof.
  intros Hl Hs Hp.
  rewrite (bind_inr _ _ _ _ _ (py_index_run _ _ _ _ Hs Hp)).
  rewrite (bind_inr _ _ _ _ _ (paint_uniform_color_run _ _ _ _ _ Hl)).
  assert (Hl' : <[l := paint c m]> h !! l = Some (paint c m)).
  { apply list_lookup_insert_eq. eapply lookup_lt_Some; eauto. }
  assert (HF : Forall2 (fun l0 m0 => <[l := paint c m]> h !! l0 = Some m0) [l] [paint c m]).
  { repeat constructor. exact Hl'. }
  rewrite (bind_inr _ _ _ _ _ (to_dict_batch_run _ _ _ _ HF)).
  rewrite bind_run. reflexivity.
Qed.

Lemma track_run_last (post : gmap string value -> gmap string value)
    (w : writer) (tag : string) (l : loc) (step : Z) (c : vec3) h lg m :
  h !! l = Some m -> 0 <= step -> palette !! Z.to_nat step = Some c ->
  (c ← py_index palette step;
   paint_uniform_color l c;;
   d ← to_dict_batch [l];
   add_3d w tag (post d) step None) (mkState h lg) =
  (inr tt, mkState (<[l := paint c m]> h)
             (lg ++ [mkCall w tag (post (dict_of_batch [paint c m])) step None])).
Proof.
  intros Hl Hs Hp.
  rewrite (bind_inr _ _ _ _ _ (py_index_run _ _ _ _ Hs Hp)).
  rewrite (bind_inr _ _ _ _ _ (paint_uniform_color_run _ _ _ _ _ Hl)).
  assert (Hl' : <[l := paint c m]> h !! l = Some (paint c m)).
  { apply list_lookup_insert_eq. eapply lookup_lt_Some; eauto. }
  assert (HF : Forall2 (fun l0 m0 => <[l := paint c m]> h !! l0 = Some m0) [l] [paint c m]).
  { repeat constructor. exact Hl'. }
  rewrite (bind_inr _ _ _ _ _ (to_dict_batch_run _ _ _ _ HF)).
  reflexivity.
Qed.

(** A step of either loop, for any substitution [post] applied to both
    dictionaries. *)
Lemma two_tracks_run (post : gmap string value -> gmap string value)
    w cube cyl step c h lg mc my :
  cube <> cyl -> h !! cube = Some mc -> h !! cyl = Some my ->
  0 <= step -> palette !! Z.to_nat step = Some c ->
  exists h',
    (c ← py_index palette step;
     paint_uniform_color cube c;;
     d ← to_dict_batch [cube];
     add_3d w "cube" (post d) step None;;
     c ← py_index palette step;
     paint_uniform_color cyl c;;
     d ← to_dict_batch [cyl];
     add_3d w "cylinder" (post d) step None) (mkState h lg) =
      (inr tt, mkState h'
         (lg ++ [mkCall w "cube" (post (dict_of_batch [paint c mc])) step None;
                 mkCall w "cylinder" (post (dict_of_batch [paint c my])) step None]))
    /\ h' !! cube = Some (paint c mc) /\ h' !! cyl = Some (paint c my).
Proof.
  intros Hne Hc Hy Hs Hp.
  exists (<[cyl := paint c my]> (<[cube := paint c mc]> h)).
  assert (Hy' : <[cube := paint c mc]> h !! cyl = Some my).
  { rewrite list_lookup_insert_ne; auto. }
  split; [|split].
  - rewrite (track_run post w "cube" cube step c h lg mc _ Hc Hs Hp).
    rewrite (track_run_last post w "cylinder" cyl step c _ _ my Hy' Hs Hp).
    rewrite <- app_assoc. reflexivity.
  - rewrite list_lookup_insert_ne by auto.
    apply list_lookup_insert_eq. eapply lookup_lt_Some; eauto.
  - apply list_lookup_insert_eq. rewrite length_insert. eapply lookup_lt_Some; eauto.
Qed.

Lemma small_scale_step_run w cube cyl step c h lg mc my :
  cube <> cyl -> h !! cube = Some mc -> h !! cyl = Some my ->
  0 <= step -> palette !! Z.to_nat step = Some c ->
  exists h',
    small_scale_step w cube cyl palette step (mkState h lg) =
      (inr tt, mkState h' (lg ++ [frame w "cube" (paint c mc) step;
                                  frame w "cylinder" (paint c my) step]))
    /\ h' !! cube = Some (paint c mc) /\ h' !! cyl = Some (paint c my).
Proof. apply (two_tracks_run (fun d => d)). Qed.

Lemma property_reference_step_run w cube cyl step c h lg mc my :
  cube <> cyl -> h !! cube = Some mc -> h !! cyl = Some my ->
  0 <= step -> palette !! Z.to_nat step = Some c ->
  exists h',
    property_reference_step w cube cyl palette step (mkState h lg) =
      (inr tt, mkState h' (lg ++ [marked_frame w "cube" (paint c mc) step;
                                  marked_frame w "cylinder" (paint c my) step]))
    /\ h' !! cube = Some (paint c mc) /\ h' !! cyl = Some (paint c my).
Proof. apply (two_tracks_run (mark_reused step)). Qed.


Section DemoFacts.

Variable create_box : R -> R -> R -> string + TriangleMesh.
Variable create_cylinder : R -> R -> Z -> Z -> string + TriangleMesh.
Variable compute_normals : TriangleMesh -> TriangleMesh.

Local Abbreviation small_scale := (small_scale create_box create_cylinder compute_normals).
Local Abbreviation property_reference :=
  (property_reference create_box create_cylinder compute_normals).
Local Abbreviation prologue := (prologue create_box create_cylinder compute_normals).

Lemma new_then_normals {B : Type} (r : string + TriangleMesh) (k : loc -> M B) st :
  (l ← (m ← lift_lib r; alloc m);
   compute_vertex_normals compute_normals l;; k l) st =
  match r with
  | inl kind => (inl (LibraryError kind), st)
  | inr m => k (length (heap st))
               (mkState (heap st ++ [compute_normals m]) (log st))
  end.
Proof.
  destruct r as [kind|m]; [reflexivity|].
  assert (H : (heap st ++ [m]) !! length (heap st) = Some m).
  { rewrite lookup_app_r by lia. rewrite Nat.sub_diag. reflexivity. }
  assert (E : (m0 ← lift_lib (inr m); alloc m0) st =
              (inr (length (heap st)), mkState (heap st ++ [m]) (log st))).
  { reflexivity. }
  rewrite (bind_inr _ _ _ _ _ E).
  unfold compute_vertex_normals.
  rewrite (bind_inr _ _ _ _ _ (update_run _ compute_normals _ _ _ H)).
  rewrite insert_app_r_alt by lia. rewrite Nat.sub_diag. reflexivity.
Qed.

Lemma prologue_run (K : loc -> loc -> M unit) st :
  prologue K st =
  match create_box 1 2 4 with
  | inl kind => (inl (LibraryError kind), st)
  | inr cube0 =>
      match create_cylinder 1 2 20 4 with
      | inl kind =>
          (inl (LibraryError kind),
           mkState (heap st ++ [compute_normals cube0]) (log st))
      | inr cyl0 =>
          K (length (heap st)) (S (length (heap st)))
            (mkState (heap st ++ [compute_normals cube0; compute_normals cyl0])
               (log st))
      end
  end.
Proof.
  unfold prologue, new_box, new_cylinder.
  rewrite new_then_normals.
  destruct (create_box 1 2 4) as [kind|cube0]; [reflexivity|].
  rewrite new_then_normals.
  destruct (create_cylinder 1 2 20 4) as [kind|cyl0]; [reflexivity|].
  simpl. rewrite length_app. simpl. rewrite Nat.add_1_r.
  rewrite <- app_assoc. reflexivity.
Qed.


(** Three rounds of a loop body that is known to behave like a step of
    the small demos; [mk] builds the frame the body hands over. *)
Lemma three_steps_run (body : Z -> M unit)
    (mk : string -> TriangleMesh -> Z -> add_3d_call) (cube cyl : loc) :
  (forall step c h lg mc my,
      h !! cube = Some mc -> h !! cyl = Some my ->
      0 <= step -> palette !! Z.to_nat step = Some c ->
      exists h',
        body step (mkState h lg) =
          (inr tt, mkState h' (lg ++ [mk "cube" (paint c mc) step;
                                      mk "cylinder" (paint c my) step]))
        /\ h' !! cube = Some (paint c mc) /\ h' !! cyl = Some (paint c my)) ->
  forall h lg mc my,
    h !! cube = Some mc -> h !! cyl = Some my ->
    exists h',
      for_each (py_range 3) body (mkState h lg) =
      (inr tt, mkState h'
         (lg ++ demo_frames mk mc my)).
Proof.
  intros Hstep h lg mc my Hc Hy.
  change (py_range 3) with [0; 1; 2]. cbn [for_each].
  destruct (Hstep 0 red h lg mc my Hc Hy ltac:(lia) eq_refl)
    as (h0 & E0 & Hc0 & Hy0).
  rewrite (bind_inr _ _ _ _ _ E0). clear E0.
  destruct (Hstep 1 green h0
              (lg ++ [mk "cube" (paint red mc) 0; mk "cylinder" (paint red my) 0])
              _ _ Hc0 Hy0 ltac:(lia) eq_refl) as (h1 & E1 & Hc1 & Hy1).
  rewrite (bind_inr _ _ _ _ _ E1). clear E1.
  destruct (Hstep 2 blue h1
              ((lg ++ [mk "cube" (paint red mc) 0; mk "cylinder" (paint red my) 0])
               ++ [mk "cube" (paint green (paint red mc)) 1;
                   mk "cylinder" (paint green (paint red my)) 1])
              _ _ Hc1 Hy1 ltac:(lia) eq_refl) as (h2 & E2 & _ & _).
  rewrite (bind_inr _ _ _ _ _ E2). clear E2.
  exists h2. rewrite <- !app_assoc. reflexivity.
Qed.

Lemma small_scale_loop_run w cube cyl h lg mc my :
  cube <> cyl -> h !! cube = Some mc -> h !! cyl = Some my ->
  exists h',
    for_each (py_range 3) (small_scale_step w cube cyl palette) (mkState h lg) =
    (inr tt, mkState h'
       (lg ++ demo_frames (frame w) mc my)).
Proof.
  intros Hne. apply (three_steps_run _ (frame w)).
  intros. apply small_scale_step_run; assumption.
Qed.

Lemma property_reference_loop_run w cube cyl h lg mc my :
  cube <> cyl -> h !! cube = Some mc -> h !! cyl = Some my ->
  exists h',
    for_each (py_range 3) (property_reference_step w cube cyl palette) (mkState h lg) =
    (inr tt, mkState h'
       (lg ++ demo_frames (marked_frame w) mc my)).
Proof.
  intros Hne. apply (three_steps_run _ (marked_frame w)).
  intros. apply property_reference_step_run; assumption.
Qed.


(** A run of a small demo whose loop [K] behaves as the two loops do. *)
Lemma small_demo_run (K : loc -> loc -> M unit)
    (mk : string -> TriangleMesh -> Z -> add_3d_call) st :
  (forall cube cyl h lg mc my,
      cube <> cyl -> h !! cube = Some mc -> h !! cyl = Some my ->
      exists h', K cube cyl (mkState h lg) =
                 (inr tt, mkState h' (lg ++ demo_frames mk mc my))) ->
  outcome (prologue K st) = small_demo_outcome create_box create_cylinder
  /\ emitted (prologue K) st =
       small_demo_frames create_box create_cylinder compute_normals mk.
Proof.
  intros HK. unfold small_demo_outcome, small_demo_frames.
  pose proof (prologue_run K st) as E.
  destruct (create_box 1 2 4) as [kind|cube0].
  { split; [unfold outcome; rewrite E; reflexivity|].
    apply (emitted_app _ _ _ _ _ E). simpl. rewrite app_nil_r. reflexivity. }
  destruct (create_cylinder 1 2 20 4) as [kind|cyl0].
  { split; [unfold outcome; rewrite E; reflexivity|].
    apply (emitted_app _ _ _ _ _ E). simpl. rewrite app_nil_r. reflexivity. }
  destruct (HK (length (heap st)) (S (length (heap st)))
              (heap st ++ [compute_normals cube0; compute_normals cyl0]) (log st)
              (compute_normals cube0) (compute_normals cyl0)) as (h' & EK).
  - lia.
  - rewrite lookup_app_r by lia. rewrite Nat.sub_diag. reflexivity.
  - rewrite lookup_app_r by lia.
    replace (S (length (heap st)) - length (heap st))%nat with 1%nat by lia.
    reflexivity.
  - rewrite EK in E. split; [unfold outcome; rewrite E; reflexivity|].
    apply (emitted_app _ _ _ _ _ E). reflexivity.
Qed.

Lemma small_scale_summary run_name st :
  outcome (small_scale run_name st) = small_demo_outcome create_box create_cylinder
  /\ emitted (small_scale run_name) st =
       small_demo_frames create_box create_cylinder compute_normals
         (frame (BASE_LOGDIR +:+ run_name)).
Proof.
  apply (small_demo_run
           (fun cube cyl => for_each (py_range 3)
              (small_scale_step (BASE_LOGDIR +:+ run_name) cube cyl palette))).
  intros. apply small_scale_loop_run; assumption.
Qed.

Lemma property_reference_summary run_name st :
  outcome (property_reference run_name st) =
    small_demo_outcome create_box create_cylinder
  /\ emitted (property_reference run_name) st =
       small_demo_frames create_box create_cylinder compute_normals
         (marked_frame (BASE_LOGDIR +:+ run_name)).
Proof.
  apply (small_demo_run
           (fun cube cyl => for_each (py_range 3)
              (property_reference_step (BASE_LOGDIR +:+ run_name) cube cyl palette))).
  intros. apply property_reference_loop_run; assumption.
Qed.

End DemoFacts.

(** ** The batch loop of large_scale *)

Lemma deepcopy_run (l : loc) h lg m :
  h !! l = Some m ->
  deepcopy l (mkState h lg) = (inr (length h), mkState (h ++ [m]) lg).
Proof.
  intros H. unfold deepcopy.
  rewrite (bind_inr _ _ _ _ _ (deref_run _ _ _ _ H)). reflexivity.
Qed.

Lemma lookup_snoc {A : Type} (l : list A) (x : A) : (l ++ [x]) !! length l = Some x.
Proof. rewrite lookup_app_r by lia. rewrite Nat.sub_diag. reflexivity. Qed.

Lemma insert_snoc {A : Type} (l : list A) (x y : A) :
  <[length l := y]> (l ++ [x]) = l ++ [y].
Proof. rewrite insert_app_r_alt by lia. rewrite Nat.sub_diag. reflexivity. Qed.

Lemma batch_round_run cylinder moebius colors mc mm cl ml h lg k c :
  length cl = k -> length ml = k -> colors !! k = Some c ->
  h !! cylinder = Some mc -> h !! moebius = Some mm ->
  batch_round cylinder moebius colors (cl, ml) (Z.of_nat k) (mkState h lg) =
  (inr (cl ++ [length h], ml ++ [S (length h)]),
   mkState (h ++ [paint c mc; paint c mm]) lg).
Proof.
  intros Hcl Hml Hc Hy Hm. unfold batch_round.
  pose proof (Nat2Z.is_nonneg k) as Hk.
  assert (Hc' : colors !! Z.to_nat (Z.of_nat k) = Some c) by (rewrite Nat2Z.id; exact Hc).
  rewrite (bind_inr _ _ _ _ _ (deepcopy_run _ _ _ _ Hy)).
  assert (Hx : (cl ++ [length h]) !! Z.to_nat (Z.of_nat k) = Some (length h)).
  { rewrite Nat2Z.id, <- Hcl. apply lookup_snoc. }
  rewrite (bind_inr _ _ _ _ _ (py_index_run _ _ _ _ Hk Hx)).
  rewrite (bind_inr _ _ _ _ _ (py_index_run _ _ _ _ Hk Hc')).
  rewrite (bind_inr _ _ _ _ _ (paint_uniform_color_run _ c _ _ _ (lookup_snoc h mc))).
  rewrite insert_snoc.
  assert (Hm' : (h ++ [paint c mc]) !! moebius = Some mm).
  { rewrite lookup_app_l; [exact Hm|]. eapply lookup_lt_Some; eauto. }
  rewrite (bind_inr _ _ _ _ _ (deepcopy_run _ _ _ _ Hm')).
  assert (Hx' : (ml ++ [length (h ++ [paint c mc])]) !! Z.to_nat (Z.of_nat k)
                = Some (length (h ++ [paint c mc]))).
  { rewrite Nat2Z.id, <- Hml. apply lookup_snoc. }
  rewrite (bind_inr _ _ _ _ _ (py_index_run _ _ _ _ Hk Hx')).
  rewrite (bind_inr _ _ _ _ _ (py_index_run _ _ _ _ Hk Hc')).
  rewrite (bind_inr _ _ _ _ _
             (paint_uniform_color_run _ c _ _ _ (lookup_snoc (h ++ [paint c mc]) mm))).
  rewrite insert_snoc.
  rewrite length_app. simpl. rewrite Nat.add_1_r, <- app_assoc. reflexivity.
Qed.

Lemma batch_loop_run cylinder moebius colors mc mm :
  forall r k cl ml h lg,
    length cl = k -> length ml = k -> (k + r <= length colors)%nat ->
    h !! cylinder = Some mc -> h !! moebius = Some mm ->
    for_fold (Z.of_nat <$> seq k r) (cl, ml)
      (batch_round cylinder moebius colors) (mkState h lg) =
    (inr (cl ++ (batch_refs (length h) r).1, ml ++ (batch_refs (length h) r).2),
     mkState (h ++ batch_objects mc mm (take r (drop k colors))) lg).
Proof.
  unfold batch_refs. induction r as [|r IH]; intros k cl ml h lg Hcl Hml Hle Hy Hm.
  - simpl. rewrite !app_nil_r. reflexivity.
  - destruct (lookup_lt_is_Some_2 colors k ltac:(lia)) as [c Hc].
    cbn [seq fmap list_fmap for_fold].
    rewrite (bind_inr _ _ _ _ _
               (batch_round_run _ _ _ _ _ _ _ _ lg _ _ Hcl Hml Hc Hy Hm)).
    assert (Hh : h !! cylinder = Some mc /\ h !! moebius = Some mm) by auto.
    rewrite (IH (S k) _ _ (h ++ [paint c mc; paint c mm]) lg).
    + rewrite (drop_S _ _ _ Hc). cbn [take batch_objects flat_map].
      rewrite length_app. cbn [length].
      rewrite <- !(fmap_S_seq 0 r), <- !list_fmap_compose.
      rewrite <- !app_assoc. cbn [app].
      cbn [fst snd].
      assert (E1 : (fun i : nat => (length h + 2 + 2 * i)%nat) <$> seq 0 r =
                   (fun i : nat => (length h + 2 * i)%nat) ∘ S <$> seq 0 r).
      { apply list_fmap_ext. intros ? i ?. simpl. lia. }
      assert (E2 : (fun i : nat => (length h + 2 + 2 * i + 1)%nat) <$> seq 0 r =
                   (fun i : nat => (length h + 2 * i + 1)%nat) ∘ S <$> seq 0 r).
      { apply list_fmap_ext. intros ? i ?. simpl. lia. }
      rewrite E1, E2.
      replace (length h + 2 * 0)%nat with (length h) by lia.
      replace (length h + 1)%nat with (S (length h)) by lia.
      reflexivity.
    + rewrite length_app. simpl. lia.
    + rewrite length_app. simpl. lia.
    + lia.
    + rewrite lookup_app_l; [exact Hy|]. eapply lookup_lt_Some; eauto.
    + rewrite lookup_app_l; [exact Hm|]. eapply lookup_lt_Some; eauto.
Qed.

Lemma batch_objects_lookup mc mm (cs : list vec3) (i : nat) :
  batch_objects mc mm cs !! (2 * i)%nat = (fun c => paint c mc) <$> cs !! i
  /\ batch_objects mc mm cs !! (2 * i + 1)%nat = (fun c => paint c mm) <$> cs !! i.
Proof.
  revert i. induction cs as [|c cs IH]; intros i; [split; reflexivity|].
  destruct i as [|i]; [split; reflexivity|].
  replace (2 * S i)%nat with (S (S (2 * i))) by lia.
  replace (S (S (2 * i)) + 1)%nat with (S (S (2 * i + 1))) by lia.
  simpl. exact (IH i).
Qed.

Lemma batch_refs_valid (h : list TriangleMesh) mc mm (cs : list vec3) :
  let h' := h ++ batch_objects mc mm cs in
  Forall2 (fun l m => h' !! l = Some m)
    (batch_refs (length h) (length cs)).1 ((fun c => paint c mc) <$> cs)
  /\ Forall2 (fun l m => h' !! l = Some m)
       (batch_refs (length h) (length cs)).2 ((fun c => paint c mm) <$> cs).
Proof.
  intros h'. unfold batch_refs. cbn [fst snd].
  split; apply Forall2_same_length_lookup_2.
  - rewrite !length_fmap, length_seq. reflexivity.
  - intros i l m Hl Hm. apply list_lookup_fmap_Some in Hl as (j & -> & Hj).
    apply lookup_seq in Hj as [-> _]. simpl in *. subst h'.
    rewrite lookup_app_r by lia.
    replace (length h + (i + (i + 0)) - length h)%nat with (2 * i)%nat by lia.
    rewrite (proj1 (batch_objects_lookup mc mm cs i)), <- list_lookup_fmap. exact Hm.
  - rewrite !length_fmap, length_seq. reflexivity.
  - intros i l m Hl Hm. apply list_lookup_fmap_Some in Hl as (j & -> & Hj).
    apply lookup_seq in Hj as [-> _]. simpl in *. subst h'.
    rewrite lookup_app_r by lia.
    replace (length h + (i + (i + 0)) + 1 - length h)%nat with (2 * i + 1)%nat by lia.
    rewrite (proj2 (batch_objects_lookup mc mm cs i)), <- list_lookup_fmap. exact Hm.
Qed.

(** The whole batch loop, from the two empty lists. *)
Lemma batch_loop_from_empty cylinder moebius colors batch_size mc mm h lg :
  length colors = Z.to_nat batch_size ->
  h !! cylinder = Some mc -> h !! moebius = Some mm ->
  for_fold (py_range batch_size) ([], [])
    (batch_round cylinder moebius colors) (mkState h lg) =
  (inr (batch_refs (length h) (length colors)),
   mkState (h ++ batch_objects mc mm colors) lg).
Proof.
  intros Hlen Hy Hm. unfold py_range. rewrite <- Hlen.
  rewrite (batch_loop_run cylinder moebius colors mc mm (length colors) 0 [] []
             h lg eq_refl eq_refl ltac:(simpl; lia) Hy Hm).
  rewrite drop_0, firstn_all. cbn [app].
  rewrite <- surjective_pairing. reflexivity.
Qed.

(** ** The colours of large_scale *)

Lemma color_schedule_run (k n : Z) st :
  n <> 0 -> color_schedule k n st = (inr (spec_color_schedule k n), st).
Proof.
  intros Hn. unfold color_schedule, py_truediv.
  destruct (n =? 0) eqn:E; [apply Z.eqb_eq in E; contradiction|].
  reflexivity.
Qed.

Lemma build_colors_loop (n : Z) st :
  forall (ks : list Z) (acc : list vec3),
    (ks <> [] -> n <> 0) ->
    for_fold ks acc (fun colors k =>
      c ← color_schedule k n; mret (colors ++ [c])) st =
    (inr (acc ++ ((fun k => spec_color_schedule k n) <$> ks)), st).
Proof.
  induction ks as [|k ks IH]; intros acc Hn.
  - simpl. rewrite app_nil_r. reflexivity.
  - cbn [for_fold].
    assert (Hn' : n <> 0) by (apply Hn; discriminate).
    rewrite bind_run, bind_run, (color_schedule_run k n st Hn').
    cbn [mret M_ret]. rewrite IH by (intros _; exact Hn').
    rewrite <- app_assoc. reflexivity.
Qed.

Lemma build_colors_run (batch_size : Z) st :
  build_colors batch_size st = (inr (colors_of batch_size), st).
Proof.
  unfold build_colors, colors_of. rewrite build_colors_loop; [reflexivity|].
  intros Hne ->. apply Hne. reflexivity.
Qed.

Lemma length_colors_of (batch_size : Z) :
  length (colors_of batch_size) = Z.to_nat batch_size.
Proof. unfold colors_of, py_range. rewrite !length_fmap, length_seq. reflexivity. Qed.

(** ** The step loop of large_scale *)

Lemma lift_exn_run {A B : Type} (r : exn + A) (k : A -> M B) (st : state) :
  (x ← lift_exn r; k x) st =
    match r with
    | inl e => (inl e, st)
    | inr a => k a st
    end.
Proof. destruct r; reflexivity. Qed.

Lemma round_53_small (m e : Z) : Z.abs m < 2 ^ 53 -> round_53 m e = (m, e).
Proof.
  intros H. unfold round_53.
  assert (Hb : Z.log2 (Z.abs m) + 1 <= 53).
  { destruct (Z.eq_dec (Z.abs m) 0) as [->|Hz]; [simpl; lia|].
    assert (Z.log2 (Z.abs m) < 53); [|lia].
    apply Z.log2_lt_pow2; lia. }
  apply Z.leb_le in Hb. rewrite Hb. reflexivity.
Qed.

Lemma overflows_small (m e : Z) :
  Z.abs m < 2 ^ 53 -> e <= 0 -> overflows (m, e) = false.
Proof.
  intros Hm He. unfold overflows. cbn [fst snd]. apply Z.leb_gt.
  assert (0 <= 2 ^ e <= 1).
  { destruct (Z.eq_dec e 0) as [->|Hn]; [simpl; lia|].
    rewrite Z.pow_neg_r by lia. lia. }
  assert (2 ^ 53 < 2 ^ 1024) by (apply Z.pow_lt_mono_r; lia).
  nia.
Qed.

(** As long as the numerator of the product fits 53 bits, nothing is
    rounded and the count is the truncated exact product. *)
Lemma int_of_product_exact (c k n : Z) :
  0 < c -> 0 < k -> Z.abs (c * n) < 2 ^ 53 ->
  int_of_product (c, - k) n = inr (Z.quot (c * n) (2 ^ k)).
Proof.
  intros Hc Hk Hn.
  assert (Hn' : Z.abs n < 2 ^ 53) by nia.
  unfold int_of_product, float_of_int.
  rewrite (round_53_small n 0 Hn'), (overflows_small n 0 Hn') by lia.
  unfold float_mul. cbn [fst snd].
  rewrite (round_53_small (c * n) (- k + 0) Hn),
    (overflows_small (c * n) (- k + 0) Hn) by lia.
  unfold int_of_float.
  destruct (Z.leb_spec 0 (- k + 0)) as [H|_]; [lia|].
  replace (- (- k + 0)) with k by lia. reflexivity.
Qed.

Lemma split_counts_exact (resolution : Z) :
  Z.abs (7 * resolution) < 2 ^ 53 ->
  length_split_of resolution = inr (Z.quot (7 * resolution) 2)
  /\ width_split_of resolution = inr (Z.quot (3 * resolution) 4).
Proof.
  intros H. unfold length_split_of, width_split_of. split.
  - apply (int_of_product_exact 7 1); lia.
  - apply (int_of_product_exact 3 2); lia.
Qed.

Section LargeFacts.

Variable create_cylinder : R -> R -> Z -> Z -> string + TriangleMesh.
Variable create_moebius : Z -> Z -> Z -> R -> R -> R -> R -> string + TriangleMesh.
Variable compute_normals : TriangleMesh -> TriangleMesh.

Local Abbreviation run_large :=
  (large_scale create_cylinder create_moebius compute_normals).
Local Abbreviation run_step :=
  (large_scale_step create_cylinder create_moebius compute_normals).
Local Abbreviation error_of_step := (step_error create_cylinder create_moebius).
Local Abbreviation frames_of_step :=
  (step_frames create_cylinder create_moebius compute_normals).
Local Abbreviation loop_outcome_of := (loop_outcome create_cylinder create_moebius).
Local Abbreviation loop_frames_of :=
  (loop_frames create_cylinder create_moebius compute_normals).

Lemma large_scale_step_run w batch_size base_resolution colors step st :
  length colors = Z.to_nat batch_size ->
  outcome (run_step w batch_size base_resolution colors step st) =
    match error_of_step base_resolution step with
    | Some e => inl e
    | None => inr tt
    end
  /\ log (final (run_step w batch_size base_resolution colors step st)) =
       log st ++ match error_of_step base_resolution step with
                 | Some _ => []
                 | None => frames_of_step w batch_size base_resolution colors step
                 end.
Proof.
  intros Hlen.
  unfold large_scale_step, step_error, step_frames,
    step_cylinder, step_moebius, step_splits, new_cylinder, new_moebius.
  set (res := base_resolution * (step + 1)).
  rewrite new_then_normals.
  destruct (create_cylinder 1 2 res 4) as [kind|c0];
    [split; [reflexivity|simpl; rewrite app_nil_r; reflexivity]|].
  rewrite lift_exn_run.
  destruct (length_split_of res) as [e|length_split];
    [split; [reflexivity|simpl; rewrite app_nil_r; reflexivity]|].
  rewrite lift_exn_run.
  destruct (width_split_of res) as [e|width_split];
    [split; [reflexivity|simpl; rewrite app_nil_r; reflexivity]|].
  rewrite new_then_normals.
  destruct (create_moebius length_split width_split 1 1 1 1 1) as [kind|m0];
    [split; [reflexivity|simpl; rewrite app_nil_r; reflexivity]|].
  set (mc := compute_normals c0). set (mm := compute_normals m0).
  cbn [heap log].
  set (h := (heap st ++ [mc]) ++ [mm]).
  assert (Hy : h !! length (heap st) = Some mc).
  { subst h. rewrite lookup_app_l by (rewrite length_app; simpl; lia).
    apply lookup_snoc. }
  assert (Hm : h !! length (heap st ++ [mc]) = Some mm).
  { subst h. apply lookup_snoc. }
  rewrite (bind_inr _ _ _ _ _
             (batch_loop_from_empty _ _ colors batch_size mc mm h (log st) Hlen Hy Hm)).
  destruct (batch_refs_valid h mc mm colors) as [Fc Fm].
  destruct (batch_refs (length h) (length colors)) as [cl ml]. cbn [fst snd] in *.
  unfold add_3d.
  rewrite (bind_inr _ _ _ _ _ (to_dict_batch_run _ _ _ _ Fc)).
  rewrite bind_run. cbn beta iota. cbn [heap log].
  rewrite (bind_inr _ _ _ _ _ (to_dict_batch_run _ _ _ _ Fm)).
  unfold outcome, final. cbn [fst snd heap log].
  rewrite <- app_assoc. split; reflexivity.
Qed.

Lemma large_scale_loop_run w batch_size base_resolution colors :
  length colors = Z.to_nat batch_size ->
  forall steps st,
    outcome (for_each steps (run_step w batch_size base_resolution colors) st)
      = loop_outcome_of base_resolution steps
    /\ log (final (for_each steps
                     (run_step w batch_size base_resolution colors) st))
       = log st ++ loop_frames_of w batch_size base_resolution colors steps.
Proof.
  intros Hlen. induction steps as [|s steps IH]; intros st.
  - simpl. rewrite app_nil_r. split; reflexivity.
  - cbn [for_each loop_outcome loop_frames].
    destruct (large_scale_step_run w batch_size base_resolution colors s st Hlen)
      as [Ho Hl].
    rewrite bind_run. unfold outcome, final in *.
    destruct (run_step w batch_size base_resolution colors s st)
      as [[e|[]] st1]; cbn [fst snd] in *.
    + destruct (error_of_step base_resolution s); [|discriminate].
      split; [congruence|exact Hl].
    + destruct (error_of_step base_resolution s); [discriminate|].
      destruct (IH st1) as [Ho' Hl']. split; [exact Ho'|].
      rewrite Hl', Hl, <- app_assoc. reflexivity.
Qed.

Lemma large_scale_summary n_steps batch_size base_resolution run_name st :
  outcome (run_large n_steps batch_size base_resolution run_name st)
    = loop_outcome_of base_resolution (py_range n_steps)
  /\ emitted (run_large n_steps batch_size base_resolution run_name) st
     = loop_frames_of (BASE_LOGDIR +:+ run_name) batch_size base_resolution
         (colors_of batch_size) (py_range n_steps).
Proof.
  destruct (large_scale_loop_run (BASE_LOGDIR +:+ run_name) batch_size base_resolution
              (colors_of batch_size) (length_colors_of batch_size)
              (py_range n_steps) st) as [Ho Hl].
  assert (E : run_large n_steps batch_size base_resolution run_name st =
              for_each (py_range n_steps)
                (run_step (BASE_LOGDIR +:+ run_name) batch_size
                   base_resolution (colors_of batch_size)) st).
  { unfold large_scale, SummaryWriter.
    rewrite bind_run. cbn [mret M_ret].
    rewrite (bind_inr _ _ _ _ _ (build_colors_run batch_size st)). reflexivity. }
  split.
  - rewrite E. exact Ho.
  - unfold emitted. rewrite E, Hl. apply drop_app_length.
Qed.

End LargeFacts.

(** ** The small demos: what reaches the sink *)

Lemma frame_shows w tag m step c : shows (frame w tag (paint c m) step) tag step c.
Proof.
  split; [reflexivity|]. split; [reflexivity|].
  exists (vertices m), ((fun _ => c) <$> vertices m).
  split; [reflexivity|]. split; [reflexivity|].
  split; [apply length_fmap|].
  apply Forall_fmap, Forall_forall. intros; reflexivity.
Qed.

Section SmallClaims.

Variable create_box : R -> R -> R -> string + TriangleMesh.
Variable create_cylinder : R -> R -> Z -> Z -> string + TriangleMesh.
Variable compute_normals : TriangleMesh -> TriangleMesh.

Local Abbreviation run_small := (small_scale create_box create_cylinder compute_normals).
Local Abbreviation run_reference :=
  (property_reference create_box create_cylinder compute_normals).

(** C3: when both generators succeed, small_scale (3 steps, one mesh
    per frame, tracks cube and cylinder, palette red, green, blue) makes
    exactly six add_3d calls: steps 0, 1, 2 in this order, the cube
    before the cylinder within a step, both painted red at step 0,
    green at step 1 and blue at step 2. *)
Theorem small_scale_six_frames (run_name : string) (st : state)
    (cube0 cyl0 : TriangleMesh) :
  create_box 1 2 4 = inr cube0 ->
  create_cylinder 1 2 20 4 = inr cyl0 ->
  let w := BASE_LOGDIR +:+ run_name in
  let cube := compute_normals cube0 in
  let cylinder := compute_normals cyl0 in
  outcome (run_small run_name st) = inr tt
  /\ emitted (run_small run_name) st =
       [frame w "cube" (paint (1, 0, 0)%R cube) 0;
        frame w "cylinder" (paint (1, 0, 0)%R cylinder) 0;
        frame w "cube" (paint (0, 1, 0)%R cube) 1;
        frame w "cylinder" (paint (0, 1, 0)%R cylinder) 1;
        frame w "cube" (paint (0, 0, 1)%R cube) 2;
        frame w "cylinder" (paint (0, 0, 1)%R cylinder) 2]
  /\ length (emitted (run_small run_name) st) = 6%nat
  /\ Forall2 (fun call '(tag, step, color) => shows call tag step color)
       (emitted (run_small run_name) st)
       [("cube", 0, (1, 0, 0)%R); ("cylinder", 0, (1, 0, 0)%R);
        ("cube", 1, (0, 1, 0)%R); ("cylinder", 1, (0, 1, 0)%R);
        ("cube", 2, (0, 0, 1)%R); ("cylinder", 2, (0, 0, 1)%R)].
Proof.
  intros Hb Hc w cube cylinder.
  destruct (small_scale_summary create_box create_cylinder compute_normals
              run_name st) as [Ho He].
  unfold small_demo_outcome, small_demo_frames in *. rewrite Hb, Hc in *.
  rewrite He. split; [exact Ho|]. split; [reflexivity|]. split; [reflexivity|].
  unfold demo_frames. repeat constructor; apply frame_shows.
Qed.

(** C2: in property_reference, when both generators succeed, the frames
    of step 0 are handed over as to_dict_batch made them, with concrete
    vertex_positions and vertex_normals, and in the frames of every later
    step both keys hold the int 0; this for the cube and for the
    cylinder. *)
Theorem property_reference_marks (run_name : string) (st : state)
    (cube0 cyl0 : TriangleMesh) :
  create_box 1 2 4 = inr cube0 ->
  create_cylinder 1 2 20 4 = inr cyl0 ->
  let w := BASE_LOGDIR +:+ run_name in
  let cube := compute_normals cube0 in
  let cylinder := compute_normals cyl0 in
  let marked (d : gmap string value) :=
    <["vertex_normals" := PyInt 0]> (<["vertex_positions" := PyInt 0]> d) in
  emitted (run_reference run_name) st =
    [mkCall w "cube" (dict_of_batch [paint (1, 0, 0)%R cube]) 0 None;
     mkCall w "cylinder" (dict_of_batch [paint (1, 0, 0)%R cylinder]) 0 None;
     mkCall w "cube" (marked (dict_of_batch [paint (0, 1, 0)%R cube])) 1 None;
     mkCall w "cylinder" (marked (dict_of_batch [paint (0, 1, 0)%R cylinder])) 1 None;
     mkCall w "cube" (marked (dict_of_batch [paint (0, 0, 1)%R cube])) 2 None;
     mkCall w "cylinder" (marked (dict_of_batch [paint (0, 0, 1)%R cylinder])) 2 None]
  /\ forall call, call ∈ emitted (run_reference run_name) st ->
       (0 < call_step call ->
          call_data call !! "vertex_positions" = Some (PyInt 0)
          /\ call_data call !! "vertex_normals" = Some (PyInt 0))
       /\ (call_step call = 0 ->
            exists m,
              call_data call = dict_of_batch [m]
              /\ call_data call !! "vertex_positions" = Some (Vec3Batch [vertices m])
              /\ call_data call !! "vertex_normals" = Some (Vec3Batch [vertex_normals m])).
Proof.
  intros Hb Hc w cube cylinder marked.
  destruct (property_reference_summary create_box create_cylinder compute_normals
              run_name st) as [_ He].
  unfold small_demo_frames in He. rewrite Hb, Hc in He. rewrite He.
  split; [reflexivity|].
  intros call Hin. unfold demo_frames in Hin.
  repeat (apply elem_of_cons in Hin as [->|Hin]);
    [| | | | | |apply elem_of_nil in Hin; contradiction];
    (split; [intros Hs; try (simpl in Hs; lia); split; reflexivity
            |intros Hs; try (simpl in Hs; discriminate);
             eexists; repeat split; reflexivity]).
Qed.


Lemma small_demo_outcome_cases :
  small_demo_outcome create_box create_cylinder = inr tt
  \/ exists kind, small_demo_outcome create_box create_cylinder = inl (LibraryError kind).
Proof.
  unfold small_demo_outcome.
  destruct (create_box 1 2 4) as [?|cube0]; [right; eauto|].
  destruct (create_cylinder 1 2 20 4) as [?|cyl0]; [right; eauto|left; reflexivity].
Qed.




End SmallClaims.


Lemma small_scale_six_frames_witness :
  demo_box 1 2 4 = inr (mkMesh [(0, 0, 0); (1, 0, 0); (0, 2, 0); (0, 0, 4)]%R [] []
                          [(0, 1, 2); (0, 1, 3); (0, 2, 3); (1, 2, 3)])
  /\ length (emitted (small_scale demo_box demo_cylinder demo_normals "small_scale")
               empty_state) = 6%nat.
Proof.
  split; [reflexivity|].
  apply (small_scale_six_frames demo_box demo_cylinder demo_normals
           "small_scale" empty_state _ _ eq_refl eq_refl).
Defined.

Lemma property_reference_marks_witness :
  demo_cylinder 1 2 20 4 = inr (mkMesh [(0, 0, 0); (1, 0, 0); (0, 0, 2)]%R [] [] [(0, 1, 2)])
  /\ forall call,
       call ∈ emitted (property_reference demo_box demo_cylinder demo_normals
                         "property_reference") empty_state ->
       0 < call_step call ->
       call_data call !! "vertex_positions" = Some (PyInt 0)
       /\ call_data call !! "vertex_normals" = Some (PyInt 0).
Proof.
  split; [reflexivity|]. intros call Hin.
  apply (property_reference_marks demo_box demo_cylinder demo_normals
           "property_reference" empty_state _ _ eq_refl eq_refl).
  exact Hin.
Defined.




(** ** large_scale: what reaches the sink *)

Lemma elem_of_py_range (x n : Z) : x ∈ py_range n <-> 0 <= x < n.
Proof.
  unfold py_range. rewrite list_elem_of_fmap. split.
  - intros (i & -> & Hi). apply elem_of_seq in Hi. lia.
  - intros Hx. exists (Z.to_nat x). split; [lia|]. apply elem_of_seq. lia.
Qed.

Lemma py_range_split (s n : Z) :
  0 <= s < n -> exists rest, py_range n = py_range s ++ s :: rest.
Proof.
  intros Hs. unfold py_range.
  replace (Z.to_nat n) with (Z.to_nat s + S (Z.to_nat n - S (Z.to_nat s)))%nat by lia.
  rewrite seq_app, fmap_app. cbn [seq fmap list_fmap].
  rewrite Nat.add_0_l, Z2Nat.id by lia. eauto.
Qed.

Lemma length_py_range (n : Z) : length (py_range n) = Z.to_nat n.
Proof. unfold py_range. rewrite length_fmap, length_seq. reflexivity. Qed.

Lemma dict_of_batch_lookup (ms : list TriangleMesh) (key : string) (v : value) :
  dict_of_batch ms !! key = Some v -> batch_length v = Some (length ms).
Proof.
  unfold dict_of_batch. intros H.
  repeat (apply lookup_insert_Some in H as [[_ <-]|[_ H]];
          [simpl; rewrite length_fmap; reflexivity|]).
  rewrite lookup_empty in H. discriminate.
Qed.

Section LargeClaims.

Variable create_cylinder : R -> R -> Z -> Z -> string + TriangleMesh.
Variable create_moebius : Z -> Z -> Z -> R -> R -> R -> R -> string + TriangleMesh.
Variable compute_normals : TriangleMesh -> TriangleMesh.

Local Abbreviation run_large :=
  (large_scale create_cylinder create_moebius compute_normals).
Local Abbreviation error_of_step := (step_error create_cylinder create_moebius).
Local Abbreviation frames_of_step :=
  (step_frames create_cylinder create_moebius compute_normals).
Local Abbreviation loop_outcome_of := (loop_outcome create_cylinder create_moebius).
Local Abbreviation loop_frames_of :=
  (loop_frames create_cylinder create_moebius compute_normals).

Lemma step_frames_ok w batch_size base_resolution colors step :
  error_of_step base_resolution step = None ->
  exists mc mm,
    frames_of_step w batch_size base_resolution colors step =
      [batch_frame w "cylinder" mc colors step batch_size;
       batch_frame w "moebius" mm colors step batch_size].
Proof.
  unfold step_error, step_frames.
  destruct (step_cylinder _ _ _) as [?|c0]; [discriminate|].
  destruct (step_moebius _ _ _) as [?|m0]; [discriminate|]. eauto.
Qed.

Lemma loop_all_ok w batch_size base_resolution colors (steps : list Z) :
  (forall s, s ∈ steps -> error_of_step base_resolution s = None) ->
  loop_outcome_of base_resolution steps = inr tt
  /\ loop_frames_of w batch_size base_resolution colors steps =
       flat_map (frames_of_step w batch_size base_resolution colors) steps.
Proof.
  induction steps as [|s steps IH]; intros Hok; [split; reflexivity|].
  cbn [loop_outcome loop_frames flat_map].
  rewrite (Hok s) by (left).
  destruct IH as [Ho Hf]; [intros; apply Hok; right; assumption|].
  rewrite Ho, Hf. split; reflexivity.
Qed.

Lemma loop_stops w batch_size base_resolution colors (pre post : list Z) s e :
  (forall s', s' ∈ pre -> error_of_step base_resolution s' = None) ->
  error_of_step base_resolution s = Some e ->
  loop_outcome_of base_resolution (pre ++ s :: post) = inl e
  /\ loop_frames_of w batch_size base_resolution colors (pre ++ s :: post) =
       flat_map (frames_of_step w batch_size base_resolution colors) pre.
Proof.
  intros Hok Hs. induction pre as [|p pre IH].
  - cbn [app loop_outcome loop_frames flat_map]. rewrite Hs. split; reflexivity.
  - cbn [app loop_outcome loop_frames flat_map].
    rewrite (Hok p) by (left).
    destruct IH as [Ho Hf]; [intros; apply Hok; right; assumption|].
    rewrite Ho, Hf. split; reflexivity.
Qed.

Lemma int_of_product_error (c : binary64) (n : Z) (e : exn) :
  int_of_product c n = inl e -> e = OverflowError.
Proof.
  unfold int_of_product, float_of_int, float_mul, int_of_float.
  destruct (overflows (round_53 n 0)); [congruence|].
  destruct (overflows (round_53 _ _)); [congruence|].
  destruct (round_53 _ _). discriminate.
Qed.

(** What a step can raise: the error of a generator, its kind intact,
    or the overflow of a split count. *)
Lemma step_error_cases base_resolution step e :
  error_of_step base_resolution step = Some e ->
  (exists kind,
     e = LibraryError kind
     /\ (create_cylinder 1 2 (base_resolution * (step + 1)) 4 = inl kind
         \/ exists length_split width_split,
              length_split_of (base_resolution * (step + 1)) = inr length_split
              /\ width_split_of (base_resolution * (step + 1)) = inr width_split
              /\ create_moebius length_split width_split 1 1 1 1 1 = inl kind))
  \/ (e = OverflowError
      /\ (length_split_of (base_resolution * (step + 1)) = inl OverflowError
          \/ width_split_of (base_resolution * (step + 1)) = inl OverflowError)).
Proof.
  unfold step_error, step_moebius, step_splits, step_cylinder,
    length_split_of, width_split_of.
  destruct (create_cylinder 1 2 _ 4) as [kind|c0].
  { intros [= <-]. left. eauto. }
  destruct (int_of_product (7, -1) _) as [e1|length_split] eqn:E1.
  { intros [= <-]. right. rewrite (int_of_product_error _ _ _ E1). auto. }
  destruct (int_of_product (3, -2) _) as [e2|width_split] eqn:E2.
  { intros [= <-]. right. rewrite (int_of_product_error _ _ _ E2). auto. }
  destruct (create_moebius length_split width_split 1 1 1 1 1) as [kind|m0] eqn:Em.
  { intros [= <-]. left. exists kind. split; [reflexivity|]. right. eauto. }
  discriminate.
Qed.

(** Below 2^53 the split counts are the truncated exact products, and
    a step raises exactly when one of its generators does. *)
Lemma step_error_exact base_resolution step :
  Z.abs (7 * (base_resolution * (step + 1))) < 2 ^ 53 ->
  error_of_step base_resolution step =
    match create_cylinder 1 2 (base_resolution * (step + 1)) 4 with
    | inl kind => Some (LibraryError kind)
    | inr _ =>
        match create_moebius (Z.quot (7 * (base_resolution * (step + 1))) 2)
                (Z.quot (3 * (base_resolution * (step + 1))) 4) 1 1 1 1 1 with
        | inl kind => Some (LibraryError kind)
        | inr _ => None
        end
    end.
Proof.
  intros H. destruct (split_counts_exact _ H) as [E1 E2].
  unfold step_error, step_moebius, step_splits, step_cylinder.
  rewrite E1, E2.
  destruct (create_cylinder 1 2 _ 4); [reflexivity|].
  destruct (create_moebius _ _ 1 1 1 1 1); reflexivity.
Qed.

Lemma loop_outcome_cases base_resolution (steps : list Z) :
  loop_outcome_of base_resolution steps = inr tt
  \/ (exists kind, loop_outcome_of base_resolution steps = inl (LibraryError kind))
  \/ loop_outcome_of base_resolution steps = inl OverflowError.
Proof.
  induction steps as [|s steps IH]; [left; reflexivity|].
  cbn [loop_outcome].
  destruct (error_of_step base_resolution s) as [e|] eqn:E; [|exact IH].
  right. destruct (step_error_cases _ _ _ E) as [(kind & -> & _)|[-> _]]; eauto.
Qed.

Lemma flat_frames_length w batch_size base_resolution colors (steps : list Z) :
  (forall s, s ∈ steps -> error_of_step base_resolution s = None) ->
  length (flat_map (frames_of_step w batch_size base_resolution colors) steps)
    = (2 * length steps)%nat
  /\ (fun call => (call_step call, call_tag call)) <$>
       flat_map (frames_of_step w batch_size base_resolution colors) steps
     = flat_map (fun s => [(s, "cylinder"); (s, "moebius")]) steps.
Proof.
  induction steps as [|s steps IH]; intros Hok; [split; reflexivity|].
  destruct IH as [Hl Ht]; [intros; apply Hok; right; assumption|].
  destruct (step_frames_ok w batch_size base_resolution colors s (Hok s ltac:(left)))
    as (mc & mm & E).
  cbn [flat_map]. rewrite E, fmap_app, Ht. cbn [app length]. rewrite Hl.
  split; [lia|reflexivity].
Qed.

Lemma flat_frames_elem w batch_size base_resolution colors (steps : list Z) call :
  (forall s, s ∈ steps -> error_of_step base_resolution s = None) ->
  call ∈ flat_map (frames_of_step w batch_size base_resolution colors) steps ->
  exists s m tag, s ∈ steps /\ call = batch_frame w tag m colors s batch_size.
Proof.
  intros Hok Hin. apply list_elem_of_In, in_flat_map in Hin as (s & Hs & Hin).
  apply list_elem_of_In in Hs, Hin.
  destruct (step_frames_ok w batch_size base_resolution colors s (Hok s Hs))
    as (mc & mm & E).
  rewrite E in Hin.
  repeat (apply elem_of_cons in Hin as [->|Hin]); eauto 6.
  apply elem_of_nil in Hin. contradiction.
Qed.

(** C1: when no step raises (no generator raises, and the split counts
    int(3.5 * resolution) and int(0.75 * resolution), computed in
    binary64, do not overflow), a run of large_scale with n_steps >= 1
    and batch_size >= 1 makes exactly n_steps * 2 add_3d calls, one per
    step and track (cylinder, then moebius); each call carries a batch of
    batch_size instances under every key and sets max_outputs, so that
    the sink writes min(batch_size, max_outputs) instances of it. *)
Theorem large_scale_frame_count (n_steps batch_size base_resolution : Z)
    (run_name : string) (st : state) :
  1 <= n_steps -> 1 <= batch_size ->
  (forall step, 0 <= step < n_steps -> error_of_step base_resolution step = None) ->
  let run := run_large n_steps batch_size base_resolution run_name in
  outcome (run st) = inr tt
  /\ Z.of_nat (length (emitted run st)) = n_steps * 2
  /\ (fun call => (call_step call, call_tag call)) <$> emitted run st
     = flat_map (fun s => [(s, "cylinder"); (s, "moebius")]) (py_range n_steps)
  /\ forall call, call ∈ emitted run st ->
       instances call = Some (Z.to_nat batch_size)
       /\ (forall key v, call_data call !! key = Some v ->
                         batch_length v = Some (Z.to_nat batch_size))
       /\ (exists cap, call_max_outputs call = Some cap)
       /\ forall cap, call_max_outputs call = Some cap ->
                      written_instances call = Some (Z.min batch_size cap).
Proof.
  intros Hn Hb Hok run.
  destruct (large_scale_summary create_cylinder create_moebius compute_normals
              n_steps batch_size base_resolution run_name st) as [Ho He].
  assert (Hok' : forall s, s ∈ py_range n_steps -> error_of_step base_resolution s = None).
  { intros s Hs. apply Hok, elem_of_py_range, Hs. }
  destruct (loop_all_ok (BASE_LOGDIR +:+ run_name) batch_size base_resolution
              (colors_of batch_size) _ Hok') as [Ho' Hf].
  destruct (flat_frames_length (BASE_LOGDIR +:+ run_name) batch_size base_resolution
              (colors_of batch_size) _ Hok') as [Hl Ht].
  subst run. rewrite Ho, He, Ho', Hf. split; [reflexivity|].
  split; [rewrite Hl, length_py_range; lia|]. split; [exact Ht|].
  intros call Hin.
  destruct (flat_frames_elem _ _ _ _ _ _ Hok' Hin) as (s & m & tag & _ & ->).
  assert (Hi : instances (batch_frame (BASE_LOGDIR +:+ run_name) tag m
                            (colors_of batch_size) s batch_size)
               = Some (Z.to_nat batch_size)).
  { unfold instances, batch_frame. cbn [call_data].
    change (dict_of_batch ?ms !! "vertex_positions")
      with (Some (Vec3Batch (vertices <$> ms))).
    simpl. rewrite !length_fmap, length_colors_of. reflexivity. }
  split; [exact Hi|]. split; [|split].
  - intros key v Hv. apply dict_of_batch_lookup in Hv.
    rewrite length_fmap, length_colors_of in Hv. exact Hv.
  - exists batch_size. reflexivity.
  - intros cap Hcap. unfold written_instances. rewrite Hi.
    cbn [mbind option_bind]. rewrite Hcap. rewrite Z2Nat.id by lia. reflexivity.
Qed.

(** C7: when step s of large_scale raises, after s steps without
    error, the run ends with that exception unchanged: the error of a
    mesh generator with its kind intact, or the OverflowError of a split
    count that binary64 cannot hold.  The calls made are exactly the two
    of each earlier step, which stay in the log after whatever it held
    before; nothing is handed over for step s or a later step. *)
Theorem large_scale_fail_fast (n_steps batch_size base_resolution : Z)
    (run_name : string) (st : state) (s : Z) (e : exn) :
  0 <= s < n_steps ->
  (forall step, 0 <= step < s -> error_of_step base_resolution step = None) ->
  error_of_step base_resolution s = Some e ->
  let run := run_large n_steps batch_size base_resolution run_name in
  let resolution := base_resolution * (s + 1) in
  outcome (run st) = inl e
  /\ ((exists kind,
         e = LibraryError kind
         /\ (create_cylinder 1 2 resolution 4 = inl kind
             \/ exists length_split width_split,
                  length_split_of resolution = inr length_split
                  /\ width_split_of resolution = inr width_split
                  /\ create_moebius length_split width_split 1 1 1 1 1 = inl kind))
      \/ (e = OverflowError
          /\ (length_split_of resolution = inl OverflowError
              \/ width_split_of resolution = inl OverflowError)))
  /\ log (final (run st)) = log st ++ emitted run st
  /\ emitted run st = emitted (run_large s batch_size base_resolution run_name) st
  /\ Z.of_nat (length (emitted run st)) = s * 2
  /\ (fun call => (call_step call, call_tag call)) <$> emitted run st
     = flat_map (fun s' => [(s', "cylinder"); (s', "moebius")]) (py_range s)
  /\ forall call, call ∈ emitted run st -> 0 <= call_step call < s.
Proof.
  intros Hs Hok He run resolution.
  destruct (large_scale_summary create_cylinder create_moebius compute_normals
              n_steps batch_size base_resolution run_name st) as [Ho Hf].
  destruct (large_scale_summary create_cylinder create_moebius compute_normals
              s batch_size base_resolution run_name st) as [_ Hf'].
  destruct (py_range_split s n_steps Hs) as [rest Hr].
  assert (Hok' : forall s', s' ∈ py_range s -> error_of_step base_resolution s' = None).
  { intros s' Hin. apply Hok, elem_of_py_range, Hin. }
  destruct (loop_stops (BASE_LOGDIR +:+ run_name) batch_size base_resolution
              (colors_of batch_size) (py_range s) rest s e Hok' He) as [Ho1 Hf1].
  destruct (loop_all_ok (BASE_LOGDIR +:+ run_name) batch_size base_resolution
              (colors_of batch_size) _ Hok') as [_ Hf2].
  destruct (flat_frames_length (BASE_LOGDIR +:+ run_name) batch_size base_resolution
              (colors_of batch_size) _ Hok') as [Hl Ht].
  subst run. rewrite Hr in Ho, Hf. rewrite Ho1 in Ho. rewrite Hf1 in Hf.
  rewrite Hf2 in Hf'.
  split; [exact Ho|]. split; [exact (step_error_cases _ _ _ He)|].
  split; [|split; [|split; [|split]]].
  - rewrite Hf, <- Hf2.
    destruct (large_scale_loop_run create_cylinder create_moebius compute_normals
                (BASE_LOGDIR +:+ run_name) batch_size base_resolution
                (colors_of batch_size) (length_colors_of batch_size)
                (py_range n_steps) st) as [_ Hlog].
    rewrite Hr in Hlog.
    destruct (loop_stops (BASE_LOGDIR +:+ run_name) batch_size base_resolution
                (colors_of batch_size) (py_range s) rest s e Hok' He) as [_ Hf3].
    rewrite Hf3, <- Hf2 in Hlog. rewrite <- Hlog, <- Hr.
    unfold large_scale, SummaryWriter, final.
    rewrite bind_run. cbn [mret M_ret].
    rewrite (bind_inr _ _ _ _ _ (build_colors_run batch_size st)). reflexivity.
  - rewrite Hf, Hf'. reflexivity.
  - rewrite Hf, Hl, length_py_range. lia.
  - rewrite Hf. exact Ht.
  - intros call Hin. rewrite Hf in Hin.
    destruct (flat_frames_elem _ _ _ _ _ _ Hok' Hin) as (s' & m & tag & Hs' & ->).
    apply elem_of_py_range in Hs'. exact Hs'.
Qed.

End LargeClaims.

Lemma large_scale_frame_count_witness :
  step_error demo_cylinder demo_moebius 200 1 = None
  /\ Z.of_nat (length (emitted (large_scale demo_cylinder demo_moebius demo_normals
                                  2 3 200 "large_scale") empty_state)) = 2 * 2.
Proof.
  split; [reflexivity|].
  apply (large_scale_frame_count demo_cylinder demo_moebius demo_normals
           2 3 200 "large_scale" empty_state); [lia|lia|].
  intros step H. assert (step = 0 \/ step = 1) as [->| ->] by lia; reflexivity.
Defined.

Lemma large_scale_fail_fast_witness :
  step_error (capped_cylinder 400) demo_moebius 200 2
    = Some (LibraryError "GeometryConstructionError")
  /\ outcome (large_scale (capped_cylinder 400) demo_moebius demo_normals
                5 3 200 "large_scale" empty_state)
     = inl (LibraryError "GeometryConstructionError")
  /\ Z.of_nat (length (emitted (large_scale (capped_cylinder 400) demo_moebius
                                  demo_normals 5 3 200 "large_scale") empty_state))
     = 2 * 2.
Proof.
  split; [reflexivity|].
  assert (Hok : forall step, 0 <= step < 2 ->
            step_error (capped_cylinder 400) demo_moebius 200 step = None).
  { intros step H. assert (step = 0 \/ step = 1) as [->| ->] by lia; reflexivity. }
  destruct (large_scale_fail_fast (capped_cylinder 400) demo_moebius demo_normals
              5 3 200 "large_scale" empty_state 2
              (LibraryError "GeometryConstructionError")
              ltac:(lia) Hok eq_refl) as (Ho & _ & _ & _ & Hl & _).
  split; [exact Ho|exact Hl].
Defined.

(** A resolution that no float holds: the first step builds its
    cylinder and then raises on the first split count; nothing is
    written. *)
Example large_scale_overflow :
  outcome (large_scale demo_cylinder demo_moebius demo_normals
             2 3 (2 ^ 1024) "large_scale" empty_state) = inl OverflowError
  /\ emitted (large_scale demo_cylinder demo_moebius demo_normals
                2 3 (2 ^ 1024) "large_scale") empty_state = [].
Proof.
  destruct (large_scale_summary demo_cylinder demo_moebius demo_normals
              2 3 (2 ^ 1024) "large_scale" empty_state) as [-> ->].
  split; vm_compute; reflexivity.
Qed.

(** ** Copies are independent *)

Lemma paint_other (li lj : loc) (c : vec3) h lg :
  li <> lj ->
  heap (final (paint_uniform_color li c (mkState h lg))) !! lj = h !! lj.
Proof.
  intros Hne. unfold paint_uniform_color, update, final. cbn [heap log].
  destruct (h !! li) as [m|]; cbn [snd heap]; [|reflexivity].
  apply list_lookup_insert_ne. exact Hne.
Qed.

Lemma batch_refs_NoDup (n r : nat) :
  NoDup ((batch_refs n r).1 ++ (batch_refs n r).2).
Proof.
  unfold batch_refs. cbn [fst snd]. apply NoDup_app. split; [|split].
  - apply NoDup_fmap_2; [intros i j; lia|apply NoDup_seq].
  - intros l H1 H2.
    apply list_elem_of_fmap in H1 as (i & -> & _).
    apply list_elem_of_fmap in H2 as (j & E & _). lia.
  - apply NoDup_fmap_2; [intros i j; lia|apply NoDup_seq].
Qed.

Lemma batch_refs_fresh (n r : nat) (l : loc) :
  l ∈ (batch_refs n r).1 ++ (batch_refs n r).2 -> (n <= l)%nat.
Proof.
  unfold batch_refs. cbn [fst snd]. intros H.
  apply elem_of_app in H as [H|H];
    apply list_elem_of_fmap in H as (i & -> & _); lia.
Qed.

(** C8: the batch loop of a step of large_scale leaves, for every batch
    index j, a mesh that is the base geometry painted with colors[j] and
    nothing else: the copies are new objects, pairwise distinct and
    distinct from every object that was there, so painting one of them
    changes neither another copy nor the base. *)
Theorem deepcopy_isolation (cylinder moebius : loc) (mc mm : TriangleMesh)
    (h : list TriangleMesh) (lg : list add_3d_call) (batch_size : Z)
    (colors : list vec3) :
  length colors = Z.to_nat batch_size ->
  h !! cylinder = Some mc -> h !! moebius = Some mm ->
  exists cylinder_list moebius_list h',
    for_fold (py_range batch_size) ([], [])
      (batch_round cylinder moebius colors) (mkState h lg)
    = (inr (cylinder_list, moebius_list), mkState h' lg)
    /\ length cylinder_list = Z.to_nat batch_size
    /\ length moebius_list = Z.to_nat batch_size
    /\ NoDup (cylinder_list ++ moebius_list)
    /\ (forall l, l ∈ cylinder_list ++ moebius_list -> (length h <= l)%nat)
    /\ (forall l, (l < length h)%nat -> h' !! l = h !! l)
    /\ (forall j l c, cylinder_list !! j = Some l -> colors !! j = Some c ->
                      h' !! l = Some (paint c mc))
    /\ (forall j l c, moebius_list !! j = Some l -> colors !! j = Some c ->
                      h' !! l = Some (paint c mm))
    /\ (forall i j li lj c,
          i <> j ->
          (cylinder_list ++ moebius_list) !! i = Some li ->
          (cylinder_list ++ moebius_list) !! j = Some lj ->
          heap (final (paint_uniform_color li c (mkState h' lg))) !! lj = h' !! lj).
Proof.
  intros Hlen Hy Hm.
  pose proof (batch_loop_from_empty cylinder moebius colors batch_size mc mm h lg
                Hlen Hy Hm) as E.
  destruct (batch_refs_valid h mc mm colors) as [Fc Fm].
  pose proof (batch_refs_NoDup (length h) (length colors)) as Hnd.
  pose proof (batch_refs_fresh (length h) (length colors)) as Hfresh.
  assert (Hl1 : length (batch_refs (length h) (length colors)).1 = Z.to_nat batch_size).
  { unfold batch_refs. cbn [fst]. rewrite length_fmap, length_seq. exact Hlen. }
  assert (Hl2 : length (batch_refs (length h) (length colors)).2 = Z.to_nat batch_size).
  { unfold batch_refs. cbn [snd]. rewrite length_fmap, length_seq. exact Hlen. }
  destruct (batch_refs (length h) (length colors)) as [cl ml]. cbn [fst snd] in *.
  exists cl, ml, (h ++ batch_objects mc mm colors).
  split; [exact E|]. split; [exact Hl1|]. split; [exact Hl2|].
  split; [exact Hnd|]. split; [exact Hfresh|]. split; [|split; [|split]].
  - intros l Hl. apply lookup_app_l. exact Hl.
  - intros j l c Hj Hc.
    destruct (Forall2_lookup_l _ _ _ _ _ Fc Hj) as (m & Hm' & Hlm).
    rewrite list_lookup_fmap, Hc in Hm'. injection Hm' as <-. exact Hlm.
  - intros j l c Hj Hc.
    destruct (Forall2_lookup_l _ _ _ _ _ Fm Hj) as (m & Hm' & Hlm).
    rewrite list_lookup_fmap, Hc in Hm'. injection Hm' as <-. exact Hlm.
  - intros i j li lj c Hne Hi Hj. apply paint_other.
    intros ->. apply Hne. eapply NoDup_lookup; eauto.
Qed.

Lemma deepcopy_isolation_witness :
  exists cylinder_list moebius_list h',
    for_fold (py_range 2) ([], [])
      (batch_round 0%nat 1%nat [red; green])
      (mkState [unit_triangle; unit_triangle] [])
    = (inr (cylinder_list, moebius_list), mkState h' [])
    /\ forall j l c, cylinder_list !! j = Some l -> [red; green] !! j = Some c ->
                     h' !! l = Some (paint c unit_triangle).
Proof.
  destruct (deepcopy_isolation 0%nat 1%nat unit_triangle unit_triangle
              [unit_triangle; unit_triangle] [] 2 [red; green]
              eq_refl eq_refl eq_refl)
    as (cl & ml & h' & E & _ & _ & _ & _ & _ & Hc & _).
  exists cl, ml, h'. split; [exact E|exact Hc].
Defined.

(** ** Indexing never fails *)

Section Bounds.

Variable create_box : R -> R -> R -> string + TriangleMesh.
Variable create_cylinder : R -> R -> Z -> Z -> string + TriangleMesh.
Variable create_moebius : Z -> Z -> Z -> R -> R -> R -> R -> string + TriangleMesh.
Variable compute_normals : TriangleMesh -> TriangleMesh.

(** C10: no list index of the demos is out of range.  The palette has
    three colours and range(3) stays below three, so small_scale and
    property_reference never raise IndexError; the colours of large_scale
    are exactly batch_size many, every round b of the batch loop finds
    colors[b], cylinder_list[b] and moebius_list[b], and large_scale never
    raises IndexError. *)
Theorem demo_indices_in_bounds :
  length palette = 3%nat
  /\ (forall step st, step ∈ py_range 3 ->
        exists c, py_index palette step st = (inr c, st))
  /\ (forall run_name st,
        outcome (small_scale create_box create_cylinder compute_normals run_name st)
          <> inl IndexError
        /\ outcome (property_reference create_box create_cylinder compute_normals
                      run_name st) <> inl IndexError)
  /\ (forall batch_size st,
        exists colors,
          build_colors batch_size st = (inr colors, st)
          /\ length colors = Z.to_nat batch_size
          /\ forall b st', b ∈ py_range batch_size ->
               exists c, py_index colors b st' = (inr c, st'))
  /\ (forall batch_size cylinder moebius mc mm h lg,
        h !! cylinder = Some mc -> h !! moebius = Some mm ->
        exists lists st',
          for_fold (py_range batch_size) ([], [])
            (batch_round cylinder moebius (colors_of batch_size)) (mkState h lg)
          = (inr lists, st'))
  /\ (forall n_steps batch_size base_resolution run_name st,
        outcome (large_scale create_cylinder create_moebius compute_normals
                   n_steps batch_size base_resolution run_name st)
          <> inl IndexError).
Proof.
  assert (Hidx : forall (l : list vec3) n b st,
            length l = Z.to_nat n -> b ∈ py_range n ->
            exists c, py_index l b st = (inr c, st)).
  { intros l n b st Hl Hb. apply elem_of_py_range in Hb.
    destruct (lookup_lt_is_Some_2 l (Z.to_nat b) ltac:(lia)) as [c Hc].
    exists c. apply py_index_run; [lia|exact Hc]. }
  split; [reflexivity|]. split; [|split; [|split; [|split]]].
  - intros step st Hs. apply (Hidx palette 3); [reflexivity|exact Hs].
  - intros run_name st.
    destruct (small_scale_summary create_box create_cylinder compute_normals
                run_name st) as [-> _].
    destruct (property_reference_summary create_box create_cylinder compute_normals
                run_name st) as [-> _].
    destruct (small_demo_outcome_cases create_box create_cylinder) as [->|[kind ->]];
      split; discriminate.
  - intros batch_size st. exists (colors_of batch_size).
    split; [apply build_colors_run|]. split; [apply length_colors_of|].
    intros b st' Hb. apply (Hidx _ batch_size); [apply length_colors_of|exact Hb].
  - intros batch_size cylinder moebius mc mm h lg Hy Hm.
    rewrite (batch_loop_from_empty cylinder moebius (colors_of batch_size) batch_size
               mc mm h lg (length_colors_of batch_size) Hy Hm). eauto.
  - intros n_steps batch_size base_resolution run_name st.
    destruct (large_scale_summary create_cylinder create_moebius compute_normals
                n_steps batch_size base_resolution run_name st) as [-> _].
    destruct (loop_outcome_cases create_cylinder create_moebius base_resolution
                (py_range n_steps)) as [->|[[kind ->]| ->]]; discriminate.
Qed.

End Bounds.

Lemma demo_indices_in_bounds_witness :
  (2 : Z) ∈ py_range 3
  /\ exists c, py_index palette 2 empty_state = (inr c, empty_state).
Proof.
  assert (H : (2 : Z) ∈ py_range 3) by (apply elem_of_py_range; lia).
  split; [exact H|].
  destruct (demo_indices_in_bounds demo_box demo_cylinder demo_moebius demo_normals)
    as (_ & Hp & _).
  exact (Hp 2 empty_state H).
Defined.

(** ** The colour schedule does not depend on exact arithmetic *)

Lemma sin_between (x : R) : (0 < x -> - x <= sin x <= x)%R.
Proof.
  intros Hx. pose proof (sin_lt_x x Hx). pose proof (SIN_bound x).
  split; [|lra].
  destruct (Rle_lt_dec x 1); [|lra].
  assert (0 <= sin x)%R; [|lra].
  apply sin_ge_0; [lra|]. pose proof PI2_3_2. lra.
Qed.

Lemma Rabs_sin_le (x : R) : (Rabs (sin x) <= Rabs x)%R.
Proof.
  destruct (Rtotal_order x 0) as [Hx|[->|Hx]].
  - pose proof (sin_between (- x) ltac:(lra)) as H. rewrite sin_neg in H.
    apply Rabs_le. rewrite (Rabs_left x Hx). lra.
  - rewrite sin_0. lra.
  - pose proof (sin_between x Hx).
    apply Rabs_le. rewrite (Rabs_right x) by lra. lra.
Qed.

Lemma sin_lipschitz (x y : R) : (Rabs (sin x - sin y) <= Rabs (x - y))%R.
Proof.
  rewrite form4.
  pose proof (COS_bound ((x + y) / 2)) as Hc.
  pose proof (Rabs_sin_le ((x - y) / 2)) as Hs.
  assert (Hh : Rabs ((x - y) / 2) = (Rabs (x - y) / 2)%R).
  { unfold Rdiv. rewrite Rabs_mult, (Rabs_right (/ 2)); lra. }
  rewrite Hh in Hs.
  rewrite !Rabs_mult, (Rabs_right 2) by lra.
  assert (Rabs (cos ((x + y) / 2)) <= 1)%R by (apply Rabs_le; lra).
  pose proof (Rabs_pos (sin ((x - y) / 2))).
  pose proof (Rabs_pos (cos ((x + y) / 2))).
  nra.
Qed.

Lemma cos_lipschitz (x y : R) : (Rabs (cos x - cos y) <= Rabs (x - y))%R.
Proof.
  rewrite form2.
  pose proof (SIN_bound ((x + y) / 2)) as Hc.
  pose proof (Rabs_sin_le ((x - y) / 2)) as Hs.
  assert (Hh : Rabs ((x - y) / 2) = (Rabs (x - y) / 2)%R).
  { unfold Rdiv. rewrite Rabs_mult, (Rabs_right (/ 2)); lra. }
  rewrite Hh in Hs.
  rewrite !Rabs_mult, (Rabs_left (-2)) by lra.
  assert (Rabs (sin ((x + y) / 2)) <= 1)%R by (apply Rabs_le; lra).
  pose proof (Rabs_pos (sin ((x - y) / 2))).
  pose proof (Rabs_pos (sin ((x + y) / 2))).
  nra.
Qed.

Lemma PI_bounds : (3 < PI <= 4)%R.
Proof. pose proof PI2_3_2. pose proof PI_4. lra. Qed.

Lemma Rabs_le_both (x b : R) : (Rabs x <= b -> - b <= x <= b)%R.
Proof. unfold Rabs. destruct (Rcase_abs x); lra. Qed.

(** A relative error [u] on a value of magnitude at most [B]. *)
Lemma relative_error (u x v B : R) :
  (0 <= u -> Rabs (x - v) <= u * Rabs v -> Rabs v <= B -> Rabs (x - v) <= u * B)%R.
Proof. intros Hu H HB. pose proof (Rabs_pos v). nra. Qed.

Section RoundingFacts.

(** The standard model of floating-point arithmetic: every operation is
    exact up to a relative error [u], the sine and the cosine up to an
    absolute error [u], and so is the constant. *)
Variable u : R.
Hypothesis u_small : (0 <= u <= 1 / 100000)%R.

Variable pi_f : R.
Hypothesis pi_f_close : (Rabs (pi_f - PI) <= u)%R.

Variables mul_f div_f add_f : R -> R -> R.
Hypothesis mul_f_close : forall x y, (Rabs (mul_f x y - x * y) <= u * Rabs (x * y))%R.
Hypothesis div_f_close :
  forall x y, y <> 0%R -> (Rabs (div_f x y - x / y) <= u * Rabs (x / y))%R.
Hypothesis add_f_close : forall x y, (Rabs (add_f x y - (x + y)) <= u * Rabs (x + y))%R.

Variables sin_f cos_f : R -> R.
Hypothesis sin_f_close : forall x, (Rabs (sin_f x - sin x) <= u)%R.
Hypothesis cos_f_close : forall x, (Rabs (cos_f x - cos x) <= u)%R.

Lemma rounded_angle (k n : Z) :
  0 <= k < n ->
  let t_f := div_f (mul_f (IZR k) pi_f) (IZR n) in
  let t := (IZR k * PI / IZR n)%R in
  (Rabs (t_f - t) <= 11 * u /\ 0 <= t <= 4)%R.
Proof.
  intros Hk t_f t. pose proof PI_bounds as HPI.
  assert (HK : (0 <= IZR k)%R) by (apply IZR_le; lia).
  assert (HN : (IZR k < IZR n)%R) by (apply IZR_lt; lia).
  assert (HN0 : IZR n <> 0%R) by lra.
  set (K := IZR k) in *. set (N := IZR n) in *.
  set (r := (K / N)%R).
  assert (Hr : (0 <= r < 1)%R).
  { unfold r. split.
    - apply Rmult_le_pos; [lra|]. left. apply Rinv_0_lt_compat. lra.
    - apply (Rmult_lt_reg_r N); [lra|]. unfold Rdiv.
      rewrite Rmult_assoc, Rinv_l by lra. lra. }
  assert (Ht : t = (r * PI)%R) by (unfold t, r; field; lra).
  apply Rabs_le_both in pi_f_close as Hp.
  set (a := mul_f K pi_f).
  assert (Ha : (Rabs (a / N - r * pi_f) <= u * (r * pi_f))%R).
  { pose proof (mul_f_close K pi_f) as H. fold a in H.
    rewrite (Rabs_right (K * pi_f)) in H by nra.
    apply Rabs_le_both in H. apply Rabs_le.
    assert (Hi : (0 < / N)%R) by (apply Rinv_0_lt_compat; lra).
    replace (a / N - r * pi_f)%R with ((a - K * pi_f) * / N)%R
      by (unfold r; field; lra).
    replace (u * (r * pi_f))%R with (u * (K * pi_f) * / N)%R
      by (unfold r; field; lra).
    split; nra. }
  apply Rabs_le_both in Ha.
  assert (Hb : (Rabs (t_f - a / N) <= u * (a / N))%R).
  { pose proof (div_f_close a N HN0) as H. fold t_f in H.
    rewrite (Rabs_right (a / N)) in H by nra. exact H. }
  apply Rabs_le_both in Hb.
  split; [|rewrite Ht; nra].
  set (x := (a / N)%R) in *. set (p := (r * pi_f)%R) in *.
  assert (Hp0 : (0 <= p <= 401 / 100)%R) by (unfold p; nra).
  assert (Hpd : (- u <= p - r * PI <= u)%R) by (unfold p; nra).
  assert (Hup : (u * p <= 401 / 100 * u)%R) by nra.
  assert (Hx : (0 <= x <= 402 / 100)%R) by nra.
  assert (Hux : (u * x <= 402 / 100 * u)%R) by nra.
  rewrite Ht. apply Rabs_le. lra.
Qed.


Lemma rounded_half (s_f s : R) :
  (Rabs (s_f - s) <= 12 * u -> -1 <= s <= 1 ->
   Rabs (div_f (add_f 1 s_f) 2 - (1 + s) / 2) <= 10 * u)%R.
Proof.
  intros Hs Hb. apply Rabs_le_both in Hs.
  pose proof (relative_error u _ _ (201 / 100) (proj1 u_small) (add_f_close 1 s_f))
    as Hy.
  assert (Hy' : (Rabs (add_f 1 s_f - (1 + s_f)) <= u * (201 / 100))%R).
  { apply Hy. apply Rabs_le. lra. }
  clear Hy. apply Rabs_le_both in Hy'. set (y := add_f 1 s_f) in *.
  pose proof (relative_error u _ _ (101 / 100) (proj1 u_small)
                (div_f_close y 2 ltac:(lra))) as Hz.
  assert (Hz' : (Rabs (div_f y 2 - y / 2) <= u * (101 / 100))%R).
  { apply Hz. apply Rabs_le. lra. }
  clear Hz. apply Rabs_le_both in Hz'.
  apply Rabs_le. lra.
Qed.

Lemma rounded_ratio (t_f t : R) :
  (Rabs (t_f - t) <= 11 * u -> 0 <= t <= PI ->
   Rabs (div_f t_f pi_f - t / PI) <= 7 * u)%R.
Proof.
  intros Ht Hb. pose proof PI_bounds as HPI.
  apply Rabs_le_both in Ht. apply Rabs_le_both in pi_f_close as Hp.
  assert (Hpf : (0 < pi_f)%R) by lra.
  set (q := (t_f / pi_f)%R). set (r := (t / PI)%R).
  assert (Hq : (q * pi_f = t_f)%R) by (unfold q; field; lra).
  assert (Hr : (r * PI = t)%R) by (unfold r; field; lra).
  assert (Hr01 : (0 <= r <= 1)%R).
  { split; [apply (Rmult_le_reg_r PI)|apply (Rmult_le_reg_r PI)]; lra. }
  assert (Hqr : (- (5 * u) <= q - r <= 5 * u)%R).
  { assert (Hd : ((q - r) * pi_f = t_f - t + r * (PI - pi_f))%R) by nra.
    assert (Hd' : (- (12 * u) <= (q - r) * pi_f <= 12 * u)%R) by nra.
    split; apply (Rmult_le_reg_r pi_f); nra. }
  pose proof (relative_error u _ _ (101 / 100) (proj1 u_small)
                (div_f_close t_f pi_f ltac:(lra))) as Hw.
  fold q in Hw.
  assert (Hw' : (Rabs (div_f t_f pi_f - q) <= u * (101 / 100))%R).
  { apply Hw. apply Rabs_le. lra. }
  apply Rabs_le_both in Hw'. apply Rabs_le. lra.
Qed.

(** Whatever the rounding, within the standard model with u <= 1e-5, the
    computed colour is within 15 u of the exact one. *)
Lemma rounded_color_schedule_close (k n : Z) :
  0 <= k < n ->
  within (15 * u)
    (rounded_color_schedule pi_f mul_f div_f add_f sin_f cos_f k n)
    (spec_color_schedule k n).
Proof.
  intros Hk. destruct (rounded_angle k n Hk) as [Ht Hb].
  unfold rounded_color_schedule, spec_color_schedule, within. cbv zeta in *.
  cbn [fst snd].
  set (t_f := div_f (mul_f (IZR k) pi_f) (IZR n)) in *.
  set (t := (IZR k * PI / IZR n)%R) in *.
  assert (HtPI : (0 <= t <= PI)%R).
  { split; [lra|]. unfold t.
    assert (HK : (0 <= IZR k)%R) by (apply IZR_le; lia).
    assert (HN : (IZR k < IZR n)%R) by (apply IZR_lt; lia).
    pose proof PI_bounds.
    apply (Rmult_le_reg_r (IZR n)); [lra|].
    replace (IZR k * PI / IZR n * IZR n)%R with (IZR k * PI)%R by (field; lra).
    nra. }
  assert (Hsin : (Rabs (sin_f t_f - sin t) <= 12 * u)%R).
  { pose proof (sin_f_close t_f) as H1. pose proof (sin_lipschitz t_f t) as H2.
    apply Rabs_le_both in H1. apply Rabs_le_both in Ht.
    pose proof (Rabs_le_both _ _ (Rle_trans _ _ _ H2 (Rabs_le _ _ Ht))).
    apply Rabs_le. lra. }
  assert (Hcos : (Rabs (cos_f t_f - cos t) <= 12 * u)%R).
  { pose proof (cos_f_close t_f) as H1. pose proof (cos_lipschitz t_f t) as H2.
    apply Rabs_le_both in H1. apply Rabs_le_both in Ht.
    pose proof (Rabs_le_both _ _ (Rle_trans _ _ _ H2 (Rabs_le _ _ Ht))).
    apply Rabs_le. lra. }
  pose proof (rounded_half _ _ Hsin (SIN_bound t)) as H1.
  pose proof (rounded_half _ _ Hcos (COS_bound t)) as H2.
  pose proof (rounded_ratio _ _ Ht HtPI) as H3.
  pose proof u_small. repeat split; lra.
Qed.

End RoundingFacts.

Lemma within_trans (a b c : R) (x y z : vec3) :
  within a x y -> within b y z -> (a + b <= c)%R -> within c x z.
Proof.
  unfold within. intros (H1 & H2 & H3) (K1 & K2 & K3) Hc.
  apply Rabs_le_both in H1, H2, H3, K1, K2, K3.
  repeat split; apply Rabs_le; lra.
Qed.

Lemma standard_model_close (u pi_f : R) (mul_f div_f add_f : R -> R -> R)
    (sin_f cos_f : R -> R) (k n : Z) :
  standard_model u pi_f mul_f div_f add_f sin_f cos_f ->
  0 <= k < n ->
  within (15 / 100000)
    (rounded_color_schedule pi_f mul_f div_f add_f sin_f cos_f k n)
    (spec_color_schedule k n).
Proof.
  intros (Hu & Hpi & Hmul & Hdiv & Hadd & Hsin & Hcos) Hk.
  pose proof (rounded_color_schedule_close u Hu pi_f Hpi mul_f div_f add_f
                Hmul Hdiv Hadd sin_f cos_f Hsin Hcos k n Hk) as H.
  apply (within_trans (15 * u) 0 _ _ _ _ H); [|lra].
  unfold within. rewrite !Rminus_diag, Rabs_R0. lra.
Qed.

Lemma exact_arithmetic_is_standard : standard_model 0 PI Rmult Rdiv Rplus sin cos.
Proof.
  unfold standard_model.
  repeat split; intros; try lra; rewrite ?Rminus_diag, ?Rabs_R0; lra.
Qed.

(** ** The colour schedule *)

Lemma sqrt3_bounds : (1732 / 1000 < sqrt 3 < 17321 / 10000)%R.
Proof.
  pose proof (sqrt_sqrt 3 ltac:(lra)) as Hs.
  pose proof (sqrt_pos 3) as Hp.
  split; nra.
Qed.

Lemma spec_color_0_3 : spec_color_schedule 0 3 = (1 / 2, 1, 0)%R.
Proof.
  unfold spec_color_schedule. cbv zeta.
  replace (0 * PI / 3)%R with 0%R by lra.
  rewrite sin_0, cos_0. f_equal; [f_equal|]; lra.
Qed.

Lemma spec_color_1_3 : spec_color_schedule 1 3 = ((1 + sqrt 3 / 2) / 2, 3 / 4, 1 / 3)%R.
Proof.
  unfold spec_color_schedule. cbv zeta.
  replace (1 * PI / 3)%R with (PI / 3)%R by lra.
  rewrite sin_PI3, cos_PI3. pose proof PI_neq0.
  f_equal; [f_equal|]; [lra|field; assumption].
Qed.

Lemma spec_color_2_3 : spec_color_schedule 2 3 = ((1 + sqrt 3 / 2) / 2, 1 / 4, 2 / 3)%R.
Proof.
  unfold spec_color_schedule. cbv zeta.
  replace (2 * PI / 3)%R with (2 * (PI / 3))%R by lra.
  rewrite sin_2PI3, cos_2PI3. pose proof PI_neq0.
  f_equal; [f_equal|]; [lra|field; assumption].
Qed.

(** C5: the colour of batch element k out of n, as large_scale computes
    it, is the function of the specification, t = k * pi / n and
    ((1 + sin t) / 2, (1 + cos t) / 2, t / pi), and colors[k] is that
    colour; for n = 3 it is (0.5, 1, 0) at k = 0, and within 1e-3 of
    (0.933, 0.75, 0.333) at k = 1 and of (0.933, 0.25, 0.667) at k = 2.
    The three values stay within 1e-3 when the arithmetic is not exact
    but any floating-point arithmetic of the standard model with unit
    roundoff up to 1e-5. *)
Theorem color_schedule_values :
  (forall k n st, n <> 0 ->
     color_schedule k n st = (inr (spec_color_schedule k n), st))
  /\ (forall n k st, 0 <= k < n ->
        exists colors,
          build_colors n st = (inr colors, st)
          /\ colors !! Z.to_nat k = Some (spec_color_schedule k n))
  /\ spec_color_schedule 0 3 = (5 / 10, 1, 0)%R
  /\ within (1 / 1000) (spec_color_schedule 1 3) (933 / 1000, 75 / 100, 333 / 1000)%R
  /\ within (1 / 1000) (spec_color_schedule 2 3) (933 / 1000, 25 / 100, 667 / 1000)%R
  /\ (forall u pi_f mul_f div_f add_f sin_f cos_f,
        standard_model u pi_f mul_f div_f add_f sin_f cos_f ->
        let rounded := rounded_color_schedule pi_f mul_f div_f add_f sin_f cos_f in
        within (1 / 1000) (rounded 0 3) (5 / 10, 1, 0)%R
        /\ within (1 / 1000) (rounded 1 3) (933 / 1000, 75 / 100, 333 / 1000)%R
        /\ within (1 / 1000) (rounded 2 3) (933 / 1000, 25 / 100, 667 / 1000)%R).
Proof.
  pose proof sqrt3_bounds as Hs.
  assert (H13 : within (4 / 10000) (spec_color_schedule 1 3)
                  (933 / 1000, 75 / 100, 333 / 1000)%R).
  { rewrite spec_color_1_3. unfold within. cbn [fst snd].
    repeat split; apply Rabs_le; lra. }
  assert (H23 : within (4 / 10000) (spec_color_schedule 2 3)
                  (933 / 1000, 25 / 100, 667 / 1000)%R).
  { rewrite spec_color_2_3. unfold within. cbn [fst snd].
    repeat split; apply Rabs_le; lra. }
  assert (H03 : within 0 (spec_color_schedule 0 3) (5 / 10, 1, 0)%R).
  { rewrite spec_color_0_3. unfold within. cbn [fst snd].
    repeat split; apply Rabs_le; lra. }
  split; [intros; apply color_schedule_run; assumption|].
  split; [|split; [|split; [|split]]].
  - intros n k st Hk. exists (colors_of n). split; [apply build_colors_run|].
    unfold colors_of, py_range. rewrite !list_lookup_fmap.
    rewrite lookup_seq_lt by lia. simpl. rewrite Z2Nat.id by lia. reflexivity.
  - rewrite spec_color_0_3. f_equal. f_equal. lra.
  - rewrite spec_color_1_3. unfold within. cbn [fst snd].
    repeat split; apply Rabs_le; lra.
  - rewrite spec_color_2_3. unfold within. cbn [fst snd].
    repeat split; apply Rabs_le; lra.
  - intros u pi_f mul_f div_f add_f sin_f cos_f Hm rounded. subst rounded.
    split; [|split].
    + apply (within_trans _ _ _ _ _ _
               (standard_model_close _ _ _ _ _ _ _ 0 3 Hm ltac:(lia)) H03). lra.
    + apply (within_trans _ _ _ _ _ _
               (standard_model_close _ _ _ _ _ _ _ 1 3 Hm ltac:(lia)) H13). lra.
    + apply (within_trans _ _ _ _ _ _
               (standard_model_close _ _ _ _ _ _ _ 2 3 Hm ltac:(lia)) H23). lra.
Qed.

Lemma color_schedule_values_witness :
  color_schedule 1 3 empty_state = (inr (spec_color_schedule 1 3), empty_state)
  /\ standard_model 0 PI Rmult Rdiv Rplus sin cos
  /\ within (1 / 1000) (rounded_color_schedule PI Rmult Rdiv Rplus sin cos 1 3)
       (933 / 1000, 75 / 100, 333 / 1000)%R.
Proof.
  destruct color_schedule_values as (H & _ & _ & _ & _ & Hr).
  split; [apply (H 1 3 empty_state); discriminate|].
  split; [exact exact_arithmetic_is_standard|].
  apply (Hr 0%R PI Rmult Rdiv Rplus sin cos exact_arithmetic_is_standard).
Defined.

(** ** The material of with_material *)

Section MaterialClaims.

Variable path_exists : string -> bool.
Variable read_image : string -> Image.
Variable read_triangle_mesh : string -> string + TriangleMesh.
Variable from_legacy : TriangleMesh -> TMesh.

Local Abbreviation add := (add_texture path_exists read_image).
Local Abbreviation assemble := (assemble_material path_exists read_image).

Lemma add_texture_fields model_dir (channels : list string) (material : Material) :
  name (foldl (add model_dir) material channels) = name material
  /\ scalar_properties (foldl (add model_dir) material channels)
     = scalar_properties material
  /\ vector_properties (foldl (add model_dir) material channels)
     = vector_properties material.
Proof.
  revert material. induction channels as [|ch channels IH]; intros material.
  - repeat split.
  - cbn [foldl]. destruct (IH (add model_dir material ch)) as (-> & -> & ->).
    unfold add_texture. destruct (path_exists _); repeat split.
Qed.

Lemma add_texture_lookup model_dir (channels : list string) (material : Material)
    (key : string) :
  texture_maps (foldl (add model_dir) material channels) !! key =
  if decide (key ∈ channels) then
    if path_exists (path_join model_dir (key +:+ ".png"))
    then Some (read_image (path_join model_dir (key +:+ ".png")))
    else texture_maps material !! key
  else texture_maps material !! key.
Proof.
  revert material. induction channels as [|ch channels IH]; intros material.
  - reflexivity.
  - cbn [foldl]. rewrite IH. clear IH.
    assert (Hstep : texture_maps (add model_dir material ch) !! key =
                    if decide (key = ch) then
                      if path_exists (path_join model_dir (key +:+ ".png"))
                      then Some (read_image (path_join model_dir (key +:+ ".png")))
                      else texture_maps material !! key
                    else texture_maps material !! key).
    { unfold add_texture. destruct (decide (key = ch)) as [->|Hne].
      - destruct (path_exists _); [apply lookup_insert_eq|reflexivity].
      - destruct (path_exists _); [|reflexivity].
        cbn [texture_maps set_texture]. apply lookup_insert_ne. congruence. }
    rewrite Hstep.
    destruct (decide (key ∈ channels)) as [Hin|Hin];
      destruct (decide (key = ch)) as [->|Hne];
      destruct (decide (_ ∈ _ :: _)) as [Hin'|Hin'];
      try reflexivity; try (destruct (path_exists _); reflexivity);
      exfalso; revert Hin Hin'; rewrite ?elem_of_cons; tauto.
Qed.

(** C6: the material of with_material holds a texture for a channel among
    albedo, normal, ao, metallic, roughness exactly when the path
    <model_dir>/<channel>.png exists, and then it is the image read from
    that path; a channel whose file is missing is left out and nothing
    fails; base_metallic = 1.0 is set exactly when the metallic texture
    is there.  With albedo.png and metallic.png and none of the other
    three, texture_maps has exactly these two channels, no normal key,
    and scalar_properties is base_metallic = 1.0 alone.  When the mesh
    file can be read, the one add_3d call of with_material carries this
    material, whichever textures are missing. *)
Theorem material_assembly (model_dir : string) :
  let material := assemble model_dir in
  let file texture := path_join model_dir (texture +:+ ".png") in
  name material = "defaultLit"
  /\ vector_properties material = ∅
  /\ (forall texture, texture ∈ texture_channels ->
        texture_maps material !! texture =
          if path_exists (file texture) then Some (read_image (file texture))
          else None)
  /\ (forall key, key ∉ texture_channels -> texture_maps material !! key = None)
  /\ scalar_properties material =
       (if path_exists (file "metallic") then {["base_metallic" := 1%R]} else ∅)
  /\ (path_exists (file "albedo") = true -> path_exists (file "metallic") = true ->
      path_exists (file "normal") = false -> path_exists (file "ao") = false ->
      path_exists (file "roughness") = false ->
      texture_maps material =
        {["albedo" := read_image (file "albedo");
          "metallic" := read_image (file "metallic")]}
      /\ scalar_properties material = {["base_metallic" := 1%R]}
      /\ texture_maps material !! "normal" = None)
  /\ (forall st legacy positions normals texture_uvs indices,
        read_triangle_mesh (path_join model_dir (basename model_dir +:+ ".obj"))
          = inr legacy ->
        vertex (from_legacy legacy) !! "positions" = Some positions ->
        vertex (from_legacy legacy) !! "normals" = Some normals ->
        vertex (from_legacy legacy) !! "texture_uvs" = Some texture_uvs ->
        triangle (from_legacy legacy) !! "indices" = Some indices ->
        let run := with_material path_exists read_image read_triangle_mesh
                     from_legacy model_dir in
        outcome (run st) = inr tt
        /\ exists data,
             emitted run st =
               [mkCall (BASE_LOGDIR +:+ basename model_dir) (basename model_dir)
                  data 0 None]
             /\ data !! "material" = Some (MaterialV material)).
Proof.
  intros material file.
  pose proof (add_texture_fields model_dir texture_channels
                (mkMaterial "defaultLit" ∅ ∅ ∅)) as (Hname & Hsc & Hvec).
  pose proof (add_texture_lookup model_dir texture_channels
                (mkMaterial "defaultLit" ∅ ∅ ∅)) as Hlook.
  cbn [name scalar_properties vector_properties texture_maps] in *.
  assert (Hmet : texture_maps (foldl (add model_dir) (mkMaterial "defaultLit" ∅ ∅ ∅)
                                 texture_channels) !! "metallic" =
                 if path_exists (file "metallic")
                 then Some (read_image (file "metallic")) else None).
  { rewrite Hlook. destruct (decide _) as [_|Hn]; [reflexivity|].
    exfalso. apply Hn. unfold texture_channels. set_solver. }
  assert (Htex : texture_maps material =
                 texture_maps (foldl (add model_dir) (mkMaterial "defaultLit" ∅ ∅ ∅)
                                 texture_channels)).
  { subst material. unfold assemble_material. cbv zeta.
    destruct (texture_maps _ !! "metallic"); reflexivity. }
  assert (Hscal : scalar_properties material =
                  if path_exists (file "metallic")
                  then {["base_metallic" := 1%R]} else ∅).
  { subst material. unfold assemble_material. cbv zeta. rewrite Hmet.
    destruct (path_exists (file "metallic")); cbn [scalar_properties set_scalar];
      rewrite Hsc; reflexivity. }
  assert (Hin : forall texture, texture ∈ texture_channels ->
            texture_maps material !! texture =
              if path_exists (file texture) then Some (read_image (file texture))
              else None).
  { intros texture Ht. rewrite Htex, Hlook.
    destruct (decide _); [reflexivity|contradiction]. }
  assert (Hout : forall key, key ∉ texture_channels ->
            texture_maps material !! key = None).
  { intros key Hk. rewrite Htex, Hlook.
    destruct (decide _); [contradiction|reflexivity]. }
  split; [|split; [|split; [exact Hin|split; [exact Hout|split; [exact Hscal|split]]]]].
  - subst material. unfold assemble_material. cbv zeta.
    destruct (texture_maps _ !! "metallic"); cbn [name set_scalar]; exact Hname.
  - subst material. unfold assemble_material. cbv zeta.
    destruct (texture_maps _ !! "metallic"); cbn [vector_properties set_scalar];
      exact Hvec.
  - intros Ha Hm Hn Ho Hr. split; [|split].
    + apply map_eq. intros key.
      destruct (decide (key ∈ texture_channels)) as [Hk|Hk].
      * rewrite (Hin key Hk). unfold texture_channels in Hk.
        repeat (apply elem_of_cons in Hk as [->|Hk]);
          [rewrite Ha|rewrite Hn|rewrite Ho|rewrite Hm|rewrite Hr|
           apply elem_of_nil in Hk; contradiction]; reflexivity.
      * rewrite (Hout key Hk). symmetry.
        rewrite lookup_insert_ne, lookup_singleton_ne; [reflexivity| |];
          intros <-; apply Hk; unfold texture_channels; set_solver.
    + rewrite Hscal, Hm. reflexivity.
    + rewrite Hin by (unfold texture_channels; set_solver). rewrite Hn. reflexivity.
  - intros st legacy positions normals texture_uvs indices Hread Hp Hnr Hu Hi.
    set (run := with_material path_exists read_image read_triangle_mesh
                  from_legacy model_dir).
    assert (E : run st =
      (inr tt,
       mkState (heap st)
         (log st ++
          [mkCall (BASE_LOGDIR +:+ basename model_dir) (basename model_dir)
             (<["vertex_positions" := TensorV positions]>
             (<["vertex_normals" := TensorV normals]>
             (<["vertex_texture_uvs" := TensorV texture_uvs]>
             (<["triangle_indices" := TensorV indices]>
             (<["material" := MaterialV material]> ∅))))) 0 None]))).
    { subst run.
      unfold with_material, py_getitem, SummaryWriter, lift_lib,
        mbind, M_bind, mret, M_ret.
      cbv zeta. rewrite Hread. cbv beta iota.
      rewrite Hp. cbv beta iota. rewrite Hnr. cbv beta iota.
      rewrite Hu. cbv beta iota. rewrite Hi. reflexivity. }
    split; [unfold outcome; rewrite E; reflexivity|].
    eexists. split; [apply (emitted_app _ _ _ _ _ E); reflexivity|reflexivity].
Qed.

End MaterialClaims.

Lemma material_assembly_witness :
  monkey_dir_exists (path_join "test_data/monkey" ("normal" +:+ ".png")) = false
  /\ texture_maps (assemble_material monkey_dir_exists demo_read_image "test_data/monkey")
     = {["albedo" := demo_read_image "test_data/monkey/albedo.png";
         "metallic" := demo_read_image "test_data/monkey/metallic.png"]}
  /\ scalar_properties
       (assemble_material monkey_dir_exists demo_read_image "test_data/monkey")
     = {["base_metallic" := 1%R]}
  /\ texture_maps (assemble_material monkey_dir_exists demo_read_image "test_data/monkey")
       !! "normal" = None.
Proof.
  split; [reflexivity|].
  destruct (material_assembly monkey_dir_exists demo_read_image
              (fun _ => inl "MissingAssetError") (fun _ => mkTMesh ∅ ∅)
              "test_data/monkey") as (_ & _ & _ & _ & _ & H & _).
  exact (H eq_refl eq_refl eq_refl eq_refl eq_refl).
Defined.

(** ** More of the script: paths *)

Example dirname_script : dirname "/repo/examples/python/demo_pytorch.py"
                         = "/repo/examples/python".
Proof. reflexivity. Qed.

Example dirname_root : dirname "/demo_pytorch.py" = "/".
Proof. reflexivity. Qed.

Example dirname_relative : dirname "demo_pytorch.py" = "".
Proof. reflexivity. Qed.

Example dirname_double_slash : dirname "/repo//demo_pytorch.py" = "/repo".
Proof. reflexivity. Qed.

Example main_model_dir_example :
  main_model_dir "/repo/examples/python/visualization/tensorboard_plugin/demo_pytorch.py"
    (fun p => p)
  = "/repo/examples/python/visualization/tensorboard_plugin/../../../test_data/monkey".
Proof. reflexivity. Qed.

Lemma append_cons (c : ascii) (x y : string) : String c x +:+ y = String c (x +:+ y).
Proof. reflexivity. Qed.

Lemma append_assoc (x y z : string) : (x +:+ y) +:+ z = x +:+ y +:+ z.
Proof.
  induction x as [|c x IH]; [reflexivity|].
  rewrite !append_cons, IH. reflexivity.
Qed.

Lemma list_ascii_of_append (x y : string) :
  list_ascii_of_string (x +:+ y) = list_ascii_of_string x ++ list_ascii_of_string y.
Proof.
  induction x as [|c x IH]; [reflexivity|].
  rewrite append_cons. simpl. rewrite IH. reflexivity.
Qed.

Lemma append_inj_l (x y z : string) : x +:+ z = y +:+ z -> x = y.
Proof.
  intros H. apply (f_equal list_ascii_of_string) in H.
  rewrite !list_ascii_of_append in H. apply app_inv_tail in H.
  rewrite <- (string_of_list_ascii_of_string x), <- (string_of_list_ascii_of_string y).
  rewrite H. reflexivity.
Qed.

Lemma append_inj_r (x y z : string) : x +:+ y = x +:+ z -> y = z.
Proof.
  induction x as [|c x IH]; [auto|].
  rewrite !append_cons. intros H. injection H. exact IH.
Qed.

Lemma contains_slash_append (x y : string) :
  contains_slash (x +:+ y) = contains_slash x || contains_slash y.
Proof.
  induction x as [|c x IH]; [reflexivity|]. rewrite append_cons. simpl. rewrite IH.
  destruct (Ascii.eqb c "/"); reflexivity.
Qed.

Lemma basename_append (x y : string) :
  contains_slash y = true -> basename (x +:+ y) = basename y.
Proof.
  intros Hy. induction x as [|c x IH]; [reflexivity|].
  rewrite append_cons. simpl. rewrite contains_slash_append, Hy, orb_true_r. exact IH.
Qed.

Lemma basename_no_slash (n : string) : contains_slash n = false -> basename n = n.
Proof.
  destruct n as [|c n]; [reflexivity|]. simpl. intros H.
  apply orb_false_iff in H as [Hc Hn]. rewrite Hn, Hc. reflexivity.
Qed.

Lemma basename_after_slash (d n : string) :
  contains_slash n = false -> basename (d +:+ "/" +:+ n) = n.
Proof.
  intros Hn. rewrite basename_append; [|reflexivity].
  change ("/" +:+ n) with (String "/" n). simpl. rewrite Hn. reflexivity.
Qed.

Lemma ends_with_slash_append (x y : string) :
  y <> "" -> ends_with_slash (x +:+ y) = ends_with_slash y.
Proof.
  intros Hy. induction x as [|c x IH]; [reflexivity|].
  rewrite append_cons. simpl. rewrite IH. destruct (x +:+ y) eqn:E; [|reflexivity].
  destruct x; [exfalso; exact (Hy E)|discriminate E].
Qed.

Lemma append_nonempty (x y : string) : y <> "" -> x +:+ y <> "".
Proof. intros Hy. destruct x; [exact Hy|discriminate]. Qed.

Lemma path_join_relative (a b : string) :
  starts_with_slash b = false -> path_join a b = join_prefix a +:+ b.
Proof.
  intros Hb. unfold path_join, join_prefix. rewrite Hb.
  destruct (String.eqb a "" || ends_with_slash a); [reflexivity|].
  symmetry. apply append_assoc.
Qed.

Lemma join_prefix_after_name (d n : string) :
  n <> "" -> ends_with_slash n = false -> join_prefix (d +:+ n) = d +:+ n +:+ "/".
Proof.
  intros Hn He. unfold join_prefix.
  rewrite ends_with_slash_append, He by exact Hn.
  destruct (String.eqb_spec (d +:+ n) "") as [E|_];
    [exfalso; exact (append_nonempty d n Hn E)|].
  simpl. apply append_assoc.
Qed.

Lemma join_prefix_after_slash (d : string) : join_prefix (d +:+ "/") = d +:+ "/".
Proof.
  unfold join_prefix. rewrite ends_with_slash_append by discriminate.
  rewrite orb_true_r. reflexivity.
Qed.

Lemma no_slash_no_trailing_slash (n : string) :
  contains_slash n = false -> ends_with_slash n = false.
Proof.
  induction n as [|c n IH]; [reflexivity|]. simpl. intros H.
  apply orb_false_iff in H as [Hc Hn]. destruct n; [exact Hc|exact (IH Hn)].
Qed.

Lemma no_slash_relative (n ext : string) :
  contains_slash n = false -> starts_with_slash ext = false ->
  starts_with_slash (n +:+ ext) = false.
Proof.
  intros Hn He. destruct n as [|c n]; [exact He|].
  simpl in Hn. apply orb_false_iff in Hn as [Hc _]. exact Hc.
Qed.

Lemma join_prefix_dir (d n : string) :
  n <> "" -> contains_slash n = false ->
  join_prefix (d +:+ "/" +:+ n) = d +:+ "/" +:+ n +:+ "/".
Proof.
  intros Hn Hs. rewrite <- append_assoc.
  rewrite join_prefix_after_name by (auto using no_slash_no_trailing_slash).
  apply append_assoc.
Qed.

(** ** with_material: errors, paths, files *)

Section WithMaterialFacts.

Variable path_exists : string -> bool.
Variable read_image : string -> Image.
Variable read_triangle_mesh : string -> string + TriangleMesh.
Variable from_legacy : TriangleMesh -> TMesh.

Local Abbreviation run_material :=
  (with_material path_exists read_image read_triangle_mesh from_legacy).
Local Abbreviation material_of := (assemble_material path_exists read_image).

Lemma with_material_run (model_dir : string) (st : state) :
  run_material model_dir st =
  match read_triangle_mesh (model_file model_dir) with
  | inl kind => (inl (LibraryError kind), st)
  | inr legacy =>
      match first_missing (from_legacy legacy) with
      | Some key => (inl (KeyError key), st)
      | None =>
          (inr tt,
           mkState (heap st)
             (log st ++
              [mkCall (BASE_LOGDIR +:+ basename model_dir) (basename model_dir)
                 (material_data (from_legacy legacy) (material_of model_dir))
                 0 None]))
      end
  end.
Proof.
  unfold with_material, model_file, first_missing, material_data, py_getitem,
    SummaryWriter, lift_lib, mbind, M_bind, mret, M_ret, raise.
  cbv zeta.
  destruct (read_triangle_mesh _) as [kind|legacy]; [reflexivity|].
  cbv beta iota.
  destruct (vertex (from_legacy legacy) !! "positions"); [|reflexivity].
  destruct (vertex (from_legacy legacy) !! "normals"); [|reflexivity].
  destruct (vertex (from_legacy legacy) !! "texture_uvs"); [|reflexivity].
  destruct (triangle (from_legacy legacy) !! "indices"); reflexivity.
Qed.

(** X1: with_material writes all or nothing.  An error of the mesh
    reader ends it with that error; a mesh that lacks one of positions,
    normals, texture_uvs, indices ends it with KeyError of the first one
    missing, in this order; in both cases nothing is handed to the sink.
    Otherwise it succeeds with exactly one call, whatever textures exist.
    The store of meshes is never touched. *)
Theorem with_material_all_or_nothing (model_dir : string) (st : state) :
  let r := run_material model_dir st in
  heap (final r) = heap st
  /\ (forall kind,
        read_triangle_mesh (model_file model_dir) = inl kind ->
        outcome r = inl (LibraryError kind) /\ final r = st)
  /\ (forall legacy key,
        read_triangle_mesh (model_file model_dir) = inr legacy ->
        first_missing (from_legacy legacy) = Some key ->
        outcome r = inl (KeyError key) /\ final r = st)
  /\ (forall legacy,
        read_triangle_mesh (model_file model_dir) = inr legacy ->
        first_missing (from_legacy legacy) = None ->
        outcome r = inr tt
        /\ exists data,
             emitted (run_material model_dir) st
             = [mkCall (BASE_LOGDIR +:+ basename model_dir) (basename model_dir)
                  data 0 None]
             /\ dom data = {["vertex_positions"; "vertex_normals"; "vertex_texture_uvs";
                             "triangle_indices"; "material"]}
             /\ data !! "material" = Some (MaterialV (material_of model_dir)))
  /\ (forall e, outcome r = inl e -> emitted (run_material model_dir) st = []).
Proof.
  intros r. subst r. pose proof (with_material_run model_dir st) as E.
  split; [|split; [|split; [|split]]].
  - rewrite E. destruct (read_triangle_mesh _) as [?|legacy]; [reflexivity|].
    destruct (first_missing _); reflexivity.
  - intros kind H. rewrite H in E. rewrite E. split; reflexivity.
  - intros legacy key H Hk. rewrite H, Hk in E. rewrite E. split; reflexivity.
  - intros legacy H Hk. rewrite H, Hk in E. split; [rewrite E; reflexivity|].
    eexists. split; [apply (emitted_app _ _ _ _ _ E); reflexivity|].
    unfold first_missing, material_data in *.
    destruct (vertex (from_legacy legacy) !! "positions"); [|discriminate].
    destruct (vertex (from_legacy legacy) !! "normals"); [|discriminate].
    destruct (vertex (from_legacy legacy) !! "texture_uvs"); [|discriminate].
    destruct (triangle (from_legacy legacy) !! "indices"); [|discriminate].
    split; [|reflexivity].
    rewrite !dom_insert_L, dom_empty_L. set_solver.
  - intros e He. unfold outcome in He. rewrite E in He.
    destruct (read_triangle_mesh _) as [?|legacy].
    + apply (emitted_app _ _ _ _ _ E). simpl. rewrite app_nil_r. reflexivity.
    + destruct (first_missing _); [|discriminate].
      apply (emitted_app _ _ _ _ _ E). simpl. rewrite app_nil_r. reflexivity.
Qed.

End WithMaterialFacts.

Lemma model_file_of_dir (d n : string) :
  n <> "" -> contains_slash n = false ->
  model_file (d +:+ "/" +:+ n) = d +:+ "/" +:+ n +:+ "/" +:+ n +:+ ".obj".
Proof.
  intros Hn Hs. unfold model_file.
  rewrite (basename_after_slash d n Hs).
  rewrite path_join_relative by (apply no_slash_relative; [exact Hs|reflexivity]).
  rewrite (join_prefix_dir d n Hn Hs), !append_assoc. reflexivity.
Qed.

Lemma texture_file_of_dir (d n texture : string) :
  n <> "" -> contains_slash n = false -> contains_slash texture = false ->
  texture_file (d +:+ "/" +:+ n) texture = d +:+ "/" +:+ n +:+ "/" +:+ texture +:+ ".png".
Proof.
  intros Hn Hs Ht. unfold texture_file.
  rewrite path_join_relative by (apply no_slash_relative; [exact Ht|reflexivity]).
  rewrite (join_prefix_dir d n Hn Hs), !append_assoc. reflexivity.
Qed.

Lemma basename_trailing (d : string) : basename (d +:+ "/") = "".
Proof. rewrite basename_append; reflexivity. Qed.

Lemma channels_have_no_slash (texture : string) :
  texture ∈ texture_channels -> contains_slash texture = false.
Proof.
  unfold texture_channels. intros H.
  repeat (apply elem_of_cons in H as [->|H]); try reflexivity.
  apply elem_of_nil in H. contradiction.
Qed.

Section WithMaterialPaths.

Variable path_exists : string -> bool.
Variable read_image : string -> Image.
Variable read_triangle_mesh : string -> string + TriangleMesh.
Variable from_legacy : TriangleMesh -> TMesh.

Local Abbreviation run_material :=
  (with_material path_exists read_image read_triangle_mesh from_legacy).
Local Abbreviation material_of := (assemble_material path_exists read_image).

(** X2: for a model directory d/n, with n a plain non-empty name,
    with_material reads the mesh from d/n/n.obj, takes the texture of a
    channel from d/n/<channel>.png, and writes under the tag n to the log
    directory demo_logs/pytorch/n.  For a model directory with a trailing
    slash, d/, the name is empty: the mesh is read from d/.obj and the
    call goes to demo_logs/pytorch/ under the empty tag. *)
Theorem with_material_paths (d n : string) (st : state) (legacy : TriangleMesh) :
  n <> "" -> contains_slash n = false ->
  first_missing (from_legacy legacy) = None ->
  (read_triangle_mesh (d +:+ "/" +:+ n +:+ "/" +:+ n +:+ ".obj") = inr legacy ->
   exists data,
     emitted (run_material (d +:+ "/" +:+ n)) st
     = [mkCall (BASE_LOGDIR +:+ n) n data 0 None])
  /\ (forall texture, texture ∈ texture_channels ->
        texture_maps (material_of (d +:+ "/" +:+ n)) !! texture =
          if path_exists (d +:+ "/" +:+ n +:+ "/" +:+ texture +:+ ".png")
          then Some (read_image (d +:+ "/" +:+ n +:+ "/" +:+ texture +:+ ".png"))
          else None)
  /\ (read_triangle_mesh (d +:+ "/" +:+ ".obj") = inr legacy ->
      exists data,
        emitted (run_material (d +:+ "/")) st
        = [mkCall BASE_LOGDIR "" data 0 None]).
Proof.
  intros Hn Hs Hok. split; [|split].
  - intros Hread.
    pose proof (with_material_run path_exists read_image read_triangle_mesh
                  from_legacy (d +:+ "/" +:+ n) st) as E.
    rewrite (model_file_of_dir d n Hn Hs), Hread, Hok in E.
    rewrite (basename_after_slash d n Hs) in E.
    eexists. apply (emitted_app _ _ _ _ _ E). reflexivity.
  - intros texture Ht.
    pose proof (add_texture_lookup path_exists read_image read_triangle_mesh
                  from_legacy (d +:+ "/" +:+ n)
                  texture_channels (mkMaterial "defaultLit" ∅ ∅ ∅) texture) as L.
    destruct (decide (texture ∈ texture_channels)); [|contradiction].
    fold (texture_file (d +:+ "/" +:+ n) texture) in L.
    rewrite (texture_file_of_dir d n texture Hn Hs
               (channels_have_no_slash texture Ht)) in L.
    cbn [texture_maps] in L. rewrite lookup_empty in L.
    unfold assemble_material. cbv zeta.
    destruct (texture_maps _ !! "metallic"); exact L.
  - intros Hread.
    pose proof (with_material_run path_exists read_image read_triangle_mesh
                  from_legacy (d +:+ "/") st) as E.
    unfold model_file in E. rewrite (basename_trailing d) in E.
    rewrite path_join_relative in E by reflexivity.
    rewrite join_prefix_after_slash in E.
    change ("" +:+ ".obj") with ".obj" in E.
    rewrite append_assoc, Hread, Hok in E.
    eexists. apply (emitted_app _ _ _ _ _ E).
    cbn [log]. reflexivity.
Qed.

End WithMaterialPaths.

Section WithMaterialReads.

Variable from_legacy : TriangleMesh -> TMesh.
Variables path_exists1 path_exists2 : string -> bool.
Variables read_image1 read_image2 : string -> Image.
Variables read_triangle_mesh1 read_triangle_mesh2 : string -> string + TriangleMesh.

Lemma textures_agree (model_dir : string) (channels : list string) (material : Material) :
  (forall texture, texture ∈ channels ->
     path_exists1 (texture_file model_dir texture)
     = path_exists2 (texture_file model_dir texture)
     /\ (path_exists1 (texture_file model_dir texture) = true ->
         read_image1 (texture_file model_dir texture)
         = read_image2 (texture_file model_dir texture))) ->
  foldl (add_texture path_exists1 read_image1 model_dir) material channels
  = foldl (add_texture path_exists2 read_image2 model_dir) material channels.
Proof.
  revert material. induction channels as [|ch channels IH]; intros material H;
    [reflexivity|].
  cbn [foldl]. destruct (H ch ltac:(left)) as [He Hi].
  assert (Hstep : add_texture path_exists1 read_image1 model_dir material ch
                  = add_texture path_exists2 read_image2 model_dir material ch).
  { unfold add_texture. fold (texture_file model_dir ch). rewrite <- He.
    destruct (path_exists1 (texture_file model_dir ch)); [|reflexivity].
    rewrite Hi by reflexivity. reflexivity. }
  rewrite Hstep. apply IH. intros texture Ht. apply H. right. exact Ht.
Qed.

(** X3: with_material depends on the file system only through six
    paths: the mesh file and the five texture files.  Two file systems
    that agree on whether each texture file exists, on the image read
    from each one that does, and on the mesh file, give the same result
    and the same call. *)
Theorem with_material_reads_six_files (model_dir : string) (st : state) :
  read_triangle_mesh1 (model_file model_dir) = read_triangle_mesh2 (model_file model_dir) ->
  (forall texture, texture ∈ texture_channels ->
     path_exists1 (texture_file model_dir texture)
     = path_exists2 (texture_file model_dir texture)
     /\ (path_exists1 (texture_file model_dir texture) = true ->
         read_image1 (texture_file model_dir texture)
         = read_image2 (texture_file model_dir texture))) ->
  with_material path_exists1 read_image1 read_triangle_mesh1 from_legacy model_dir st
  = with_material path_exists2 read_image2 read_triangle_mesh2 from_legacy model_dir st.
Proof.
  intros Hmesh Htex.
  rewrite !with_material_run, Hmesh.
  unfold assemble_material. cbv zeta.
  rewrite (textures_agree model_dir texture_channels _ Htex). reflexivity.
Qed.

End WithMaterialReads.

Lemma with_material_all_or_nothing_witness :
  outcome (with_material monkey_dir_exists demo_read_image
             (fun _ => inr unit_triangle)
             (fun _ => mkTMesh {["positions" := FloatTensor []]} ∅)
             "test_data/monkey" empty_state)
  = inl (KeyError "normals")
  /\ final (with_material monkey_dir_exists demo_read_image
              (fun _ => inr unit_triangle)
              (fun _ => mkTMesh {["positions" := FloatTensor []]} ∅)
              "test_data/monkey" empty_state)
     = empty_state.
Proof.
  destruct (with_material_all_or_nothing monkey_dir_exists demo_read_image
              (fun _ => inr unit_triangle)
              (fun _ => mkTMesh {["positions" := FloatTensor []]} ∅)
              "test_data/monkey" empty_state) as (_ & _ & H & _).
  exact (H unit_triangle "normals" eq_refl eq_refl).
Defined.

(** ** The entry point *)

Lemma path_join_name (prefix name next : string) :
  name <> "" -> ends_with_slash name = false -> starts_with_slash next = false ->
  path_join (prefix +:+ name) next = prefix +:+ name +:+ "/" +:+ next.
Proof.
  intros Hn He Hs. rewrite path_join_relative by exact Hs.
  rewrite (join_prefix_after_name prefix name Hn He), !append_assoc. reflexivity.
Qed.

Lemma path_join_all_monkey (dir : string) :
  path_join_all dir [".."; ".."; ".."; "test_data"; "monkey"]
  = join_prefix dir +:+ "../../../test_data/monkey".
Proof.
  unfold path_join_all. cbn [foldl].
  rewrite (path_join_relative dir "..") by reflexivity.
  rewrite (path_join_name (join_prefix dir) ".." "..")
    by (discriminate || reflexivity).
  change (".." +:+ "/" +:+ "..") with "../..".
  rewrite (path_join_name (join_prefix dir) "../.." "..")
    by (discriminate || reflexivity).
  change ("../.." +:+ "/" +:+ "..") with "../../..".
  rewrite (path_join_name (join_prefix dir) "../../.." "test_data")
    by (discriminate || reflexivity).
  change ("../../.." +:+ "/" +:+ "test_data") with "../../../test_data".
  rewrite (path_join_name (join_prefix dir) "../../../test_data" "monkey")
    by (discriminate || reflexivity).
  reflexivity.
Qed.

Lemma monkey_dir_names (prefix : string) :
  basename (prefix +:+ "../../../test_data/monkey") = "monkey"
  /\ model_file (prefix +:+ "../../../test_data/monkey")
     = prefix +:+ "../../../test_data/monkey/monkey.obj".
Proof.
  assert (Hb : basename (prefix +:+ "../../../test_data/monkey") = "monkey").
  { rewrite basename_append; reflexivity. }
  split; [exact Hb|]. unfold model_file. rewrite Hb.
  rewrite (path_join_name prefix "../../../test_data/monkey" ("monkey" +:+ ".obj"))
    by (discriminate || reflexivity).
  reflexivity.
Qed.

Section MainFacts.

Variable create_box : R -> R -> R -> string + TriangleMesh.
Variable create_cylinder : R -> R -> Z -> Z -> string + TriangleMesh.
Variable compute_normals : TriangleMesh -> TriangleMesh.
Variable path_exists : string -> bool.
Variable read_image : string -> Image.
Variable read_triangle_mesh : string -> string + TriangleMesh.
Variable from_legacy : TriangleMesh -> TMesh.
Variable script_file : string.
Variable realpath : string -> string.

Local Abbreviation run_main :=
  (main create_box create_cylinder compute_normals path_exists read_image
     read_triangle_mesh from_legacy script_file realpath).
Local Abbreviation run_reference :=
  (property_reference create_box create_cylinder compute_normals).
Local Abbreviation run_material :=
  (with_material path_exists read_image read_triangle_mesh from_legacy).
Local Abbreviation monkey_dir := (main_model_dir script_file realpath).
Local Abbreviation monkey_obj :=
  (join_prefix (dirname (realpath script_file))
   +:+ "../../../test_data/monkey/monkey.obj").

(** The log after a small demo is the log before it, then its frames. *)
Lemma small_demo_log (K : loc -> loc -> M unit)
    (mk : string -> TriangleMesh -> Z -> add_3d_call) st :
  (forall cube cyl h lg mc my,
      cube <> cyl -> h !! cube = Some mc -> h !! cyl = Some my ->
      exists h', K cube cyl (mkState h lg) =
                 (inr tt, mkState h' (lg ++ demo_frames mk mc my))) ->
  log (final (prologue create_box create_cylinder compute_normals K st))
  = log st ++ small_demo_frames create_box create_cylinder compute_normals mk.
Proof.
  intros HK. unfold small_demo_frames, final.
  rewrite (prologue_run create_box create_cylinder compute_normals K st).
  destruct (create_box 1 2 4) as [kind|cube0];
    [simpl; rewrite app_nil_r; reflexivity|].
  destruct (create_cylinder 1 2 20 4) as [kind|cyl0];
    [simpl; rewrite app_nil_r; reflexivity|].
  destruct (HK (length (heap st)) (S (length (heap st)))
              (heap st ++ [compute_normals cube0; compute_normals cyl0]) (log st)
              (compute_normals cube0) (compute_normals cyl0)) as (h' & EK).
  - lia.
  - rewrite lookup_app_r by lia. rewrite Nat.sub_diag. reflexivity.
  - rewrite lookup_app_r by lia.
    replace (S (length (heap st)) - length (heap st))%nat with 1%nat by lia.
    reflexivity.
  - rewrite EK. reflexivity.
Qed.

Lemma property_reference_log (run_name : string) (st : state) :
  log (final (run_reference run_name st))
  = log st ++ small_demo_frames create_box create_cylinder compute_normals
                (marked_frame (BASE_LOGDIR +:+ run_name)).
Proof.
  apply (small_demo_log
           (fun cube cyl => for_each (py_range 3)
              (property_reference_step (BASE_LOGDIR +:+ run_name) cube cyl palette))).
  intros. apply property_reference_loop_run; assumption.
Qed.

Lemma main_model_names :
  basename monkey_dir = "monkey" /\ model_file monkey_dir = monkey_obj.
Proof.
  unfold main_model_dir. rewrite path_join_all_monkey.
  destruct (monkey_dir_names (join_prefix (dirname (realpath script_file))))
    as [Hb Hm].
  split; [exact Hb|exact Hm].
Qed.

(** The block as a whole: the second call runs on the state the first
    one left, if the first one returned. *)
Lemma main_run (st : state) :
  run_main st =
  match run_reference "property_reference" st with
  | (inl e, st') => (inl e, st')
  | (inr _, st') => run_material monkey_dir st'
  end.
Proof. reflexivity. Qed.

(** X4: when the two generators succeed and the mesh of the monkey can
    be read with its four attributes, the script makes seven add_3d
    calls: the six of property_reference, to
    demo_logs/pytorch/property_reference, then one under the tag monkey
    to demo_logs/pytorch/monkey.  Wherever the script lies, the model is
    named monkey and its mesh is read from
    <script directory>/../../../test_data/monkey/monkey.obj. *)
Theorem main_seven_calls (st : state) (cube0 cyl0 legacy : TriangleMesh) :
  create_box 1 2 4 = inr cube0 ->
  create_cylinder 1 2 20 4 = inr cyl0 ->
  read_triangle_mesh monkey_obj = inr legacy ->
  first_missing (from_legacy legacy) = None ->
  outcome (run_main st) = inr tt
  /\ exists data,
       emitted run_main st
       = demo_frames (marked_frame "demo_logs/pytorch/property_reference")
           (compute_normals cube0) (compute_normals cyl0)
         ++ [mkCall "demo_logs/pytorch/monkey" "monkey" data 0 None]
       /\ data !! "material"
          = Some (MaterialV (assemble_material path_exists read_image monkey_dir)).
Proof.
  intros Hb Hc Hread Hok.
  destruct main_model_names as [Hname Hfile].
  pose proof (property_reference_summary create_box create_cylinder compute_normals
                "property_reference" st) as [Ho _].
  pose proof (property_reference_log "property_reference" st) as Hl.
  unfold small_demo_outcome, small_demo_frames in *. rewrite Hb, Hc in *.
  pose proof (main_run st) as E. unfold outcome, final in *.
  destruct (run_reference "property_reference" st) as [[e|[]] st1];
    cbn [fst snd] in *; [discriminate|].
  pose proof (with_material_run path_exists read_image read_triangle_mesh
                from_legacy monkey_dir st1) as Em.
  rewrite Hfile, Hread, Hok, Hname in Em. rewrite Em in E. clear Em.
  split; [rewrite E; reflexivity|].
  eexists. split.
  - apply (emitted_app _ _ _ _ _ E). cbn [log]. rewrite Hl, <- app_assoc.
    reflexivity.
  - unfold material_data, first_missing in *.
    destruct (vertex (from_legacy legacy) !! "positions"); [|discriminate].
    destruct (vertex (from_legacy legacy) !! "normals"); [|discriminate].
    destruct (vertex (from_legacy legacy) !! "texture_uvs"); [|discriminate].
    destruct (triangle (from_legacy legacy) !! "indices"); [|discriminate].
    reflexivity.
Qed.

(** X5: the script stops at the first failure and keeps what was
    written.  If a mesh generator raises, with_material is not run:
    nothing is written, whatever the file system holds.  If the
    generators succeed and the mesh of the monkey cannot be read, or
    lacks an attribute, the script ends with that error and the six
    frames of property_reference stay written. *)
Theorem main_fail_fast (st : state) :
  (forall e,
     small_demo_outcome create_box create_cylinder = inl e ->
     outcome (run_main st) = inl e /\ emitted run_main st = [])
  /\ (forall cube0 cyl0 e,
        create_box 1 2 4 = inr cube0 ->
        create_cylinder 1 2 20 4 = inr cyl0 ->
        (exists kind, read_triangle_mesh monkey_obj = inl kind
                      /\ e = LibraryError kind)
        \/ (exists legacy key,
              read_triangle_mesh monkey_obj = inr legacy
              /\ first_missing (from_legacy legacy) = Some key
              /\ e = KeyError key) ->
        outcome (run_main st) = inl e
        /\ emitted run_main st
           = demo_frames (marked_frame "demo_logs/pytorch/property_reference")
               (compute_normals cube0) (compute_normals cyl0)).
Proof.
  destruct main_model_names as [Hname Hfile].
  pose proof (property_reference_summary create_box create_cylinder compute_normals
                "property_reference" st) as [Ho He].
  pose proof (property_reference_log "property_reference" st) as Hl.
  pose proof (main_run st) as E.
  split.
  - intros e Hfail. rewrite Hfail in Ho.
    assert (Hf : small_demo_frames create_box create_cylinder compute_normals
                   (marked_frame (BASE_LOGDIR +:+ "property_reference")) = []).
    { unfold small_demo_outcome, small_demo_frames in *.
      destruct (create_box 1 2 4); [reflexivity|].
      destruct (create_cylinder 1 2 20 4); [reflexivity|discriminate]. }
    rewrite Hf, app_nil_r in Hl. unfold outcome, final in *.
    destruct (run_reference "property_reference" st) as [[e'|[]] st1];
      cbn [fst snd] in *; [|discriminate].
    split; [rewrite E; exact Ho|].
    apply (emitted_app _ _ _ _ _ E). rewrite Hl, app_nil_r. reflexivity.
  - intros cube0 cyl0 e Hb Hc Hfail.
    unfold small_demo_outcome, small_demo_frames in *. rewrite Hb, Hc in *.
    unfold outcome, final in *.
    destruct (run_reference "property_reference" st) as [[e'|[]] st1];
      cbn [fst snd] in *; [discriminate|].
    pose proof (with_material_run path_exists read_image read_triangle_mesh
                  from_legacy monkey_dir st1) as Em.
    rewrite Hfile in Em.
    destruct Hfail as [(kind & Hread & ->)|(legacy & key & Hread & Hk & ->)].
    + rewrite Hread in Em. rewrite Em in E.
      split; [rewrite E; reflexivity|].
      apply (emitted_app _ _ _ _ _ E). exact Hl.
    + rewrite Hread, Hk in Em. rewrite Em in E.
      split; [rewrite E; reflexivity|].
      apply (emitted_app _ _ _ _ _ E). exact Hl.
Qed.

End MainFacts.

(** ** large_scale: contents of a frame, more steps *)

Lemma py_range_app (n n' : Z) :
  n <= n' -> exists rest, py_range n' = py_range n ++ rest.
Proof.
  intros Hle. unfold py_range.
  replace (Z.to_nat n') with (Z.to_nat n + (Z.to_nat n' - Z.to_nat n))%nat by lia.
  rewrite seq_app, fmap_app. eauto.
Qed.

Lemma dict_of_batch_painted (m : TriangleMesh) (colors : list vec3) :
  let d := dict_of_batch ((fun c => paint c m) <$> colors) in
  d !! "vertex_positions" = Some (Vec3Batch (replicate (length colors) (vertices m)))
  /\ d !! "vertex_normals"
     = Some (Vec3Batch (replicate (length colors) (vertex_normals m)))
  /\ d !! "triangle_indices" = Some (TriBatch (replicate (length colors) (triangles m)))
  /\ d !! "vertex_colors"
     = Some (Vec3Batch ((fun c => replicate (length (vertices m)) c) <$> colors)).
Proof.
  assert (Hconst : forall (A : Type) (f : TriangleMesh -> A),
            (forall c, f (paint c m) = f m) ->
            f <$> ((fun c => paint c m) <$> colors) = replicate (length colors) (f m)).
  { intros A f Hf. induction colors as [|c cs IH]; [reflexivity|].
    cbn [fmap list_fmap length replicate]. rewrite Hf. f_equal. exact IH. }
  assert (Hcol : vertex_colors <$> ((fun c => paint c m) <$> colors)
                 = (fun c => replicate (length (vertices m)) c) <$> colors).
  { rewrite <- list_fmap_compose. apply list_fmap_ext. intros _ c _. simpl.
    induction (vertices m) as [|v vs IH]; [reflexivity|]. simpl. f_equal. exact IH. }
  intros d. subst d. unfold dict_of_batch.
  rewrite <- Hcol, <- !Hconst by reflexivity. repeat split; reflexivity.
Qed.

Section LargeMore.

Variable create_cylinder : R -> R -> Z -> Z -> string + TriangleMesh.
Variable create_moebius : Z -> Z -> Z -> R -> R -> R -> R -> string + TriangleMesh.
Variable compute_normals : TriangleMesh -> TriangleMesh.

Local Abbreviation run_large :=
  (large_scale create_cylinder create_moebius compute_normals).
Local Abbreviation error_of_step := (step_error create_cylinder create_moebius).
Local Abbreviation frames_of_step :=
  (step_frames create_cylinder create_moebius compute_normals).
Local Abbreviation loop_outcome_of := (loop_outcome create_cylinder create_moebius).
Local Abbreviation loop_frames_of :=
  (loop_frames create_cylinder create_moebius compute_normals).

Lemma loop_frames_elem w batch_size base_resolution colors (steps : list Z) call :
  call ∈ loop_frames_of w batch_size base_resolution colors steps ->
  exists s, s ∈ steps /\ call ∈ frames_of_step w batch_size base_resolution colors s.
Proof.
  induction steps as [|s steps IH]; cbn [loop_frames]; intros H.
  - apply elem_of_nil in H. contradiction.
  - destruct (error_of_step base_resolution s);
      [apply elem_of_nil in H; contradiction|].
    apply elem_of_app in H as [H|H].
    + exists s. split; [left|exact H].
    + destruct (IH H) as (s' & Hs' & Hc). exists s'. split; [right; exact Hs'|exact Hc].
Qed.

Lemma loop_app w batch_size base_resolution colors (pre post : list Z) :
  loop_outcome_of base_resolution (pre ++ post)
  = match loop_outcome_of base_resolution pre with
    | inl e => inl e
    | inr _ => loop_outcome_of base_resolution post
    end
  /\ loop_frames_of w batch_size base_resolution colors (pre ++ post)
     = loop_frames_of w batch_size base_resolution colors pre
       ++ match loop_outcome_of base_resolution pre with
          | inl _ => []
          | inr _ => loop_frames_of w batch_size base_resolution colors post
          end.
Proof.
  induction pre as [|s pre [IHo IHf]]; [split; reflexivity|].
  cbn [app loop_outcome loop_frames].
  destruct (error_of_step base_resolution s); [split; reflexivity|].
  rewrite IHo, IHf, app_assoc. split; reflexivity.
Qed.

(** X6: every frame large_scale hands over is a batch of copies of one
    mesh, the normal-completed result of the generator of its track at
    its step: the cylinder of resolution base_resolution * (step + 1),
    or the Moebius strip whose split counts are int(3.5 * resolution)
    and int(0.75 * resolution) as binary64 computes them.  All instances
    have the same positions, normals and triangles, and instance b has
    the colour colors[b] on every vertex.  This holds for every call
    made, also in a run that fails later. *)
Theorem large_scale_batch_contents (n_steps batch_size base_resolution : Z)
    (run_name : string) (st : state) (call : add_3d_call) :
  call ∈ emitted (run_large n_steps batch_size base_resolution run_name) st ->
  exists m0,
    let m := compute_normals m0 in
    0 <= call_step call < n_steps
    /\ ((call_tag call = "cylinder"
         /\ create_cylinder 1 2 (base_resolution * (call_step call + 1)) 4 = inr m0)
        \/ (call_tag call = "moebius"
            /\ exists length_split width_split,
                 length_split_of (base_resolution * (call_step call + 1))
                   = inr length_split
                 /\ width_split_of (base_resolution * (call_step call + 1))
                    = inr width_split
                 /\ create_moebius length_split width_split 1 1 1 1 1 = inr m0))
    /\ call_data call !! "vertex_positions"
       = Some (Vec3Batch (replicate (Z.to_nat batch_size) (vertices m)))
    /\ call_data call !! "vertex_normals"
       = Some (Vec3Batch (replicate (Z.to_nat batch_size) (vertex_normals m)))
    /\ call_data call !! "triangle_indices"
       = Some (TriBatch (replicate (Z.to_nat batch_size) (triangles m)))
    /\ call_data call !! "vertex_colors"
       = Some (Vec3Batch ((fun b => replicate (length (vertices m))
                                      (spec_color_schedule b batch_size))
                          <$> py_range batch_size)).
Proof.
  intros Hin.
  destruct (large_scale_summary create_cylinder create_moebius compute_normals
              n_steps batch_size base_resolution run_name st) as [_ He].
  rewrite He in Hin. apply loop_frames_elem in Hin as (s & Hs & Hin).
  apply elem_of_py_range in Hs. unfold step_frames in Hin.
  destruct (step_cylinder create_cylinder base_resolution s) as [?|c0] eqn:Ec;
    [apply elem_of_nil in Hin; contradiction|].
  destruct (step_moebius create_moebius base_resolution s) as [?|m0] eqn:Em;
    [apply elem_of_nil in Hin; contradiction|].
  assert (Em' : exists length_split width_split,
            length_split_of (base_resolution * (s + 1)) = inr length_split
            /\ width_split_of (base_resolution * (s + 1)) = inr width_split
            /\ create_moebius length_split width_split 1 1 1 1 1 = inr m0).
  { unfold step_moebius, step_splits in Em.
    destruct (length_split_of _) as [?|length_split]; [discriminate|].
    destruct (width_split_of _) as [?|width_split]; [discriminate|].
    exists length_split, width_split.
    destruct (create_moebius length_split width_split 1 1 1 1 1);
      [discriminate|]. injection Em as ->. auto. }
  unfold step_cylinder in Ec.
  assert (Hcolors : (fun c => replicate (length (vertices (compute_normals c0))) c)
                      <$> colors_of batch_size
                    = (fun b => replicate (length (vertices (compute_normals c0)))
                                  (spec_color_schedule b batch_size))
                      <$> py_range batch_size
                    /\ (fun c => replicate (length (vertices (compute_normals m0))) c)
                         <$> colors_of batch_size
                       = (fun b => replicate (length (vertices (compute_normals m0)))
                                     (spec_color_schedule b batch_size))
                         <$> py_range batch_size).
  { unfold colors_of. rewrite <- !list_fmap_compose. split; reflexivity. }
  destruct Hcolors as [Hc1 Hc2].
  repeat (apply elem_of_cons in Hin as [->|Hin]);
    [exists c0|exists m0|apply elem_of_nil in Hin; contradiction];
    cbv zeta; unfold batch_frame; cbn [call_step call_tag call_data];
    (split; [exact Hs|]); (split; [auto|]).
  - destruct (dict_of_batch_painted (compute_normals c0) (colors_of batch_size))
      as (H1 & H2 & H3 & H4).
    rewrite length_colors_of in *. rewrite Hc1 in H4. auto.
  - destruct (dict_of_batch_painted (compute_normals m0) (colors_of batch_size))
      as (H1 & H2 & H3 & H4).
    rewrite length_colors_of in *. rewrite Hc2 in H4. auto.
Qed.

(** X7: asking large_scale for more steps only adds frames: the calls of
    a run of n steps are the first calls of a run of n' >= n steps on the
    same inputs, and if the shorter run ends with an error the longer
    one ends with the same error and the same calls.  With n_steps <= 0
    the run returns at once and changes nothing, whatever the generators
    would do. *)
Theorem large_scale_more_steps (n n' batch_size base_resolution : Z)
    (run_name : string) (st : state) :
  n <= n' ->
  emitted (run_large n batch_size base_resolution run_name) st
    `prefix_of` emitted (run_large n' batch_size base_resolution run_name) st
  /\ (forall e,
        outcome (run_large n batch_size base_resolution run_name st) = inl e ->
        outcome (run_large n' batch_size base_resolution run_name st) = inl e
        /\ emitted (run_large n' batch_size base_resolution run_name) st
           = emitted (run_large n batch_size base_resolution run_name) st)
  /\ (n <= 0 -> run_large n batch_size base_resolution run_name st = (inr tt, st)).
Proof.
  intros Hle.
  destruct (large_scale_summary create_cylinder create_moebius compute_normals
              n batch_size base_resolution run_name st) as [Ho He].
  destruct (large_scale_summary create_cylinder create_moebius compute_normals
              n' batch_size base_resolution run_name st) as [Ho' He'].
  destruct (py_range_app n n' Hle) as [rest Hr].
  destruct (loop_app (BASE_LOGDIR +:+ run_name) batch_size base_resolution
              (colors_of batch_size) (py_range n) rest) as [Lo Lf].
  rewrite Ho, He, Ho', He', Hr, Lo, Lf.
  split; [|split].
  - eexists. reflexivity.
  - intros e Hfail. rewrite Hfail. split; [reflexivity|apply app_nil_r].
  - intros Hn. unfold large_scale, SummaryWriter.
    rewrite bind_run. cbn [mret M_ret].
    rewrite (bind_inr _ _ _ _ _ (build_colors_run batch_size st)).
    unfold py_range. replace (Z.to_nat n) with 0%nat by lia. reflexivity.
Qed.

End LargeMore.

(** ** The colours of a batch *)

Lemma schedule_angle (k n : Z) :
  0 <= k < n ->
  (0 <= IZR k * PI / IZR n < PI /\ IZR k * PI / IZR n / PI = IZR k / IZR n
   /\ 0 <= IZR k / IZR n < 1)%R.
Proof.
  intros Hk. pose proof PI_bounds as HPI.
  assert (HK : (0 <= IZR k)%R) by (apply IZR_le; lia).
  assert (HN : (IZR k < IZR n)%R) by (apply IZR_lt; lia).
  assert (Hr : (0 <= IZR k / IZR n < 1)%R).
  { split.
    - apply Rmult_le_pos; [lra|]. left. apply Rinv_0_lt_compat. lra.
    - apply (Rmult_lt_reg_r (IZR n)); [lra|]. unfold Rdiv.
      rewrite Rmult_assoc, Rinv_l by lra. lra. }
  assert (Ht : (IZR k * PI / IZR n = IZR k / IZR n * PI)%R) by (field; lra).
  split; [rewrite Ht; nra|]. split; [field; lra|exact Hr].
Qed.

Lemma spec_color_schedule_valid (k n : Z) :
  0 <= k < n ->
  valid_rgb (spec_color_schedule k n)
  /\ (1 / 2 <= (spec_color_schedule k n).1.1)%R
  /\ ((spec_color_schedule k n).2 = IZR k / IZR n)%R.
Proof.
  intros Hk. destruct (schedule_angle k n Hk) as (Ht & Hq & Hr).
  unfold spec_color_schedule, valid_rgb. cbv zeta. cbn [fst snd].
  pose proof (sin_ge_0 _ (proj1 Ht) (Rlt_le _ _ (proj2 Ht))) as Hs.
  pose proof (SIN_bound (IZR k * PI / IZR n)) as Hs'.
  pose proof (COS_bound (IZR k * PI / IZR n)) as Hc.
  rewrite Hq. repeat split; lra.
Qed.

Lemma spec_color_schedule_inj (n : Z) :
  n <> 0 -> Inj (=) (=) (fun k => spec_color_schedule k n).
Proof.
  intros Hn k k' H. unfold spec_color_schedule in H. cbv zeta in H.
  injection H as _ _ H3.
  assert (HN : IZR n <> 0%R) by (intros E; apply Hn, eq_IZR; exact E).
  pose proof PI_bounds as HPI.
  apply eq_IZR.
  assert (E : (IZR k * PI / IZR n / PI * IZR n = IZR k)%R) by (field; lra).
  assert (E' : (IZR k' * PI / IZR n / PI * IZR n = IZR k')%R) by (field; lra).
  rewrite <- E, <- E', H3. reflexivity.
Qed.

(** X8: the colours large_scale computes for a batch are batch_size
    many, pairwise different, and each has its three components between
    0 and 1, the first at least 0.5 and the last equal to k / batch_size;
    the first element of every batch gets (0.5, 1, 0). *)
Theorem batch_colors_distinct_and_valid (batch_size : Z) (st : state) :
  exists colors,
    build_colors batch_size st = (inr colors, st)
    /\ length colors = Z.to_nat batch_size
    /\ NoDup colors
    /\ Forall valid_rgb colors
    /\ (forall k c, 0 <= k -> colors !! Z.to_nat k = Some c ->
          (1 / 2 <= c.1.1)%R /\ (c.2 = IZR k / IZR batch_size)%R)
    /\ (1 <= batch_size -> colors !! 0%nat = Some (1 / 2, 1, 0)%R).
Proof.
  exists (colors_of batch_size).
  split; [apply build_colors_run|]. split; [apply length_colors_of|].
  assert (Hlook : forall k c, 0 <= k -> colors_of batch_size !! Z.to_nat k = Some c ->
            k < batch_size /\ c = spec_color_schedule k batch_size).
  { intros k c Hk Hc. pose proof (lookup_lt_Some _ _ _ Hc) as Hlt.
    rewrite length_colors_of in Hlt. split; [lia|].
    unfold colors_of, py_range in Hc. rewrite !list_lookup_fmap in Hc.
    rewrite lookup_seq_lt in Hc by lia. simpl in Hc.
    rewrite Z2Nat.id in Hc by lia. congruence. }
  split; [|split; [|split]].
  - destruct (Z.eq_dec batch_size 0) as [->|Hn]; [constructor|].
    unfold colors_of. apply NoDup_fmap_2; [apply spec_color_schedule_inj; exact Hn|].
    unfold py_range. apply NoDup_fmap_2; [intros i j; lia|apply NoDup_seq].
  - apply Forall_forall. intros c Hc. unfold colors_of in Hc.
    apply list_elem_of_fmap in Hc as (k & -> & Hk). apply elem_of_py_range in Hk.
    apply spec_color_schedule_valid. exact Hk.
  - intros k c Hk Hc. destruct (Hlook k c Hk Hc) as [Hlt ->].
    destruct (spec_color_schedule_valid k batch_size ltac:(lia)) as (_ & H1 & H2).
    split; assumption.
  - intros Hb.
    destruct (lookup_lt_is_Some_2 (colors_of batch_size) 0%nat) as [c Hc];
      [rewrite length_colors_of; lia|].
    refine (eq_trans Hc _). f_equal.
    destruct (Hlook 0 c ltac:(lia) Hc) as [_ ->].
    unfold spec_color_schedule. cbv zeta.
    assert (HN : IZR batch_size <> 0%R).
    { intros E. apply eq_IZR in E. lia. }
    pose proof PI_bounds.
    replace (0 * PI / IZR batch_size)%R with 0%R by (field; exact HN).
    rewrite sin_0, cos_0. f_equal; [f_equal|]; lra.
Qed.

Lemma batch_colors_distinct_and_valid_witness :
  exists colors,
    build_colors 3 empty_state = (inr colors, empty_state)
    /\ NoDup colors /\ colors !! 0%nat = Some (1 / 2, 1, 0)%R.
Proof.
  destruct (batch_colors_distinct_and_valid 3 empty_state)
    as (colors & E & _ & Hnd & _ & _ & H0).
  exists colors. split; [exact E|]. split; [exact Hnd|]. apply H0. lia.
Defined.

(** ** The demos and the state they start from *)

Lemma demo_frames_logdir (w : writer) (mk : string -> TriangleMesh -> Z -> add_3d_call)
    (mc my : TriangleMesh) (call : add_3d_call) :
  (forall tag m step, call_logdir (mk tag m step) = w) ->
  call ∈ demo_frames mk mc my -> call_logdir call = w.
Proof.
  intros Hmk H. unfold demo_frames in H.
  repeat (apply elem_of_cons in H as [->|H]); try apply Hmk.
  apply elem_of_nil in H. contradiction.
Qed.

Section StateFacts.

Variable create_box : R -> R -> R -> string + TriangleMesh.
Variable create_cylinder : R -> R -> Z -> Z -> string + TriangleMesh.
Variable create_moebius : Z -> Z -> Z -> R -> R -> R -> R -> string + TriangleMesh.
Variable compute_normals : TriangleMesh -> TriangleMesh.
Variable path_exists : string -> bool.
Variable read_image : string -> Image.
Variable read_triangle_mesh : string -> string + TriangleMesh.
Variable from_legacy : TriangleMesh -> TMesh.

Local Abbreviation run_small := (small_scale create_box create_cylinder compute_normals).
Local Abbreviation run_reference :=
  (property_reference create_box create_cylinder compute_normals).
Local Abbreviation run_large :=
  (large_scale create_cylinder create_moebius compute_normals).
Local Abbreviation run_material :=
  (with_material path_exists read_image read_triangle_mesh from_legacy).

Lemma with_material_summary (model_dir : string) (st : state) :
  outcome (run_material model_dir st)
  = match read_triangle_mesh (model_file model_dir) with
    | inl kind => inl (LibraryError kind)
    | inr legacy =>
        match first_missing (from_legacy legacy) with
        | Some key => inl (KeyError key)
        | None => inr tt
        end
    end
  /\ emitted (run_material model_dir) st
     = match read_triangle_mesh (model_file model_dir) with
       | inl kind => []
       | inr legacy =>
           match first_missing (from_legacy legacy) with
           | Some key => []
           | None =>
               [mkCall (BASE_LOGDIR +:+ basename model_dir) (basename model_dir)
                  (material_data (from_legacy legacy)
                     (assemble_material path_exists read_image model_dir))
                  0 None]
           end
       end.
Proof.
  pose proof (with_material_run path_exists read_image read_triangle_mesh
                from_legacy model_dir st) as E.
  destruct (read_triangle_mesh _) as [kind|legacy].
  - split; [unfold outcome; rewrite E; reflexivity|].
    apply (emitted_app _ _ _ _ _ E). simpl. rewrite app_nil_r. reflexivity.
  - destruct (first_missing _).
    + split; [unfold outcome; rewrite E; reflexivity|].
      apply (emitted_app _ _ _ _ _ E). simpl. rewrite app_nil_r. reflexivity.
    + split; [unfold outcome; rewrite E; reflexivity|].
      apply (emitted_app _ _ _ _ _ E). reflexivity.
Qed.

(** X9: what a demo hands to the sink, and how it ends, does not depend
    on the state it starts from: neither on the meshes that already
    exist nor on what has been written before.  This holds for
    small_scale, property_reference, large_scale and with_material. *)
Theorem demos_ignore_initial_state (st st' : state) :
  (forall run_name,
     outcome (run_small run_name st) = outcome (run_small run_name st')
     /\ emitted (run_small run_name) st = emitted (run_small run_name) st')
  /\ (forall run_name,
        outcome (run_reference run_name st) = outcome (run_reference run_name st')
        /\ emitted (run_reference run_name) st = emitted (run_reference run_name) st')
  /\ (forall n_steps batch_size base_resolution run_name,
        outcome (run_large n_steps batch_size base_resolution run_name st)
        = outcome (run_large n_steps batch_size base_resolution run_name st')
        /\ emitted (run_large n_steps batch_size base_resolution run_name) st
           = emitted (run_large n_steps batch_size base_resolution run_name) st')
  /\ (forall model_dir,
        outcome (run_material model_dir st) = outcome (run_material model_dir st')
        /\ emitted (run_material model_dir) st = emitted (run_material model_dir) st').
Proof.
  split; [|split; [|split]].
  - intros run_name.
    destruct (small_scale_summary create_box create_cylinder compute_normals
                run_name st) as [-> ->].
    destruct (small_scale_summary create_box create_cylinder compute_normals
                run_name st') as [-> ->]. split; reflexivity.
  - intros run_name.
    destruct (property_reference_summary create_box create_cylinder compute_normals
                run_name st) as [-> ->].
    destruct (property_reference_summary create_box create_cylinder compute_normals
                run_name st') as [-> ->]. split; reflexivity.
  - intros n_steps batch_size base_resolution run_name.
    destruct (large_scale_summary create_cylinder create_moebius compute_normals
                n_steps batch_size base_resolution run_name st) as [-> ->].
    destruct (large_scale_summary create_cylinder create_moebius compute_normals
                n_steps batch_size base_resolution run_name st') as [-> ->].
    split; reflexivity.
  - intros model_dir.
    destruct (with_material_summary model_dir st) as [-> ->].
    destruct (with_material_summary model_dir st') as [-> ->]. split; reflexivity.
Qed.

(** X10: every call of a run of small_scale, property_reference or
    large_scale goes to the writer opened on demo_logs/pytorch/ followed
    by the run name, and the call of with_material to demo_logs/pytorch/
    followed by the model name. *)
Theorem demo_calls_directory (st : state) (call : add_3d_call) :
  (forall run_name,
     call ∈ emitted (run_small run_name) st ->
     call_logdir call = BASE_LOGDIR +:+ run_name)
  /\ (forall run_name,
        call ∈ emitted (run_reference run_name) st ->
        call_logdir call = BASE_LOGDIR +:+ run_name)
  /\ (forall n_steps batch_size base_resolution run_name,
        call ∈ emitted (run_large n_steps batch_size base_resolution run_name) st ->
        call_logdir call = BASE_LOGDIR +:+ run_name)
  /\ (forall model_dir,
        call ∈ emitted (run_material model_dir) st ->
        call_logdir call = BASE_LOGDIR +:+ basename model_dir).
Proof.
  split; [|split; [|split]].
  - intros run_name.
    destruct (small_scale_summary create_box create_cylinder compute_normals
                run_name st) as [_ ->].
    unfold small_demo_frames. destruct (create_box 1 2 4);
      [intros H; apply elem_of_nil in H; contradiction|].
    destruct (create_cylinder 1 2 20 4);
      [intros H; apply elem_of_nil in H; contradiction|].
    apply demo_frames_logdir. reflexivity.
  - intros run_name.
    destruct (property_reference_summary create_box create_cylinder compute_normals
                run_name st) as [_ ->].
    unfold small_demo_frames. destruct (create_box 1 2 4);
      [intros H; apply elem_of_nil in H; contradiction|].
    destruct (create_cylinder 1 2 20 4);
      [intros H; apply elem_of_nil in H; contradiction|].
    apply demo_frames_logdir. reflexivity.
  - intros n_steps batch_size base_resolution run_name.
    destruct (large_scale_summary create_cylinder create_moebius compute_normals
                n_steps batch_size base_resolution run_name st) as [_ ->].
    intros H. apply loop_frames_elem in H as (s & _ & H). unfold step_frames in H.
    destruct (step_cylinder _ _ _); [apply elem_of_nil in H; contradiction|].
    destruct (step_moebius _ _ _); [apply elem_of_nil in H; contradiction|].
    repeat (apply elem_of_cons in H as [->|H]); try reflexivity.
    apply elem_of_nil in H. contradiction.
  - intros model_dir. destruct (with_material_summary model_dir st) as [_ ->].
    destruct (read_triangle_mesh _);
      [intros H; apply elem_of_nil in H; contradiction|].
    destruct (first_missing _);
      [intros H; apply elem_of_nil in H; contradiction|].
    intros H. apply elem_of_cons in H as [->|H]; [reflexivity|].
    apply elem_of_nil in H. contradiction.
Qed.

End StateFacts.

(** ** The small demos build both meshes first *)

Section SmallMore.

Variable create_box : R -> R -> R -> string + TriangleMesh.
Variable create_cylinder : R -> R -> Z -> Z -> string + TriangleMesh.
Variable compute_normals : TriangleMesh -> TriangleMesh.

Local Abbreviation run_small := (small_scale create_box create_cylinder compute_normals).
Local Abbreviation run_reference :=
  (property_reference create_box create_cylinder compute_normals).

(** X12: small_scale and property_reference build both meshes before
    the first frame, so the error of a generator leaves nothing written.
    If create_box raises, the run ends with its error and what
    create_cylinder would do does not matter; if create_box succeeds and
    create_cylinder raises, the run ends with that error, and the cube
    that was built is not handed over. *)
Theorem small_demos_generator_failure (run_name : string) (st : state) :
  let results :=
    [(outcome (run_small run_name st), emitted (run_small run_name) st);
     (outcome (run_reference run_name st), emitted (run_reference run_name) st)] in
  (forall kind, create_box 1 2 4 = inl kind ->
     Forall (fun r => r.1 = inl (LibraryError kind) /\ r.2 = []) results)
  /\ (forall cube0 kind,
        create_box 1 2 4 = inr cube0 -> create_cylinder 1 2 20 4 = inl kind ->
        Forall (fun r => r.1 = inl (LibraryError kind) /\ r.2 = []) results).
Proof.
  intros results. subst results.
  destruct (small_scale_summary create_box create_cylinder compute_normals
              run_name st) as [-> ->].
  destruct (property_reference_summary create_box create_cylinder compute_normals
              run_name st) as [-> ->].
  unfold small_demo_outcome, small_demo_frames.
  split.
  - intros kind ->. repeat constructor.
  - intros cube0 kind -> ->. repeat constructor.
Qed.

End SmallMore.

Lemma small_demos_generator_failure_witness :
  outcome (property_reference demo_box (capped_cylinder 10) demo_normals "demo"
             empty_state)
  = inl (LibraryError "GeometryConstructionError")
  /\ emitted (property_reference demo_box (capped_cylinder 10) demo_normals "demo")
       empty_state = [].
Proof.
  destruct (small_demos_generator_failure demo_box (capped_cylinder 10) demo_normals
              "demo" empty_state) as (_ & H).
  specialize (H _ "GeometryConstructionError" eq_refl eq_refl).
  apply Forall_cons in H as [_ H]. apply Forall_cons in H as [H _]. exact H.
Defined.

(** ** Witnesses on a concrete file system *)

Lemma with_material_paths_witness :
  exists data,
    emitted (with_material monkey_dir_exists demo_read_image
               (demo_read_triangle_mesh "test_data/monkey/monkey.obj")
               demo_from_legacy ("test_data" +:+ "/" +:+ "monkey")) empty_state
    = [mkCall (BASE_LOGDIR +:+ "monkey") "monkey" data 0 None].
Proof.
  destruct (with_material_paths monkey_dir_exists demo_read_image
              (demo_read_triangle_mesh "test_data/monkey/monkey.obj")
              demo_from_legacy "test_data" "monkey" empty_state unit_triangle
              ltac:(discriminate) eq_refl eq_refl) as (H & _).
  apply H. reflexivity.
Defined.

Lemma with_material_reads_six_files_witness :
  with_material monkey_dir_exists demo_read_image
    (demo_read_triangle_mesh "test_data/monkey/monkey.obj") demo_from_legacy
    "test_data/monkey" empty_state
  = with_material
      (fun path => monkey_dir_exists path || String.eqb path "elsewhere/albedo.png")
      demo_read_image
      (demo_read_triangle_mesh "test_data/monkey/monkey.obj") demo_from_legacy
      "test_data/monkey" empty_state.
Proof.
  apply (with_material_reads_six_files demo_from_legacy).
  - reflexivity.
  - intros texture Ht. unfold texture_channels in Ht.
    repeat (apply elem_of_cons in Ht as [->|Ht]);
      [| | | | |apply elem_of_nil in Ht; contradiction];
      (split; [reflexivity|intros _; reflexivity]).
Defined.

Lemma main_seven_calls_witness :
  exists data,
    emitted (main demo_box demo_cylinder demo_normals monkey_dir_exists demo_read_image
               (demo_read_triangle_mesh demo_monkey_obj) demo_from_legacy
               demo_script (fun p => p)) empty_state
    = demo_frames (marked_frame "demo_logs/pytorch/property_reference")
        (demo_normals (mkMesh [(0, 0, 0); (1, 0, 0); (0, 2, 0); (0, 0, 4)]%R [] []
                         [(0, 1, 2); (0, 1, 3); (0, 2, 3); (1, 2, 3)]))
        (demo_normals (mkMesh [(0, 0, 0); (1, 0, 0); (0, 0, 2)]%R [] [] [(0, 1, 2)]))
      ++ [mkCall "demo_logs/pytorch/monkey" "monkey" data 0 None].
Proof.
  destruct (main_seven_calls demo_box demo_cylinder demo_normals monkey_dir_exists
              demo_read_image (demo_read_triangle_mesh demo_monkey_obj)
              demo_from_legacy demo_script (fun p => p) empty_state _ _ unit_triangle
              eq_refl eq_refl eq_refl eq_refl) as (_ & data & E & _).
  exists data. exact E.
Defined.

Lemma main_fail_fast_witness :
  outcome (main demo_box demo_cylinder demo_normals monkey_dir_exists demo_read_image
             (demo_read_triangle_mesh "nowhere") demo_from_legacy
             demo_script (fun p => p) empty_state)
  = inl (LibraryError "MissingAssetError")
  /\ length (emitted (main demo_box demo_cylinder demo_normals monkey_dir_exists
                        demo_read_image (demo_read_triangle_mesh "nowhere")
                        demo_from_legacy demo_script (fun p => p)) empty_state)
     = 6%nat.
Proof.
  destruct (main_fail_fast demo_box demo_cylinder demo_normals monkey_dir_exists
              demo_read_image (demo_read_triangle_mesh "nowhere") demo_from_legacy
              demo_script (fun p => p) empty_state) as (_ & H).
  destruct (H _ _ (LibraryError "MissingAssetError") eq_refl eq_refl
              (or_introl (ex_intro _ "MissingAssetError" (conj eq_refl eq_refl))))
    as [Ho He].
  split; [exact Ho|]. rewrite He. reflexivity.
Defined.

Lemma large_scale_batch_contents_witness :
  exists call m0,
    emitted (large_scale demo_cylinder demo_moebius demo_normals 2 3 200 "large_scale")
      empty_state !! 1%nat = Some call
    /\ call_tag call = "moebius"
    /\ call_data call !! "vertex_colors"
       = Some (Vec3Batch ((fun b => replicate (length (vertices (demo_normals m0)))
                                      (spec_color_schedule b 3))
                          <$> py_range 3)).
Proof.
  assert (Hin : batch_frame (BASE_LOGDIR +:+ "large_scale") "moebius"
                  (demo_normals (mkMesh [(1, 0, 0); (0, 1, 0); (0, 0, 1)]%R [] []
                                   [(0, 1, 2)]))
                  (colors_of 3) 0 3
                ∈ emitted (large_scale demo_cylinder demo_moebius demo_normals
                             2 3 200 "large_scale") empty_state).
  { destruct (large_scale_summary demo_cylinder demo_moebius demo_normals
                2 3 200 "large_scale" empty_state) as [_ ->].
    apply list_elem_of_lookup. exists 1%nat. reflexivity. }
  destruct (large_scale_batch_contents demo_cylinder demo_moebius demo_normals
              2 3 200 "large_scale" empty_state _ Hin)
    as (m0 & _ & _ & _ & _ & _ & Hc).
  exists (batch_frame (BASE_LOGDIR +:+ "large_scale") "moebius"
            (demo_normals (mkMesh [(1, 0, 0); (0, 1, 0); (0, 0, 1)]%R [] []
                             [(0, 1, 2)]))
            (colors_of 3) 0 3), m0.
  split; [|split; [reflexivity|exact Hc]].
  destruct (large_scale_summary demo_cylinder demo_moebius demo_normals
              2 3 200 "large_scale" empty_state) as [_ ->]. reflexivity.
Defined.

Lemma large_scale_more_steps_witness :
  emitted (large_scale demo_cylinder demo_moebius demo_normals 1 2 200 "large_scale")
    empty_state
  `prefix_of`
  emitted (large_scale demo_cylinder demo_moebius demo_normals 3 2 200 "large_scale")
    empty_state.
Proof.
  apply (large_scale_more_steps demo_cylinder demo_moebius demo_normals
           1 3 2 200 "large_scale" empty_state). lia.
Defined.

Lemma demo_calls_directory_witness :
  exists call,
    emitted (small_scale demo_box demo_cylinder demo_normals "small_scale")
      empty_state !! 0%nat = Some call
    /\ call_logdir call = "demo_logs/pytorch/small_scale".
Proof.
  set (call := frame "demo_logs/pytorch/small_scale" "cube"
                 (paint red (demo_normals
                    (mkMesh [(0, 0, 0); (1, 0, 0); (0, 2, 0); (0, 0, 4)]%R [] []
                       [(0, 1, 2); (0, 1, 3); (0, 2, 3); (1, 2, 3)]))) 0).
  assert (Hl : emitted (small_scale demo_box demo_cylinder demo_normals "small_scale")
                 empty_state !! 0%nat = Some call) by reflexivity.
  exists call. split; [exact Hl|].
  destruct (demo_calls_directory demo_box demo_cylinder demo_moebius demo_normals
              monkey_dir_exists demo_read_image
              (demo_read_triangle_mesh "test_data/monkey/monkey.obj") demo_from_legacy
              empty_state call) as (H & _).
  apply (H "small_scale"). apply list_elem_of_lookup. exists 0%nat. exact Hl.
Defined.

(** ** large_scale follows its schedule *)

Section LargeWhole.

Variable create_cylinder : R -> R -> Z -> Z -> string + TriangleMesh.
Variable create_moebius : Z -> Z -> Z -> R -> R -> R -> R -> string + TriangleMesh.
Variable compute_normals : TriangleMesh -> TriangleMesh.

Local Abbreviation run_large :=
  (large_scale create_cylinder create_moebius compute_normals).
Local Abbreviation error_of_step := (step_error create_cylinder create_moebius).
Local Abbreviation done_steps := (completed_steps create_cylinder create_moebius).

Lemma completed_steps_spec w batch_size base_resolution colors (steps : list Z) :
  let k := done_steps base_resolution steps in
  (k <= length steps)%nat
  /\ (forall s, s ∈ take k steps -> error_of_step base_resolution s = None)
  /\ loop_frames create_cylinder create_moebius compute_normals
       w batch_size base_resolution colors steps
     = flat_map (step_frames create_cylinder create_moebius compute_normals
                   w batch_size base_resolution colors) (take k steps)
  /\ loop_outcome create_cylinder create_moebius base_resolution steps
     = match steps !! k with
       | Some s =>
           match error_of_step base_resolution s with
           | Some e => inl e
           | None => inr tt
           end
       | None => inr tt
       end
  /\ (forall s, steps !! k = Some s -> error_of_step base_resolution s <> None).
Proof.
  induction steps as [|s steps IH]; cbn [completed_steps loop_frames loop_outcome].
  - cbn. repeat split; try lia; try discriminate.
    intros s H. apply elem_of_nil in H. contradiction.
  - destruct (error_of_step base_resolution s) as [kind|] eqn:E.
    + cbn. rewrite E. repeat split; try lia.
      * intros s' H. apply elem_of_nil in H. contradiction.
      * intros s' H. injection H as <-. rewrite E. discriminate.
    + destruct IH as (Hle & Hok & Hf & Ho & Hs).
      cbn [length take flat_map lookup list_lookup]. rewrite Hf, Ho.
      split; [lia|]. split; [|split; [reflexivity|split; [reflexivity|exact Hs]]].
      intros s' H. apply elem_of_cons in H as [->|H]; [exact E|exact (Hok s' H)].
Qed.

(** X13: the calls of a run of large_scale, in order, are an initial
    part of the schedule (0, cylinder), (0, moebius), (1, cylinder), ...,
    (n_steps - 1, moebius): whatever ends the run, no call is skipped,
    repeated or made out of order.  A run that returns normally has made
    every call of the schedule. *)
Theorem large_scale_schedule_prefix (n_steps batch_size base_resolution : Z)
    (run_name : string) (st : state) :
  let run := run_large n_steps batch_size base_resolution run_name in
  let schedule :=
    flat_map (fun i => [(i, "cylinder"); (i, "moebius")]) (py_range n_steps) in
  (fun call => (call_step call, call_tag call)) <$> emitted run st
    `prefix_of` schedule
  /\ (outcome (run st) = inr tt ->
      (fun call => (call_step call, call_tag call)) <$> emitted run st = schedule).
Proof.
  intros run schedule. subst run schedule.
  destruct (large_scale_summary create_cylinder create_moebius compute_normals
              n_steps batch_size base_resolution run_name st) as [-> ->].
  destruct (completed_steps_spec (BASE_LOGDIR +:+ run_name) batch_size base_resolution
              (colors_of batch_size) (py_range n_steps))
    as (Hle & Hok & -> & -> & Hs).
  set (k := done_steps base_resolution (py_range n_steps)) in *.
  destruct (flat_frames_length create_cylinder create_moebius compute_normals
              (BASE_LOGDIR +:+ run_name) batch_size base_resolution
              (colors_of batch_size) _ Hok) as [_ ->].
  split.
  - rewrite <- (take_drop k (py_range n_steps)) at 2.
    rewrite flat_map_app. eexists. reflexivity.
  - destruct (py_range n_steps !! k) as [s|] eqn:El.
    + specialize (Hs _ eq_refl).
      destruct (error_of_step base_resolution s); [discriminate|contradiction].
    + intros _. apply lookup_ge_None in El.
      rewrite take_ge by exact El. reflexivity.
Qed.

End LargeWhole.

Lemma large_scale_schedule_prefix_witness :
  outcome (large_scale demo_cylinder demo_moebius demo_normals 2 3 200 "large_scale"
             empty_state) = inr tt
  /\ (fun call => (call_step call, call_tag call)) <$>
       emitted (large_scale demo_cylinder demo_moebius demo_normals
                  2 3 200 "large_scale") empty_state
     = [(0, "cylinder"); (0, "moebius"); (1, "cylinder"); (1, "moebius")].
Proof.
  assert (Ho : outcome (large_scale demo_cylinder demo_moebius demo_normals
                          2 3 200 "large_scale" empty_state) = inr tt).
  { destruct (large_scale_summary demo_cylinder demo_moebius demo_normals
                2 3 200 "large_scale" empty_state) as [-> _]. reflexivity. }
  split; [exact Ho|].
  destruct (large_scale_schedule_prefix demo_cylinder demo_moebius demo_normals
              2 3 200 "large_scale" empty_state) as [_ H].
  exact (H Ho).
Defined.
